(** * PLP content migration (Magento to Shopify): a shallow embedding

    The development follows the Python sources under [plp-content-migrator/]:
    [script.py] (class [PLPMigrationScript]), [validate_results.py]
    (class [ValidationScript]), [analyze_migration_coverage.py]
    (class [EnhancedMigrationAnalyzer]) and [show_updated_collections.py]
    (class [UpdatedCollectionsURLGenerator]).

    Python [str] values are sequences of Unicode code points; they are
    modelled as lists of [N].  Logging calls have no effect on any value and
    are left out. *)

From Stdlib Require Import NArith String Ascii Lia.
From stdpp Require Import base option list gmap.

(** ** Python strings *)

Module PyStr.

Abbreviation char := N.
Abbreviation str := (list N).

(** Code point of an ASCII character, and the [str] of an ASCII literal. *)
Definition chr (a : ascii) : char := N_of_ascii a.
Definition py (s : string) : str := chr <$> list_ascii_of_string s.
Arguments chr a%_char.
Arguments py s%_string.

Definition dquote : char := 34%N.
Definition squote : char := 39%N.
Definition newline : char := 10%N.
Definition BOM : char := 0xFEFF%N.

(** Truthiness of a [str]: [if s:] holds exactly for non-empty strings. *)
Definition truthy {A} (s : list A) : bool :=
  match s with [] => false | _ :: _ => true end.

(** [c in chars] for a one-character [c]. *)
Definition char_in (c : char) (chars : str) : bool := existsb (N.eqb c) chars.

(** [str.isspace] on one code point (CPython's [_PyUnicode_IsWhitespace]). *)
Definition isspace (c : char) : bool :=
  ((9 <=? c) && (c <=? 13) || (28 <=? c) && (c <=? 32)
   || (c =? 0x85) || (c =? 0xA0) || (c =? 0x1680)
   || (0x2000 <=? c) && (c <=? 0x200A)
   || (c =? 0x2028) || (c =? 0x2029) || (c =? 0x202F)
   || (c =? 0x205F) || (c =? 0x3000))%N.

(** [s.lstrip(..)], [s.rstrip(..)], [s.strip(..)], the set of stripped
    characters given as a predicate. *)
Fixpoint lstrip (p : char -> bool) (s : str) : str :=
  match s with
  | [] => []
  | c :: s' => if p c then lstrip p s' else s
  end.
Definition rstrip (p : char -> bool) (s : str) : str := reverse (lstrip p (reverse s)).
Definition strip (p : char -> bool) (s : str) : str := rstrip p (lstrip p s).

(** [s.replace(old, new)] for a one-character [old]. *)
Definition replace (old : char) (new : str) (s : str) : str :=
  flat_map (fun c => if (c =? old)%N then new else [c]) s.

(** [s.find(c)] for a one-character [c]; [None] stands for Python's [-1]. *)
Fixpoint find (c : char) (s : str) : option nat :=
  match s with
  | [] => None
  | d :: s' => if (d =? c)%N then Some 0 else S <$> find c s'
  end.

(** [s.split(sep)] for a one-character [sep]: never the empty list. *)
Fixpoint split (sep : char) (s : str) : list str :=
  match s with
  | [] => [[]]
  | c :: s' =>
      if (c =? sep)%N then [] :: split sep s'
      else match split sep s' with
           | seg :: segs => (c :: seg) :: segs
           | [] => [[c]]
           end
  end.

(** [s.endswith(suffix)]. *)
Definition endswith (suffix s : str) : bool :=
  bool_decide (drop (length s - length suffix) s = suffix).

(** [s.startswith(prefix)]. *)
Definition startswith (prefix s : str) : bool :=
  bool_decide (take (length prefix) s = prefix).

End PyStr.
Import PyStr.

(** ** Exceptions and results *)

Inductive exn :=
  | ValueError | TypeError | AttributeError | ZeroDivisionError
  | OSError | UnicodeDecodeError | csv_Error.

Abbreviation result A := (exn + A)%type.

Definition rbind {A B} (r : result A) (f : A -> result B) : result B :=
  match r with inl e => inl e | inr a => f a end.

(** A loop whose body may raise: the accumulator is threaded from left to
    right and the first exception ends the loop. *)
Fixpoint rfold {A B} (body : B -> A -> result B) (acc : B) (l : list A) : result B :=
  match l with
  | [] => inr acc
  | x :: l' => rbind (body acc x) (fun acc' => rfold body acc' l')
  end.

(** ** Python dictionaries

    A [dict] keeps its keys in insertion order: assigning to a key that is
    present keeps its position, a new key goes to the end. *)

Module PyDict.

Abbreviation dict K V := (list (K * V)).

Section Dict.

Context {K V : Type} `{EqDecision K}.

(** [d.get(k)]. *)
Fixpoint get (k : K) (d : dict K V) : option V :=
  match d with
  | [] => None
  | (k', v) :: d' => if decide (k' = k) then Some v else get k d'
  end.

(** [d.get(k, dflt)]. *)
Definition get_default (k : K) (dflt : V) (d : dict K V) : V := default dflt (get k d).

(** [k in d]. *)
Definition contains (k : K) (d : dict K V) : bool :=
  match get k d with Some _ => true | None => false end.

(** [d[k] = v]. *)
Fixpoint set (k : K) (v : V) (d : dict K V) : dict K V :=
  match d with
  | [] => [(k, v)]
  | (k', v') :: d' => if decide (k' = k) then (k, v) :: d' else (k', v') :: set k v d'
  end.

(** [d.keys()] and [d.items()], in insertion order. *)
Definition keys (d : dict K V) : list K := d.*1.
Definition items (d : dict K V) : list (K * V) := d.

(** The keys of a dictionary are pairwise distinct. *)
Definition wf (d : dict K V) : Prop := NoDup (keys d).

End Dict.
End PyDict.

Abbreviation dict K V := (PyDict.dict K V).

(** A record of a tabular file after cleaning: column name to cell text. *)
Abbreviation row := (dict str str).

(** ** The standard library's [csv] module

    A file is seen through [csv.reader]: the records it yields, each a list
    of cells, and then, if opening, decoding or parsing fails, the exception
    raised at that point ([fault]; a failure of [open] has no records before
    it).  What is handed to [csv.writer] is a list of records as well. *)

Module Csv.

Record source := { records : list (list str); fault : option exn }.

(** The value of a [DictReader] row: a cell, [None] ([restval]) for a cell
    missing from a short record, or the list of surplus cells stored under
    the key [None] ([restkey]) for a long record. *)
Inductive value :=
  | VNone
  | VStr (s : str)
  | VList (l : list str).

Abbreviation raw_row := (dict (option str) value).

(** [DictReader.fieldnames]: the first record, [None] for a file without
    records. *)
Definition fieldnames (f : source) : result (option (list str)) :=
  match records f with
  | h :: _ => inr (Some h)
  | [] => match fault f with Some e => inl e | None => inr None end
  end.

(** [DictReader.__next__] on one record [r]: [dict(zip(fieldnames, r))],
    then [restkey] or [restval]. *)
Definition dict_of_record (names : list str) (r : list str) : raw_row :=
  let d := fold_left (fun d kv => PyDict.set (Some kv.1) (VStr kv.2) d) (zip names r) [] in
  let lf := length names in
  let lr := length r in
  if lf <? lr then PyDict.set None (VList (drop lf r)) d
  else if lr <? lf then fold_left (fun d k => PyDict.set (Some k) VNone d) (drop lr names) d
  else d.

(** The rows a [DictReader] yields before [fault]: blank records are passed
    over. *)
Definition rows (f : source) : list raw_row :=
  match records f with
  | [] => []
  | names :: rs => dict_of_record names <$> filter (fun r => r ≠ []) rs
  end.

(** [DictWriter._dict_to_list] with [extrasaction='raise'], [restval='']. *)
Definition dict_to_list (names : list str) (rowdict : row) : result (list str) :=
  if forallb (fun k => bool_decide (k ∈ names)) (PyDict.keys rowdict)
  then inr ((fun k => PyDict.get_default k [] rowdict) <$> names)
  else inl ValueError.

End Csv.

(** The loop every loader runs on each [DictReader] row:
    [cleaned_row[clean_key] = value.strip() if value else ""]; [.strip()]
    on the list of surplus cells raises [AttributeError]. *)
Definition clean_value (v : Csv.value) : result str :=
  match v with
  | Csv.VNone => inr []
  | Csv.VStr s => inr (if truthy s then strip isspace s else [])
  | Csv.VList l => if truthy l then inl AttributeError else inr []
  end.

(** ** The standard library's [urllib.parse.urlparse]

    The model follows CPython's [Lib/urllib/parse.py] for [str] input with
    the default arguments ([scheme=''], [allow_fragments=True]).  Two checks
    of the library need Unicode and IP-address tables: the validation of a
    bracketed host ([_check_bracketed_netloc]) and the NFKC check of a
    non-ASCII network location ([_checknetloc]).  They are parameters of the
    model (class [UrlChecks]); each answers [true] when the library raises
    [ValueError]. *)

Module UrlParse.

Definition C0_CONTROL_OR_SPACE (c : char) : bool := (c <=? 32)%N.

Definition UNSAFE_URL_BYTES_TO_REMOVE : list char := [9; 13; 10]%N.

Definition scheme_chars : str :=
  py "abcdefghijklmnopqrstuvwxyzABCDEFGHIJKLMNOPQRSTUVWXYZ0123456789+-.".

Definition uses_params : list str :=
  [py ""; py "ftp"; py "hdl"; py "prospero"; py "http"; py "imap";
   py "https"; py "shttp"; py "rtsp"; py "rtspu"; py "sip"; py "sips";
   py "mms"; py "sftp"; py "tel"].

Definition isascii (c : char) : bool := (c <? 128)%N.

(** [c.isascii() and c.isalpha()]. *)
Definition is_ascii_alpha (c : char) : bool :=
  ((65 <=? c) && (c <=? 90) || (97 <=? c) && (c <=? 122))%N.

(** [str.lower] on ASCII text (a scheme holds only [scheme_chars]). *)
Definition lower_char (c : char) : char :=
  if ((65 <=? c) && (c <=? 90))%N then (c + 32)%N else c.
Definition lower (s : str) : str := lower_char <$> s.

Record SplitResult := {
  sr_scheme : str; sr_netloc : str; sr_path : str;
  sr_query : str; sr_fragment : str
}.

Record ParseResult := {
  scheme : str; netloc : str; path : str;
  params : str; query : str; fragment : str
}.

(** [_splitnetloc(url, start)]: the earliest of [/], [?], [#] from [start]
    on ends the network location. *)
Definition splitnetloc (url : str) (start : nat) : str * str :=
  let delim :=
    fold_left
      (fun delim c =>
         match find c (drop start url) with
         | Some w => Nat.min delim (start + w)
         | None => delim
         end)
      (py "/?#") (length url) in
  (take (delim - start) (drop start url), drop delim url).

(** [url.split(sep, 1)] when [sep in url]. *)
Definition split_once (sep : char) (url : str) : option (str * str) :=
  i ← find sep url; Some (take i url, drop (S i) url).

(** [s.rfind(c)]. *)
Definition rfind (c : char) (s : str) : option nat :=
  j ← find c (reverse s); Some (length s - 1 - j).

(** [_splitparams(url)]; it is called only when [';' in url].  Python's
    [url[:-1]] and [url[0:]] are written out for a failed second search. *)
Definition splitparams (url : str) : str * str :=
  let semi := chr ";" in
  match rfind (chr "/") url with
  | Some r =>
      match find semi (drop r url) with
      | Some k => (take (r + k) url, drop (S (r + k)) url)
      | None => (url, [])
      end
  | None =>
      match find semi url with
      | Some i => (take i url, drop (S i) url)
      | None => (removelast url, url)
      end
  end.

Class UrlChecks := {
  check_bracketed_netloc : str -> bool;
  checknetloc_nfkc : str -> bool
}.

(** The steps of [urlsplit], in the order of its body. *)

(** Leading C0 control characters and spaces are stripped, then tabs and
    line breaks are removed everywhere. *)
Definition clean_url (url : str) : str :=
  let url := lstrip C0_CONTROL_OR_SPACE url in
  fold_left (fun u b => replace b [] u) UNSAFE_URL_BYTES_TO_REMOVE url.

(** [i = url.find(':')]; for [i > 0], an ASCII letter first and only
    [scheme_chars] before the colon, the scheme is split off. *)
Definition split_scheme (url : str) : str * str :=
  match find (chr ":") url with
  | Some (S i') =>
      let i := S i' in
      if match url with c :: _ => is_ascii_alpha c | [] => false end
         && forallb (fun c => char_in c scheme_chars) (take i url)
      then (lower (take i url), drop (S i) url)
      else ([], url)
  | _ => ([], url)
  end.

Section Validators.

Context `{!UrlChecks}.

(** [if url[:2] == '//']: the network location is split off and its
    brackets are checked. *)
Definition split_authority (url : str) : result (str * str) :=
  if bool_decide (take 2 url = py "//") then
    let '(netloc, url) := splitnetloc url 2 in
    let lb := char_in (chr "[") netloc in
    let rb := char_in (chr "]") netloc in
    if lb && negb rb || rb && negb lb then inl ValueError
    else if lb && rb && check_bracketed_netloc netloc then inl ValueError
    else inr (netloc, url)
  else inr ([], url).

(** The fragment is split off at the first [#], then the query at the
    first [?]: path, query, fragment. *)
Definition split_fragment_query (url : str) : str * str * str :=
  let '(url, fragment) :=
    match split_once (chr "#") url with
    | Some (u, f) => (u, f)
    | None => (url, [])
    end in
  let '(url, query) :=
    match split_once (chr "?") url with
    | Some (u, q) => (u, q)
    | None => (url, [])
    end in
  (url, query, fragment).

Definition urlsplit (url : str) : result SplitResult :=
  let url := clean_url url in
  let '(scheme, url) := split_scheme url in
  match split_authority url with
  | inl e => inl e
  | inr (netloc, url) =>
      let '(url, query, fragment) := split_fragment_query url in
      (* [_checknetloc(netloc)] *)
      if truthy netloc && negb (forallb isascii netloc) && checknetloc_nfkc netloc
      then inl ValueError
      else inr {| sr_scheme := scheme; sr_netloc := netloc; sr_path := url;
                  sr_query := query; sr_fragment := fragment |}
  end.

Definition urlparse (url : str) : result ParseResult :=
  match urlsplit url with
  | inl e => inl e
  | inr sr =>
      let '(url, params) :=
        if bool_decide (sr_scheme sr ∈ uses_params) && char_in (chr ";") (sr_path sr)
        then splitparams (sr_path sr)
        else (sr_path sr, []) in
      inr {| scheme := sr_scheme sr; netloc := sr_netloc sr; path := url;
             params := params; query := sr_query sr; fragment := sr_fragment sr |}
  end.

End Validators.
End UrlParse.

(** ** The standard library's [html.escape] (with [quote=True]) *)

Definition html_escape (s : str) : str :=
  let s := replace (chr "&") (py "&amp;") s in
  let s := replace (chr "<") (py "&lt;") s in
  let s := replace (chr ">") (py "&gt;") s in
  let s := replace dquote (py "&quot;") s in
  let s := replace squote (py "&#x27;") s in
  s.

(** ** [script.py]: the pure helpers of [PLPMigrationScript] *)

(** [clean_field_name]: the argument is [None] for the [restkey] of a
    [csv.DictReader] row.  [validate_results.py],
    [analyze_migration_coverage.py], [show_updated_collections.py] and
    [show_collections_urls.py] repeat the same body. *)
Definition clean_field_name (field_name : option str) : str :=
  match field_name with
  | None => []
  | Some name =>
      if negb (truthy name) then []
      else strip (N.eqb squote) (strip (N.eqb dquote) (strip isspace (replace BOM [] name)))
  end.

(** [re.sub(r'\.html$', '', handle)].  In Python's [re] the anchor [$]
    matches at the end of the string and also just before a newline that
    ends the string, so at most one occurrence of [.html] is removed. *)
Definition re_sub_html (handle : str) : str :=
  let ext := py ".html" in
  if endswith ext handle then take (length handle - length ext) handle
  else if endswith (ext ++ [newline]) handle
       then take (length handle - length ext - 1) handle ++ [newline]
       else handle.

(** [extract_handle_from_url]; [validate_results.py] and
    [analyze_migration_coverage.py] repeat the same body.  Any exception of
    the [try] block is logged and turned into [None]. *)
Section ExtractHandle.

Context `{!UrlParse.UrlChecks}.

Definition extract_handle_from_url (url : str) : option str :=
  if negb (truthy url) then None
  else
    match UrlParse.urlparse url with
    | inl _ => None
    | inr parsed =>
        let path := strip (N.eqb (chr "/")) (UrlParse.path parsed) in
        let segments := filter (fun seg => truthy seg = true) (split (chr "/") path) in
        if negb (truthy segments) then None
        else
          match last segments with
          | Some handle => Some (re_sub_html handle)
          | None => None
          end
    end.

End ExtractHandle.

(** [create_html_content]: the parts are collected in a list and joined. *)
Definition create_html_content (title subheading description content_under_listing : str) : str :=
  let html_parts := [py "<div class=" ++ [dquote] ++ py "collection-description" ++ [dquote] ++ py ">"] in
  let html_parts :=
    if truthy title
    then html_parts ++ [py "<h1>" ++ html_escape title ++ py "</h1>"]
    else html_parts in
  let html_parts :=
    if truthy subheading
    then html_parts ++ [py "<h2>" ++ html_escape subheading ++ py "</h2>"]
    else html_parts in
  let html_parts :=
    if truthy description
    then html_parts ++ [py "<p>" ++ html_escape description ++ py "</p>"]
    else html_parts in
  let html_parts :=
    if truthy content_under_listing
    then html_parts ++ [py "<div class=" ++ [dquote] ++ py "content-under-listing" ++ [dquote] ++ py ">"
                        ++ html_escape content_under_listing ++ py "</div>"]
    else html_parts in
  let html_parts := html_parts ++ [py "</div>"] in
  concat html_parts.

(** The cleaning loop shared by every loader:
[[
    cleaned_row = {}
    for key, value in row.items():
        clean_key = self.clean_field_name(key)
        cleaned_row[clean_key] = value.strip() if value else ""
]] *)
Definition cleaned_row (r : Csv.raw_row) : result row :=
  rfold (fun cleaned kv =>
           rbind (clean_value kv.2)
                 (fun v => inr (PyDict.set (clean_field_name kv.1) v cleaned)))
        [] (PyDict.items r).

(** ** State and exceptions

    A method is a function from the state of its object to an outcome (a
    value or a raised exception) and the state at that point. *)

Section Monad.

Context {S : Type}.

Definition M (A : Type) : Type := S -> result A * S.

Definition ret {A} (a : A) : M A := fun s => (inr a, s).
Definition raise {A} (e : exn) : M A := fun s => (inl e, s).
Definition bind {A B} (m : M A) (k : A -> M B) : M B :=
  fun s => match m s with
           | (inr a, s') => k a s'
           | (inl e, s') => (inl e, s')
           end.
Definition gets {A} (f : S -> A) : M A := fun s => (inr (f s), s).
Definition modify (f : S -> S) : M unit := fun s => (inr tt, f s).
Definition lift {A} (r : result A) : M A := fun s => (r, s).

(** [try: m except Exception as e: h e]. *)
Definition try_except {A} (m : M A) (h : exn -> M A) : M A :=
  fun s => match m s with
           | (inl e, s') => h e s'
           | (inr a, s') => (inr a, s')
           end.

(** [for x in l: acc = body acc x]. *)
Fixpoint foldM {A B} (body : B -> A -> M B) (acc : B) (l : list A) : M B :=
  match l with
  | [] => ret acc
  | x :: l' => bind (body acc x) (fun acc' => foldM body acc' l')
  end.

Definition when (b : bool) (m : M unit) : M unit := if b then m else ret tt.

End Monad.

Arguments M : clear implicits.

Notation "x <- m ;; k" := (bind m (fun x => k))
  (at level 20, m at level 99, k at level 200, only parsing).
Notation "m ;; k" := (bind m (fun _ => k))
  (at level 100, k at level 200, only parsing, right associativity).

(** [for row in reader: acc = body acc row]; the reader raises its fault
    once its rows are used up. *)
Definition for_rows {S B} (f : Csv.source) (body : B -> Csv.raw_row -> M S B) (acc : B) : M S B :=
  acc <- foldM body acc (Csv.rows f) ;;
  match Csv.fault f with
  | Some e => raise e
  | None => ret acc
  end.

(** ** [script.py]: [PLPMigrationScript] *)

Module Script.

(** The value stored in [content_map] for a handle. *)
Record content := {
  title : str;
  subheading : str;
  description : str;
  content_under_listing : str
}.

Record stats_t := {
  plp_entries_loaded : nat;
  shopify_categories_loaded : nat;
  categories_updated : nat;
  no_match_found : nat
}.

(** Category rows are dictionaries that the merger updates in place; they
    live in a store and the lists of the object hold their addresses. *)
Abbreviation loc := nat.

Record state := {
  store : list row;
  plp_content : list row;
  shopify_categories : list loc;
  updated_categories : list loc;
  content_map : gmap str content;
  stats : stats_t;
  (** the output file: [None] until it is opened for writing, then the
      records written so far *)
  output : option (list (list str))
}.

(** [__init__] *)
Definition init : state := {|
  store := [];
  plp_content := [];
  shopify_categories := [];
  updated_categories := [];
  content_map := ∅;
  stats := {| plp_entries_loaded := 0; shopify_categories_loaded := 0;
              categories_updated := 0; no_match_found := 0 |};
  output := None
|}.

Definition with_store (f : list row -> list row) (s : state) : state :=
  {| store := f (store s); plp_content := plp_content s;
     shopify_categories := shopify_categories s;
     updated_categories := updated_categories s;
     content_map := content_map s; stats := stats s; output := output s |}.
Definition with_plp_content (v : list row) (s : state) : state :=
  {| store := store s; plp_content := v;
     shopify_categories := shopify_categories s;
     updated_categories := updated_categories s;
     content_map := content_map s; stats := stats s; output := output s |}.
Definition with_shopify_categories (v : list loc) (s : state) : state :=
  {| store := store s; plp_content := plp_content s;
     shopify_categories := v;
     updated_categories := updated_categories s;
     content_map := content_map s; stats := stats s; output := output s |}.
Definition with_updated_categories (v : list loc) (s : state) : state :=
  {| store := store s; plp_content := plp_content s;
     shopify_categories := shopify_categories s;
     updated_categories := v;
     content_map := content_map s; stats := stats s; output := output s |}.
Definition with_content_map (f : gmap str content -> gmap str content) (s : state) : state :=
  {| store := store s; plp_content := plp_content s;
     shopify_categories := shopify_categories s;
     updated_categories := updated_categories s;
     content_map := f (content_map s); stats := stats s; output := output s |}.
Definition with_stats (f : stats_t -> stats_t) (s : state) : state :=
  {| store := store s; plp_content := plp_content s;
     shopify_categories := shopify_categories s;
     updated_categories := updated_categories s;
     content_map := content_map s; stats := f (stats s); output := output s |}.
Definition with_output (f : option (list (list str)) -> option (list (list str))) (s : state) : state :=
  {| store := store s; plp_content := plp_content s;
     shopify_categories := shopify_categories s;
     updated_categories := updated_categories s;
     content_map := content_map s; stats := stats s; output := f (output s) |}.

(** A new dictionary object holding [d]. *)
Definition alloc (d : row) : M state loc :=
  fun s => (inr (length (store s)), with_store (fun h => h ++ [d]) s).

(** The dictionary at an address. *)
Definition deref (l : loc) : M state row :=
  gets (fun s => default [] (store s !! l)).

(** [category[k] = v] on the dictionary at address [l]. *)
Definition setitem (l : loc) (k v : str) : M state unit :=
  modify (with_store (fun h => <[l := PyDict.set k v (default [] (h !! l))]> h)).

Definition write_record (r : list str) : M state unit :=
  modify (with_output (fun o => Some (default [] o ++ [r]))).

Definition Handle : str := py "Handle".
Definition Title : str := py "Title".
Definition Body_HTML : str := py "Body HTML".
Definition Metafield_subheading : str :=
  py "Metafield: custom.collection_subheading [single_line_text_field]".
Definition URL : str := py "URL".

(** [[self.clean_field_name(field) for field in reader.fieldnames]]:
    iterating [None] (a file without records) raises [TypeError]. *)
Definition cleaned_fieldnames (f : Csv.source) : M state (list str) :=
  names <- lift (Csv.fieldnames f) ;;
  match names with
  | Some ns => ret ((fun field => clean_field_name (Some field)) <$> ns)
  | None => raise TypeError
  end.

Section Methods.

Context `{!UrlParse.UrlChecks}.

(** [load_plp_content], reading [self.plp_content_file] as [f]. *)
Definition load_plp_content (f : Csv.source) : M state unit :=
  try_except
    (cleaned_fieldnames f;;
     plp_entries <-
       for_rows f
         (fun plp_entries r =>
            cleaned <- lift (cleaned_row r) ;;
            let plp_entries := plp_entries ++ [cleaned] in
            let url := PyDict.get_default URL [] cleaned in
            match extract_handle_from_url url with
            | Some handle =>
                when (truthy handle)
                  (modify (with_content_map
                     (insert handle
                        {| title := PyDict.get_default Title [] cleaned;
                           subheading := PyDict.get_default (py "Sub-heading") [] cleaned;
                           description := PyDict.get_default (py "Description") [] cleaned;
                           content_under_listing :=
                             PyDict.get_default (py "Content under product listing") [] cleaned |})));;
                ret plp_entries
            | None => ret plp_entries
            end)
         [] ;;
     modify (with_plp_content plp_entries);;
     modify (with_stats (fun st =>
       {| plp_entries_loaded := length plp_entries;
          shopify_categories_loaded := shopify_categories_loaded st;
          categories_updated := categories_updated st;
          no_match_found := no_match_found st |})))
    (fun e => raise e).

End Methods.

(** [load_shopify_categories], reading [self.shopify_categories_file] as
    [f]; every cleaned row is a new dictionary object. *)
Definition load_shopify_categories (f : Csv.source) : M state unit :=
  try_except
    (cleaned_fieldnames f;;
     categories <-
       for_rows f
         (fun categories r =>
            cleaned <- lift (cleaned_row r) ;;
            l <- alloc cleaned ;;
            ret (categories ++ [l]))
         [] ;;
     modify (with_shopify_categories categories);;
     modify (with_stats (fun st =>
       {| plp_entries_loaded := plp_entries_loaded st;
          shopify_categories_loaded := length categories;
          categories_updated := categories_updated st;
          no_match_found := no_match_found st |})))
    (fun e => raise e).

(** The body of the loop of [update_shopify_categories] for the category at
    address [category] and position [i]; the accumulator holds
    [updated_count] and [no_match_count]. *)
Definition update_category (counts : nat * nat) (ic : nat * loc) : M state (nat * nat) :=
  let '(updated_count, no_match_count) := counts in
  let '(i, category) := ic in
  if bool_decide (i = 0) then ret counts
  else
    d <- deref category ;;
    let handle := PyDict.get_default Handle [] d in
    cm <- gets content_map ;;
    match cm !! handle with
    | Some content =>
        when (truthy (title content))
          (setitem category Title (title content));;
        when (truthy (description content))
          (setitem category Body_HTML
             (create_html_content (title content) (subheading content)
                (description content) (content_under_listing content)));;
        when (truthy (subheading content))
          (setitem category Metafield_subheading (subheading content));;
        ret (updated_count + 1, no_match_count)
    | None => ret (updated_count, no_match_count + 1)
    end.

(** [update_shopify_categories] *)
Definition update_shopify_categories : M state unit :=
  cats <- gets shopify_categories ;;
  copies <-
    foldM (fun acc category =>
             d <- deref category ;;
             l <- alloc d ;;
             ret (acc ++ [l]))
          [] cats ;;
  modify (with_updated_categories copies);;
  updated <- gets updated_categories ;;
  counts <- foldM update_category (0, 0) (zip (seq 0 (length updated)) updated) ;;
  modify (with_stats (fun st =>
    {| plp_entries_loaded := plp_entries_loaded st;
       shopify_categories_loaded := shopify_categories_loaded st;
       categories_updated := counts.1;
       no_match_found := counts.2 |})).

(** [save_updated_categories]; [open_fault] is the exception, if any, that
    opening [self.output_file] for writing raises. *)
Definition save_updated_categories (open_fault : option exn) : M state unit :=
  try_except
    (updated <- gets updated_categories ;;
     match updated with
     | [] => ret tt
     | first :: _ =>
         d0 <- deref first ;;
         let fieldnames := PyDict.keys d0 in
         match open_fault with
         | Some e => raise e
         | None => modify (with_output (fun _ => Some []))
         end;;
         write_record fieldnames;;
         foldM (fun _ category =>
                  d <- deref category ;;
                  r <- lift (Csv.dict_to_list fieldnames d) ;;
                  write_record r)
               tt updated
     end)
    (fun e => raise e).

(** [print_statistics] only logs, but the match rate divides by
    [len(self.content_map)] whenever PLP entries were loaded. *)
Definition print_statistics : M state unit :=
  st <- gets stats;;
  cm <- gets content_map;;
  if (0 <? plp_entries_loaded st) && (size cm =? 0)
  then raise ZeroDivisionError
  else ret tt.

Section Run.

Context `{!UrlParse.UrlChecks}.

(** [run], reading the two input files as [plp_file] and
    [categories_file]. *)
Definition run (plp_file categories_file : Csv.source) (open_fault : option exn)
    : M state unit :=
  try_except
    (load_plp_content plp_file;;
     load_shopify_categories categories_file;;
     update_shopify_categories;;
     print_statistics;;
     save_updated_categories open_fault)
    (fun e => raise e).

End Run.

End Script.

(** [updated_html[:200] + "..." if len(updated_html) > 200 else updated_html] *)
Definition html_preview_of (updated_html : str) : str :=
  if 200 <? length updated_html then take 200 updated_html ++ py "..." else updated_html.

(** ** [validate_results.py]: [ValidationScript] *)

Module Validate.

Record change_info := {
  category_id : str;
  handle : str;
  original_title : str;
  updated_title : str;
  has_html_content : bool;
  has_subheading : bool;
  changes : list str;
  html_preview : str
}.

Record state := {
  original_categories : dict str row;
  updated_categories : dict str row;
  plp_content : dict str row;
  changes_list : list change_info;   (* [self.changes] *)
  content_map : gmap str row
}.

Definition with_content_map (f : gmap str row -> gmap str row) (s : state) : state :=
  {| original_categories := original_categories s;
     updated_categories := updated_categories s;
     plp_content := plp_content s; changes_list := changes_list s;
     content_map := f (content_map s) |}.
Definition with_changes (v : list change_info) (s : state) : state :=
  {| original_categories := original_categories s;
     updated_categories := updated_categories s;
     plp_content := plp_content s; changes_list := v;
     content_map := content_map s |}.

Definition ID : str := py "ID".

(** The separator between the two values of a change line, as the source
    file spells it: the code points U+201A, U+00DC, U+00ED. *)
Definition arrow : str := [0x201A; 0xDC; 0xED]%N.

Definition title_line (original_title updated_title : str) : str :=
  py "Title: '" ++ original_title ++ py "' " ++ arrow ++ py " '" ++ updated_title ++ py "'".
Definition body_line : str := py "Body HTML: Updated with new content".
Definition subheading_line (original_subheading updated_subheading : str) : str :=
  py "Subheading: '" ++ original_subheading ++ py "' " ++ arrow ++ py " '"
  ++ updated_subheading ++ py "'".

Section Methods.

Context `{!UrlParse.UrlChecks}.

(** [load_csv_file(filename, is_plp)], reading [filename] as [f]: any
    exception is logged and an empty dictionary returned. *)
Definition load_csv_file (f : Csv.source) (is_plp : bool) : M state (dict str row) :=
  try_except
    (if is_plp then
       for_rows f
         (fun data r =>
            cleaned <- lift (cleaned_row r) ;;
            let url := PyDict.get_default Script.URL [] cleaned in
            if truthy url then
              let data := PyDict.set url cleaned data in
              match extract_handle_from_url url with
              | Some handle =>
                  when (truthy handle) (modify (with_content_map (insert handle cleaned)));;
                  ret data
              | None => ret data
              end
            else ret data)
         []
     else
       for_rows f
         (fun data r =>
            cleaned <- lift (cleaned_row r) ;;
            let category_id := PyDict.get_default ID [] cleaned in
            ret (if truthy category_id then PyDict.set category_id cleaned data else data))
         [])
    (fun e => ret []).

End Methods.

(** The body of the loop of [find_changes] for one item of
    [self.updated_categories]; the accumulator is the local list [changes]
    ([updated_count] is its length throughout). *)
Definition find_changes_step (original : dict str row)
    (changes : list change_info) (item : str * row) : list change_info :=
  let '(category_id, updated_category) := item in
  match PyDict.get category_id original with
  | None => changes
  | Some original_category =>
      if negb (truthy original_category) then changes
      else
        let changes_found := [] in
        let original_title := PyDict.get_default Script.Title [] original_category in
        let updated_title := PyDict.get_default Script.Title [] updated_category in
        let changes_found :=
          if bool_decide (original_title ≠ updated_title) && truthy updated_title
          then changes_found ++ [title_line original_title updated_title]
          else changes_found in
        let original_html := PyDict.get_default Script.Body_HTML [] original_category in
        let updated_html := PyDict.get_default Script.Body_HTML [] updated_category in
        let changes_found :=
          if bool_decide (original_html ≠ updated_html) && truthy updated_html
          then changes_found ++ [body_line]
          else changes_found in
        let original_subheading :=
          PyDict.get_default Script.Metafield_subheading [] original_category in
        let updated_subheading :=
          PyDict.get_default Script.Metafield_subheading [] updated_category in
        let changes_found :=
          if bool_decide (original_subheading ≠ updated_subheading) && truthy updated_subheading
          then changes_found ++ [subheading_line original_subheading updated_subheading]
          else changes_found in
        if truthy changes_found then
          changes ++
          [{| category_id := category_id;
              handle := PyDict.get_default Script.Handle [] updated_category;
              original_title := original_title;
              updated_title := updated_title;
              has_html_content := truthy updated_html;
              has_subheading := truthy updated_subheading;
              changes := changes_found;
              html_preview := html_preview_of updated_html |}]
        else changes
  end.

(** [find_changes]: stores the change list in [self.changes] and returns
    [updated_count]. *)
Definition find_changes : M state nat :=
  updated <- gets updated_categories ;;
  original <- gets original_categories ;;
  let changes := fold_left (find_changes_step original) (PyDict.items updated) [] in
  modify (with_changes changes);;
  ret (length changes).

End Validate.

(** ** [analyze_migration_coverage.py]: [EnhancedMigrationAnalyzer] *)

Module Analyze.

(** [load_shopify_data(filename, data_dict)], reading [filename] as [f].
    The state is the dictionary object passed as [data_dict], which the
    loop fills in place; an exception is logged and raised again. *)
Definition load_shopify_data (f : Csv.source) : M (dict str row) unit :=
  try_except
    (for_rows f
       (fun _ r =>
          cleaned <- lift (cleaned_row r) ;;
          let handle := PyDict.get_default Script.Handle [] cleaned in
          when (truthy handle && bool_decide (handle ≠ Script.Handle))
            (modify (PyDict.set handle cleaned)))
       tt)
    (fun e => raise e).

End Analyze.

(** ** [show_updated_collections.py]: [UpdatedCollectionsURLGenerator] *)

Module ShowUpdated.

Record collection := {
  handle : str;
  title : str;
  url : str;
  changes : list str
}.

(** The separator of a change line here is U+2192. *)
Definition arrow : str := [0x2192]%N.

Definition title_line (original_title updated_title : str) : str :=
  py "Title: '" ++ original_title ++ py "' " ++ arrow ++ py " '" ++ updated_title ++ py "'".
Definition body_line : str := py "Body HTML: Updated with new content".
Definition subheading_line (original_subheading updated_subheading : str) : str :=
  py "Subheading: '" ++ original_subheading ++ py "' " ++ arrow ++ py " '"
  ++ updated_subheading ++ py "'".

(** The state of the object is its list [self.updated_collections]
    ([self.base_url] is fixed at construction).

    [load_csv_data(filename)], reading [filename] as [f]: any exception is
    logged and an empty dictionary returned. *)
Definition load_csv_data (f : Csv.source) : M (list collection) (dict str row) :=
  try_except
    (for_rows f
       (fun data r =>
          cleaned <- lift (cleaned_row r) ;;
          let handle := PyDict.get_default Script.Handle [] cleaned in
          ret (if truthy handle && bool_decide (handle ≠ Script.Handle)
               then PyDict.set handle cleaned data else data))
       [])
    (fun e => ret []).

(** The comparison loop of [find_updated_collections] for one item of
    [updated_data]. *)
Definition find_updated_step (base_url : str) (original_data : dict str row)
    (updated_collections : list collection) (item : str * row) : list collection :=
  let '(handle, updated_row) := item in
  match PyDict.get handle original_data with
  | None => updated_collections
  | Some original_row =>
      if negb (truthy original_row) then updated_collections
      else
        let updated_fields := [] in
        let original_title := PyDict.get_default Script.Title [] original_row in
        let updated_title := PyDict.get_default Script.Title [] updated_row in
        let updated_fields :=
          if bool_decide (original_title ≠ updated_title) && truthy updated_title
          then updated_fields ++ [title_line original_title updated_title]
          else updated_fields in
        let original_html := PyDict.get_default Script.Body_HTML [] original_row in
        let updated_html := PyDict.get_default Script.Body_HTML [] updated_row in
        let updated_fields :=
          if bool_decide (original_html ≠ updated_html) && truthy updated_html
          then updated_fields ++ [body_line]
          else updated_fields in
        let original_subheading :=
          PyDict.get_default Script.Metafield_subheading [] original_row in
        let updated_subheading :=
          PyDict.get_default Script.Metafield_subheading [] updated_row in
        let updated_fields :=
          if bool_decide (original_subheading ≠ updated_subheading) && truthy updated_subheading
          then updated_fields ++ [subheading_line original_subheading updated_subheading]
          else updated_fields in
        if truthy updated_fields then
          updated_collections ++
          [{| handle := handle;
              title := if truthy updated_title then updated_title else handle;
              url := base_url ++ py "/collections/" ++ handle;
              changes := updated_fields |}]
        else updated_collections
  end.

(** The comparison of [find_updated_collections] on the two loaded
    dictionaries; the method stores the list in [self.updated_collections]. *)
Definition compare_collections (base_url : str) (original_data updated_data : dict str row)
    : list collection :=
  fold_left (find_updated_step base_url original_data) (PyDict.items updated_data) [].

(** [find_updated_collections]: both files are loaded, then compared. *)
Definition find_updated_collections (base_url : str) (original_csv updated_csv : Csv.source)
    : M (list collection) unit :=
  original_data <- load_csv_data original_csv ;;
  updated_data <- load_csv_data updated_csv ;;
  modify (fun _ => compare_collections base_url original_data updated_data).

End ShowUpdated.

(** * Vocabulary of the statements *)

(** Every character of [s] is in the set [p]. *)
Definition holds_all (p : char -> bool) (s : str) : Prop :=
  Forall (fun c => p c = true) s.

(** [s] neither starts nor ends with a character of the set [p]. *)
Definition clear_ends (p : char -> bool) (s : str) : Prop :=
  (forall c, head s = Some c -> p c = false) /\
  (forall c, last s = Some c -> p c = false).

(** Field-name cleaning as the specification words it: the byte-order
    marks go, the name is trimmed, and one layer of surrounding single or
    double quotes is taken off. *)
Definition strip_one_quote_layer (s : str) : str :=
  match s with
  | q :: rest =>
      if ((q =? dquote)%N || (q =? squote)%N) && bool_decide (last rest = Some q)
      then removelast rest
      else s
  | [] => []
  end.

Definition clean_field_name_one_layer (name : str) : str :=
  strip_one_quote_layer (strip isspace (replace BOM [] name)).

(** The entity [html.escape] writes for a special character. *)
Definition escape_char (c : char) : str :=
  if (c =? chr "&")%N then py "&amp;"
  else if (c =? chr "<")%N then py "&lt;"
  else if (c =? chr ">")%N then py "&gt;"
  else if (c =? dquote)%N then py "&quot;"
  else if (c =? squote)%N then py "&#x27;"
  else [c].

(** An element of the body template: nothing for an empty value, else the
    escaped value between its tags. *)
Definition html_element (open_tag close_tag value : str) : str :=
  match value with
  | [] => []
  | _ :: _ => open_tag ++ html_escape value ++ close_tag
  end.

(** A character that cannot open or close markup or an attribute value. *)
Definition markup_free (x : char) : Prop :=
  x <> chr "<" /\ x <> chr ">" /\ x <> dquote /\ x <> squote.

(** What one matching content record does to a category dictionary, and
    what the merger does to the dictionary at position [i]. *)
Definition merge_content (c : Script.content) (d : row) : row :=
  let d := if truthy (Script.title c) then PyDict.set Script.Title (Script.title c) d else d in
  let d :=
    if truthy (Script.description c)
    then PyDict.set Script.Body_HTML
           (create_html_content (Script.title c) (Script.subheading c)
              (Script.description c) (Script.content_under_listing c)) d
    else d in
  if truthy (Script.subheading c)
  then PyDict.set Script.Metafield_subheading (Script.subheading c) d
  else d.

Definition merged_row (cm : gmap str Script.content) (i : nat) (d : row) : row :=
  if bool_decide (i = 0) then d
  else match cm !! PyDict.get_default Script.Handle [] d with
       | Some c => merge_content c d
       | None => d
       end.

(** Every address held in [shopify_categories] is the address of a
    dictionary of the store. *)
Definition categories_allocated (s : Script.state) : Prop :=
  Forall (fun l => l < length (Script.store s)) (Script.shopify_categories s).

(** A small instance of the merger: two category rows with the handle
    [tacori], both loaded, and one content record for that handle with a
    title and nothing else. *)
Definition tacori_row (id : str) : row :=
  [(py "ID", id); (Script.Handle, py "tacori"); (Script.Title, py "Tacori");
   (Script.Body_HTML, py "<p>old</p>")].

Definition tacori_content : Script.content :=
  {| Script.title := py "Tacori Rings"; Script.subheading := [];
     Script.description := []; Script.content_under_listing := [] |}.

Definition tacori_state : Script.state :=
  {| Script.store := [tacori_row (py "1"); tacori_row (py "2")];
     Script.plp_content := [];
     Script.shopify_categories := [0; 1];
     Script.updated_categories := [];
     Script.content_map := {[ py "tacori" := tacori_content ]};
     Script.stats := Script.stats Script.init;
     Script.output := None |}.

(** An instance of the library checks that rejects nothing, for closed
    examples. *)
Definition lenient_checks : UrlParse.UrlChecks :=
  {| UrlParse.check_bracketed_netloc := fun _ => false;
     UrlParse.checknetloc_nfkc := fun _ => false |}.

(** The rows of [rs] are cleaned without an exception, to [cleaned]. *)
Definition cleaned_to (rs : list Csv.raw_row) (cleaned : list row) : Prop :=
  Forall2 (fun r c => cleaned_row r = inr c) rs cleaned.

(** The last row of [cleaned] whose key column [key] holds [k], among the
    rows that the predicate [kept] on key values lets in. *)
Definition last_kept (key : str) (kept : str -> bool) (k : str) (cleaned : list row)
    : option row :=
  last (filter (fun c => PyDict.get_default key [] c = k /\ kept k = true) cleaned).

(** The two skipping rules of the keyed loaders. *)
Definition nonempty_key (k : str) : bool := truthy k.
Definition nonempty_not_label (label : str) (k : str) : bool :=
  truthy k && bool_decide (k <> label).

(** An empty [ValidationScript]. *)
Definition validation_init : Validate.state :=
  {| Validate.original_categories := []; Validate.updated_categories := [];
     Validate.plp_content := []; Validate.changes_list := [];
     Validate.content_map := ∅ |}.

(** A file that cannot be opened. *)
Definition unreadable : Csv.source := {| Csv.records := []; Csv.fault := Some OSError |}.

(** An export in which the header record occurs a second time among the
    data, one record has no key, and one key occurs twice. *)
Definition export_with_label_row : Csv.source :=
  {| Csv.records :=
       [[py "ID"; py "Handle"; py "Title"];
        [py "1"; py "tacori"; py "Tacori"];
        [py "ID"; py "Handle"; py "Title"];
        [py ""; py ""; py "No key"];
        [py "1"; py "tacori"; py "Tacori again"]];
     Csv.fault := None |}.

Definition export_with_label_row_cleaned : list row :=
  [[(py "ID", py "1"); (py "Handle", py "tacori"); (py "Title", py "Tacori")];
   [(py "ID", py "ID"); (py "Handle", py "Handle"); (py "Title", py "Title")];
   [(py "ID", py ""); (py "Handle", py ""); (py "Title", py "No key")];
   [(py "ID", py "1"); (py "Handle", py "tacori"); (py "Title", py "Tacori again")]].

(** The attribute [attr] counts as changed from the record [o] to the
    record [u]: the value after differs from the value before and is not
    empty (a missing attribute reads as the empty string). *)
Definition changed (attr : str) (o u : row) : Prop :=
  PyDict.get_default attr [] o <> PyDict.get_default attr [] u
  /\ PyDict.get_default attr [] u <> [].


















(** The cleaned row of a data record [r] that is not longer than the
    header [names]. *)
Definition cleaned_record (names : list str) (r : list str) : row :=
  ((fun kv => (kv.1, strip isspace kv.2)) <$> zip names r)
  ++ ((fun k => (k, [])) <$> drop (length r) names).

(** [seg] is the last non-empty segment of [path]: it is not empty, holds
    no slash, only slashes follow it, and it starts the path or follows a
    slash. *)
Definition last_segment (path seg : str) : Prop :=
  seg <> [] /\ (chr "/" ∉ seg) /\
  exists pre post,
    path = pre ++ seg ++ post
    /\ Forall (fun c => c = chr "/") post
    /\ (pre = [] \/ last pre = Some (chr "/")).

(** [path] has no non-empty segment: it holds slashes only. *)
Definition no_segment (path : str) : Prop := Forall (fun c => c = chr "/") path.

(** [handle] is [seg] with a trailing [.html] removed, if it has one. *)
Definition without_html_suffix (seg handle : str) : Prop :=
  seg = handle ++ py ".html"
  \/ (handle = seg /\ forall s, seg <> s ++ py ".html").

(** The path component of a URL, when it can be parsed. *)
Definition path_of `{!UrlParse.UrlChecks} (url : str) : option str :=
  match UrlParse.urlparse url with
  | inl _ => None
  | inr parsed => Some (UrlParse.path parsed)
  end.

(** The non-empty segments of a path once its slashes are stripped. *)
Definition kept_segments (path : str) : list str :=
  filter (fun seg => truthy seg = true)
         (split (chr "/") (strip (N.eqb (chr "/")) path)).

(** The computation [m] leaves the part [proj] of the state as it was,
    whether it returns or raises. *)
Definition frames {S T A} (proj : S -> T) (m : M S A) : Prop :=
  forall s, proj (m s).2 = proj s.

(** * Further vocabulary *)

(** The characters [html.escape] replaces. *)
Definition html_special : list char := [chr "&"; chr "<"; chr ">"; dquote; squote].

(** Characters that never occur in a handle: the separators of a URL and
    the characters [urlsplit] removes. *)
Definition never_in_handle : list char := py "/?#" ++ [9; 13; 10]%N.

(** The value of a [DictReader] row that the cleaning loop cannot strip:
    a non-empty list of surplus cells. *)
Definition surplus (v : Csv.value) : Prop :=
  match v with Csv.VList (_ :: _) => True | _ => False end.

(** A file one of whose data records has three cells under a header of two. *)
Definition export_with_long_record : Csv.source :=
  {| Csv.records := [[py "ID"; py "Handle"];
                     [py "1"; py "tacori"];
                     [py "2"; py "verragio"; py "Verragio"];
                     [py "3"; py "gucci"]];
     Csv.fault := None |}.

(** What [load_plp_content] stores for a cleaned row of the source file,
    and the handle it stores it under. *)
Definition content_of (c : row) : Script.content :=
  {| Script.title := PyDict.get_default Script.Title [] c;
     Script.subheading := PyDict.get_default (py "Sub-heading") [] c;
     Script.description := PyDict.get_default (py "Description") [] c;
     Script.content_under_listing :=
       PyDict.get_default (py "Content under product listing") [] c |}.

Definition handle_of `{!UrlParse.UrlChecks} (c : row) : option str :=
  extract_handle_from_url (PyDict.get_default Script.URL [] c).

(** The last row of [cleaned] whose URL gives the handle [h]. *)
Definition last_with_handle `{!UrlParse.UrlChecks} (h : str) (cleaned : list row)
    : option row :=
  last (filter (fun c => handle_of c = Some h) cleaned).

(** The content map after the rows [cleaned], starting from [cm]. *)
Definition add_content `{!UrlParse.UrlChecks} (cm : gmap str Script.content) (c : row)
    : gmap str Script.content :=
  match handle_of c with
  | Some h => if truthy h then <[h := content_of c]> cm else cm
  | None => cm
  end.

Definition content_map_of `{!UrlParse.UrlChecks} (cleaned : list row)
    (cm : gmap str Script.content) : gmap str Script.content :=
  fold_left add_content cleaned cm.

(** A source file of three rows: two for the handle [tacori], one whose
    URL has no path. *)
Definition plp_small : Csv.source :=
  {| Csv.records :=
       [[BOM :: py "URL"; py "Title"; py "Description"];
        [py "https://x.com/rings/tacori.html"; py "Tacori"; py "old"];
        [py "https://x.com"; py "Home"; py "none"];
        [py "https://x.com/tacori/"; py "Tacori Rings"; py ""]];
     Csv.fault := None |}.

Definition plp_small_cleaned : list row :=
  [[(py "URL", py "https://x.com/rings/tacori.html"); (py "Title", py "Tacori");
    (py "Description", py "old")];
   [(py "URL", py "https://x.com"); (py "Title", py "Home"); (py "Description", py "none")];
   [(py "URL", py "https://x.com/tacori/"); (py "Title", py "Tacori Rings");
    (py "Description", py "")]].

(** The handle of the category row [d] has an entry in the content map. *)
Definition matched (cm : gmap str Script.content) (d : row) : bool :=
  bool_decide (is_Some (cm !! PyDict.get_default Script.Handle [] d)).

(** The two counters of the merger after the row [d] at position [i]. *)
Definition count_step (cm : gmap str Script.content) (counts : nat * nat)
    (id : nat * row) : nat * nat :=
  if bool_decide (id.1 = 0) then counts
  else if matched cm id.2 then (counts.1 + 1, counts.2) else (counts.1, counts.2 + 1).

(** The columns a content record writes to. *)
Definition written_columns (c : Script.content) : list str :=
  (if truthy (Script.title c) then [Script.Title] else [])
  ++ (if truthy (Script.description c) then [Script.Body_HTML] else [])
  ++ (if truthy (Script.subheading c) then [Script.Metafield_subheading] else []).

(** The rows of the loaded categories, in order. *)
Definition loaded_rows (s : Script.state) : list row :=
  (fun l => default [] (Script.store s !! l)) <$> Script.shopify_categories s.

(** A content record with every field set, and a state with three loaded
    categories, the last two for the handle [tacori]. *)
Definition full_content : Script.content :=
  {| Script.title := py "Tacori Rings"; Script.subheading := py "Since 1969";
     Script.description := py "Rings & more"; Script.content_under_listing := [] |}.

Definition three_categories : Script.state :=
  {| Script.store := [tacori_row (py "1"); tacori_row (py "2");
                      [(py "ID", py "3"); (Script.Handle, py "gucci")]];
     Script.plp_content := [];
     Script.shopify_categories := [0; 1; 2];
     Script.updated_categories := [];
     Script.content_map := {[ py "tacori" := full_content ]};
     Script.stats := Script.stats Script.init;
     Script.output := None |}.

(** The record [DictWriter] writes for the dictionary [d] under the column
    names [names], and whether it accepts [d]: every key is a column name. *)
Definition written_record (names : list str) (d : row) : list str :=
  (fun k => PyDict.get_default k [] d) <$> names.

Definition fits (names : list str) (d : row) : bool :=
  forallb (fun k => bool_decide (k ∈ names)) (PyDict.keys d).

(** A state after a merge that gave the second category a column the first
    does not have. *)
Definition uneven_categories : Script.state :=
  {| Script.store := [[(py "ID", py "1")];
                      [(py "ID", py "2"); (Script.Title, py "Tacori Rings")];
                      [(py "ID", py "3")]];
     Script.plp_content := [];
     Script.shopify_categories := [];
     Script.updated_categories := [0; 1; 2];
     Script.content_map := ∅;
     Script.stats := Script.stats Script.init;
     Script.output := None |}.

(** The category rows after the merge against the content map [cm]. *)
Definition merged_rows (cm : gmap str Script.content) (categories : list row) : list row :=
  imap (fun i d => merged_row cm i d) categories.

(** The URL of the row gives no handle, or the empty one. *)
Definition without_handle `{!UrlParse.UrlChecks} (c : row) : Prop :=
  match handle_of c with
  | Some (_ :: _) => False
  | _ => True
  end.

(** A source file whose only row has the URL of a bare domain, and a
    destination file with the three columns the merger writes to. *)
Definition plp_without_handles : Csv.source :=
  {| Csv.records := [[py "URL"; py "Title"]; [py "https://x.com"; py "Home"]];
     Csv.fault := None |}.

Definition export_with_columns : Csv.source :=
  {| Csv.records :=
       [[py "Handle"; py "Title"; py "Body HTML";
         py "Metafield: custom.collection_subheading [single_line_text_field]"];
        [py "gucci"; py "Gucci"; py ""; py ""];
        [py "tacori"; py "Tacori"; py "<p>old</p>"; py ""]];
     Csv.fault := None |}.

Definition export_with_columns_cleaned : list row :=
  [[(py "Handle", py "gucci"); (py "Title", py "Gucci"); (py "Body HTML", py "");
    (py "Metafield: custom.collection_subheading [single_line_text_field]", py "")];
   [(py "Handle", py "tacori"); (py "Title", py "Tacori"); (py "Body HTML", py "<p>old</p>");
    (py "Metafield: custom.collection_subheading [single_line_text_field]", py "")]].

(** * The other methods and scripts *)

(** A method of an object run on one of its attributes, or on the object
    while a file is kept beside it: the outcome is that of [m] on the part
    [get s], which is then put back. *)
Definition zoom {S T A} (get : S -> T) (set : T -> S -> S) (m : M T A) : M S A :=
  fun s => let '(r, t) := m (get s) in (r, set t s).

(** [sep.join(parts)] *)
Fixpoint join (sep : str) (parts : list str) : str :=
  match parts with
  | [] => []
  | [p] => p
  | p :: rest => p ++ sep ++ join sep rest
  end.

(** [[self.clean_field_name(field) for field in reader.fieldnames]] in an
    object of any class. *)
Definition cleaned_fieldnames_of {S} (f : Csv.source) : M S (list str) :=
  names <- lift (Csv.fieldnames f) ;;
  match names with
  | Some ns => ret ((fun field => clean_field_name (Some field)) <$> ns)
  | None => raise TypeError
  end.

(** ** [validate_results.py]: the remaining methods of [ValidationScript] *)

Module ValidateRun.

Import Validate.

Definition with_original_categories (v : dict str row) (s : state) : state :=
  {| original_categories := v;
     updated_categories := updated_categories s;
     plp_content := plp_content s; changes_list := changes_list s;
     content_map := content_map s |}.
Definition with_updated_categories (v : dict str row) (s : state) : state :=
  {| original_categories := original_categories s;
     updated_categories := v;
     plp_content := plp_content s; changes_list := changes_list s;
     content_map := content_map s |}.
Definition with_plp_content (v : dict str row) (s : state) : state :=
  {| original_categories := original_categories s;
     updated_categories := updated_categories s;
     plp_content := v; changes_list := changes_list s;
     content_map := content_map s |}.

(** [__init__] *)
Definition init : state :=
  {| original_categories := []; updated_categories := []; plp_content := [];
     changes_list := []; content_map := ∅ |}.

(** The object and the report file [validation_report.csv]: [None] until
    it is opened for writing, then the records written so far. *)
Record world := { obj : state; report : option (list (list str)) }.

Definition on_obj {A} (m : M state A) : M world A :=
  zoom obj (fun o w => {| obj := o; report := report w |}) m.

Definition write_report (r : list str) : M world unit :=
  modify (fun w => {| obj := obj w; report := Some (default [] (report w) ++ [r]) |}).

Definition report_fieldnames : list str :=
  [py "Category ID"; py "Handle"; py "Original Title"; py "Updated Title";
   py "Has HTML Content"; py "Has Subheading"; py "Changes"; py "HTML Preview"].

Definition yes_no (b : bool) : str := if b then py "Yes" else py "No".

(** The dictionary handed to [writer.writerow] for one change. *)
Definition report_row (change : change_info) : row :=
  [(py "Category ID", category_id change);
   (py "Handle", handle change);
   (py "Original Title", original_title change);
   (py "Updated Title", updated_title change);
   (py "Has HTML Content", yes_no (has_html_content change));
   (py "Has Subheading", yes_no (has_subheading change));
   (py "Changes", join (py "; ") (changes change));
   (py "HTML Preview", html_preview change)].

Section Methods.

Context `{!UrlParse.UrlChecks}.

(** [load_all_files] *)
Definition load_all_files (original_file updated_file plp_content_file : Csv.source)
    : M state unit :=
  original <- load_csv_file original_file false ;;
  modify (with_original_categories original);;
  updated <- load_csv_file updated_file false ;;
  modify (with_updated_categories updated);;
  plp <- load_csv_file plp_content_file true ;;
  modify (with_plp_content plp).

(** [print_validation_report] only prints; its match rate is guarded by
    [if self.content_map], so nothing is divided by zero.  A call of
    [print] raises when the standard output does not take its text (the
    headings hold symbols that only some encodings have): [print_fault] is
    the exception of the first call that fails, if one does. *)
Definition print_validation_report (print_fault : option exn) : M state unit :=
  match print_fault with
  | Some e => raise e
  | None => ret tt
  end.

(** [save_changes_report]; [open_fault] is the exception, if any, that
    opening the report file raises.  Any exception is logged and dropped. *)
Definition save_changes_report (open_fault : option exn) : M world unit :=
  changes <- gets (fun w => changes_list (obj w)) ;;
  if negb (truthy changes) then ret tt
  else
    try_except
      (match open_fault with
       | Some e => raise e
       | None => modify (fun w => {| obj := obj w; report := Some [] |})
       end;;
       write_report report_fieldnames;;
       foldM (fun _ change =>
                r <- lift (Csv.dict_to_list report_fieldnames (report_row change)) ;;
                write_report r)
             tt changes)
      (fun e => ret tt).

(** [run]: an exception is logged and raised again. *)
Definition run (original_file updated_file plp_content_file : Csv.source)
    (print_fault open_fault : option exn) : M world unit :=
  try_except
    (on_obj (load_all_files original_file updated_file plp_content_file);;
     updated_count <- on_obj find_changes ;;
     on_obj (print_validation_report print_fault);;
     changes <- gets (fun w => changes_list (obj w)) ;;
     if truthy changes then save_changes_report open_fault else ret tt)
    (fun e => raise e).

End Methods.

End ValidateRun.

(** ** [analyze_migration_coverage.py]: the remaining methods of
    [EnhancedMigrationAnalyzer] *)

Module AnalyzeCoverage.

(** The value stored in [plp_content_map] for a handle. *)
Record plp_entry := {
  plp_url : str;
  plp_title : str;
  plp_subheading : str;
  plp_description : str;
  plp_content_under_listing : str
}.

(** An entry of [updated_collections] or of [not_updated_collections]; the
    latter has no key ['changes'].  [plp_content] is [None] for the empty
    dictionary that [.get(handle, {})] gives a handle without content. *)
Record collection_info := {
  handle : str;
  title : str;
  url : str;
  changes : option (list str);
  has_plp_content : bool;
  plp_content : option plp_entry
}.

Record missing_info := {
  missing_handle : str;
  missing_plp_content : plp_entry
}.

Record state := {
  base_url : str;
  plp_content_map : dict str plp_entry;
  original_shopify_data : dict str row;
  updated_shopify_data : dict str row;
  updated_collections : list collection_info;
  not_updated_collections : list collection_info;
  missing_plp_content_list : list missing_info   (* [self.missing_plp_content] *)
}.

(** [__init__] *)
Definition init (base_url : str) : state :=
  {| base_url := rstrip (N.eqb (chr "/")) base_url;
     plp_content_map := [];
     original_shopify_data := [];
     updated_shopify_data := [];
     updated_collections := [];
     not_updated_collections := [];
     missing_plp_content_list := [] |}.

Definition with_plp_content_map (f : dict str plp_entry -> dict str plp_entry) (s : state)
    : state :=
  {| base_url := base_url s; plp_content_map := f (plp_content_map s);
     original_shopify_data := original_shopify_data s;
     updated_shopify_data := updated_shopify_data s;
     updated_collections := updated_collections s;
     not_updated_collections := not_updated_collections s;
     missing_plp_content_list := missing_plp_content_list s |}.
Definition with_original_shopify_data (v : dict str row) (s : state) : state :=
  {| base_url := base_url s; plp_content_map := plp_content_map s;
     original_shopify_data := v;
     updated_shopify_data := updated_shopify_data s;
     updated_collections := updated_collections s;
     not_updated_collections := not_updated_collections s;
     missing_plp_content_list := missing_plp_content_list s |}.
Definition with_updated_shopify_data (v : dict str row) (s : state) : state :=
  {| base_url := base_url s; plp_content_map := plp_content_map s;
     original_shopify_data := original_shopify_data s;
     updated_shopify_data := v;
     updated_collections := updated_collections s;
     not_updated_collections := not_updated_collections s;
     missing_plp_content_list := missing_plp_content_list s |}.
Definition with_updated_collections (f : list collection_info -> list collection_info)
    (s : state) : state :=
  {| base_url := base_url s; plp_content_map := plp_content_map s;
     original_shopify_data := original_shopify_data s;
     updated_shopify_data := updated_shopify_data s;
     updated_collections := f (updated_collections s);
     not_updated_collections := not_updated_collections s;
     missing_plp_content_list := missing_plp_content_list s |}.
Definition with_not_updated_collections (f : list collection_info -> list collection_info)
    (s : state) : state :=
  {| base_url := base_url s; plp_content_map := plp_content_map s;
     original_shopify_data := original_shopify_data s;
     updated_shopify_data := updated_shopify_data s;
     updated_collections := updated_collections s;
     not_updated_collections := f (not_updated_collections s);
     missing_plp_content_list := missing_plp_content_list s |}.
Definition with_missing_plp_content (f : list missing_info -> list missing_info)
    (s : state) : state :=
  {| base_url := base_url s; plp_content_map := plp_content_map s;
     original_shopify_data := original_shopify_data s;
     updated_shopify_data := updated_shopify_data s;
     updated_collections := updated_collections s;
     not_updated_collections := not_updated_collections s;
     missing_plp_content_list := f (missing_plp_content_list s) |}.

(** The order in which Python iterates over a set of strings is not
    specified; it is a parameter of the model: some enumeration without
    repetition of the elements of the set. *)
Class SetOrder := {
  iter_set : gset str -> list str;
  iter_set_NoDup : forall X, NoDup (iter_set X);
  iter_set_elem : forall X x, x ∈ iter_set X <-> x ∈ X
}.

Section Methods.

Context `{!UrlParse.UrlChecks}.

(** [load_plp_content], reading [self.plp_content_file] as [f]. *)
Definition load_plp_content (f : Csv.source) : M state unit :=
  try_except
    (for_rows f
       (fun _ r =>
          cleaned <- lift (cleaned_row r) ;;
          let url := PyDict.get_default Script.URL [] cleaned in
          match extract_handle_from_url url with
          | Some handle =>
              when (truthy handle)
                (modify (with_plp_content_map
                   (PyDict.set handle
                      {| plp_url := url;
                         plp_title := PyDict.get_default Script.Title [] cleaned;
                         plp_subheading := PyDict.get_default (py "Sub-heading") [] cleaned;
                         plp_description := PyDict.get_default (py "Description") [] cleaned;
                         plp_content_under_listing :=
                           PyDict.get_default (py "Content under product listing") []
                             cleaned |})))
          | None => ret tt
          end)
       tt)
    (fun e => raise e).

End Methods.

(** The first loop of [analyze_updates] for one item of
    [self.updated_shopify_data]: the object's two lists are appended to. *)
Definition analyze_step (item : str * row) : M state unit :=
  let '(handle, updated_row) := item in
  original <- gets original_shopify_data ;;
  match PyDict.get handle original with
  | None => ret tt
  | Some original_row =>
      if negb (truthy original_row) then ret tt
      else
        let updated_fields := [] in
        let original_title := PyDict.get_default Script.Title [] original_row in
        let updated_title := PyDict.get_default Script.Title [] updated_row in
        let updated_fields :=
          if bool_decide (original_title ≠ updated_title) && truthy updated_title
          then updated_fields ++ [ShowUpdated.title_line original_title updated_title]
          else updated_fields in
        let original_html := PyDict.get_default Script.Body_HTML [] original_row in
        let updated_html := PyDict.get_default Script.Body_HTML [] updated_row in
        let updated_fields :=
          if bool_decide (original_html ≠ updated_html) && truthy updated_html
          then updated_fields ++ [ShowUpdated.body_line]
          else updated_fields in
        let original_subheading :=
          PyDict.get_default Script.Metafield_subheading [] original_row in
        let updated_subheading :=
          PyDict.get_default Script.Metafield_subheading [] updated_row in
        let updated_fields :=
          if bool_decide (original_subheading ≠ updated_subheading) && truthy updated_subheading
          then updated_fields
               ++ [ShowUpdated.subheading_line original_subheading updated_subheading]
          else updated_fields in
        base <- gets base_url ;;
        plp <- gets plp_content_map ;;
        if truthy updated_fields then
          modify (with_updated_collections (fun l => l ++
            [{| handle := handle;
                title := if truthy updated_title then updated_title else handle;
                url := base ++ py "/collections/" ++ handle;
                changes := Some updated_fields;
                has_plp_content := PyDict.contains handle plp;
                plp_content := PyDict.get handle plp |}]))
        else
          modify (with_not_updated_collections (fun l => l ++
            [{| handle := handle;
                title := if truthy updated_title then updated_title else handle;
                url := base ++ py "/collections/" ++ handle;
                changes := None;
                has_plp_content := PyDict.contains handle plp;
                plp_content := PyDict.get handle plp |}]))
  end.

Section Analysis.

Context `{!SetOrder}.

(** [analyze_updates] *)
Definition analyze_updates : M state unit :=
  updated <- gets updated_shopify_data ;;
  foldM (fun _ item => analyze_step item) tt (PyDict.items updated);;
  plp <- gets plp_content_map ;;
  original <- gets original_shopify_data ;;
  let plp_handles : gset str := list_to_set (PyDict.keys plp) in
  let shopify_handles : gset str := list_to_set (PyDict.keys original) in
  let unmatched_plp := plp_handles ∖ shopify_handles in
  foldM (fun _ handle =>
           match PyDict.get handle plp with
           | Some content =>
               modify (with_missing_plp_content (fun l => l ++
                 [{| missing_handle := handle; missing_plp_content := content |}]))
           | None => raise TypeError   (* a missing key: never the case here,
                                          the handle is taken from the keys *)
           end)
        tt (iter_set unmatched_plp).

End Analysis.

(** [print_analysis] prints; the update success rate divides by
    [len(self.original_shopify_data)] when the argument of its line is
    computed.  A call of [print] raises when the standard output does not
    take its text (the headings hold symbols that only some encodings
    have): [head_fault] is the exception of the first failing call among
    those before the division, [tail_fault] that of the first failing
    call from the line of the division on, if there is one. *)
Definition print_analysis (head_fault tail_fault : option exn) : M state unit :=
  match head_fault with
  | Some e => raise e
  | None =>
      original <- gets original_shopify_data ;;
      if length original =? 0 then raise ZeroDivisionError
      else match tail_fault with
           | Some e => raise e
           | None => ret tt
           end
  end.

Section Run.

Context `{!UrlParse.UrlChecks} `{!SetOrder}.

(** [run(save_report=False)], reading the three files as [plp_file],
    [original_file] and [updated_file]; an exception is logged and raised
    again. *)
Definition run (plp_file original_file updated_file : Csv.source)
    (head_fault tail_fault : option exn) : M state unit :=
  try_except
    (load_plp_content plp_file;;
     zoom original_shopify_data with_original_shopify_data
       (Analyze.load_shopify_data original_file);;
     zoom updated_shopify_data with_updated_shopify_data
       (Analyze.load_shopify_data updated_file);;
     analyze_updates;;
     print_analysis head_fault tail_fault)
    (fun e => raise e).

End Run.

End AnalyzeCoverage.

(** ** [show_collections_urls.py]: [CollectionsURLGenerator] *)

Module ShowCollections.

Record collection := {
  handle : str;
  title : str;
  url : str
}.

Record state := {
  base_url : str;
  collections : list collection;
  unique_collections : list collection
}.

(** [__init__] *)
Definition init (base_url : str) : state :=
  {| base_url := rstrip (N.eqb (chr "/")) base_url;
     collections := []; unique_collections := [] |}.

Definition with_collections (v : list collection) (s : state) : state :=
  {| base_url := base_url s; collections := v;
     unique_collections := unique_collections s |}.
Definition with_unique_collections (f : list collection -> list collection) (s : state)
    : state :=
  {| base_url := base_url s; collections := collections s;
     unique_collections := f (unique_collections s) |}.

(** [load_collections], reading [self.csv_file] as [f]; the accumulator
    holds the locals [collections] and [seen_handles]. *)
Definition load_collections (f : Csv.source) : M state unit :=
  try_except
    (cleaned_fieldnames_of f;;
     base <- gets base_url ;;
     acc <-
       for_rows f
         (fun (acc : list collection * gset str) r =>
            cleaned <- lift (cleaned_row r) ;;
            let '(collections, seen_handles) := acc in
            let handle := PyDict.get_default Script.Handle [] cleaned in
            let title := PyDict.get_default Script.Title [] cleaned in
            if truthy handle && bool_decide (handle ≠ Script.Handle) then
              let entry := {| handle := handle; title := title;
                              url := base ++ py "/collections/" ++ handle |} in
              let collections := collections ++ [entry] in
              if bool_decide (handle ∉ seen_handles) then
                modify (with_unique_collections (fun l => l ++ [entry]));;
                ret (collections, {[ handle ]} ∪ seen_handles)
              else ret (collections, seen_handles)
            else ret (collections, seen_handles))
         ([], ∅) ;;
     modify (with_collections acc.1))
    (fun e => raise e).

(** [l[:n]] for an integer [n]; a negative [n] counts from the end. *)
Definition slice_to {A} (n : Z) (l : list A) : list A :=
  if (0 <=? n)%Z then take (Z.to_nat n) l
  else take (length l - Z.to_nat (- n)) l.

(** [print_collections_urls(limit, unique_only)]: the entries it lists,
    in order, and the number in its closing line [... and N more
    collections] when it prints that line.  [limit] is [None] or an
    integer; the layout of the printed lines is left out. *)
Definition print_collections_urls (limit : option Z) (unique_only : bool) (s : state)
    : list collection * option Z :=
  let collections_to_show := if unique_only then unique_collections s else collections s in
  let collections_to_show :=
    match limit with
    | Some n => if negb (n =? 0)%Z then slice_to n collections_to_show
                else collections_to_show
    | None => collections_to_show
    end in
  let note :=
    match limit with
    | Some n =>
        if negb (n =? 0)%Z && (n <? Z.of_nat (length collections_to_show))%Z
        then Some (if unique_only then Z.of_nat (length (unique_collections s)) - n
                   else Z.of_nat (length (collections s)) - n)%Z
        else None
    | None => None
    end in
  (collections_to_show, note).

End ShowCollections.

(** ** [quick_test.py] *)

Module QuickTest.

(** The cleaning of a key, written out in the loop instead of calling a
    helper: the byte-order marks are removed, then whitespace, double
    quotes and single quotes are stripped.  The key [None] of a row with
    surplus cells has no [replace]. *)
Definition clean_key (key : option str) : result str :=
  match key with
  | None => inl AttributeError
  | Some k =>
      inr (strip (N.eqb squote) (strip (N.eqb dquote) (strip isspace (replace BOM [] k))))
  end.

Definition cleaned_row (r : Csv.raw_row) : result row :=
  rfold (fun cleaned kv =>
           rbind (clean_key kv.1)
                 (fun clean_key =>
                    rbind (clean_value kv.2)
                          (fun v => inr (PyDict.set clean_key v cleaned))))
        [] (PyDict.items r).

(** [load_updated_categories(filename)], reading [filename] as [f]; the
    function has no object, its state is empty.  Any exception is printed
    and an empty dictionary returned. *)
Definition load_updated_categories (f : Csv.source) : M unit (dict str row) :=
  try_except
    (for_rows f
       (fun categories r =>
          cleaned <- lift (cleaned_row r) ;;
          let category_id := PyDict.get_default Validate.ID [] cleaned in
          ret (if truthy category_id then PyDict.set category_id cleaned categories
               else categories))
       [])
    (fun e => ret []).

End QuickTest.

(** The computation [m] neither reads nor changes the state. *)
Definition stateless {S A} (m : M S A) : Prop := exists r, forall s, m s = (r, s).

(** A snapshot of three categories. *)
Definition snapshot_small : Csv.source :=
  {| Csv.records := [[py "ID"; py "Handle"; py "Title"];
                     [py "1"; py "tacori"; py "Tacori"];
                     [py "2"; py "gucci"; py "Gucci"]];
     Csv.fault := None |}.

Definition snapshot_small_updated : Csv.source :=
  {| Csv.records := [[py "ID"; py "Handle"; py "Title"];
                     [py "1"; py "tacori"; py "Tacori Rings"];
                     [py "2"; py "gucci"; py "Gucci"]];
     Csv.fault := None |}.

(** The record of the report file for one change. *)
Definition report_record (change : Validate.change_info) : list str :=
  [Validate.category_id change; Validate.handle change;
   Validate.original_title change; Validate.updated_title change;
   ValidateRun.yes_no (Validate.has_html_content change);
   ValidateRun.yes_no (Validate.has_subheading change);
   join (py "; ") (Validate.changes change);
   Validate.html_preview change].

(** A validation object before [run], with no report file. *)
Definition validation_world : ValidateRun.world :=
  {| ValidateRun.obj := ValidateRun.init; ValidateRun.report := None |}.

(** The content record [c] gives the category row [d] a new value: a title,
    a body or a sub-heading that is not empty and differs from what the row
    holds. *)
Definition brings_change (c : Script.content) (d : row) : Prop :=
  (Script.title c <> [] /\ Script.title c <> PyDict.get_default Script.Title [] d)
  \/ (Script.description c <> []
      /\ create_html_content (Script.title c) (Script.subheading c)
           (Script.description c) (Script.content_under_listing c)
         <> PyDict.get_default Script.Body_HTML [] d)
  \/ (Script.subheading c <> []
      /\ Script.subheading c <> PyDict.get_default Script.Metafield_subheading [] d).

(** A file without any record, not even a header. *)
Definition empty_file : Csv.source := {| Csv.records := []; Csv.fault := None |}.

(** An entry of the analyzer's [updated_collections] seen as an entry of
    the updated-collections report. *)
Definition as_collection (e : AnalyzeCoverage.collection_info) : ShowUpdated.collection :=
  {| ShowUpdated.handle := AnalyzeCoverage.handle e;
     ShowUpdated.title := AnalyzeCoverage.title e;
     ShowUpdated.url := AnalyzeCoverage.url e;
     ShowUpdated.changes := default [] (AnalyzeCoverage.changes e) |}.

(** The record before of the item of a snapshot: it exists and is not
    empty. *)
Definition record_before (original : dict str row) (k : str) : option row :=
  match PyDict.get k original with
  | Some (kv :: o) => Some (kv :: o)
  | _ => None
  end.

(** One of the three compared attributes counts as changed. *)
Definition some_change (o u : row) : Prop :=
  changed Script.Title o u \/ changed Script.Body_HTML o u
  \/ changed Script.Metafield_subheading o u.

(** What one step of the analyzer appends to [updated_collections] for an
    entry of the comparison, and to [not_updated_collections] for an item
    without a change. *)
Definition info_of (plp : dict str AnalyzeCoverage.plp_entry) (e : ShowUpdated.collection)
    : AnalyzeCoverage.collection_info :=
  {| AnalyzeCoverage.handle := ShowUpdated.handle e;
     AnalyzeCoverage.title := ShowUpdated.title e;
     AnalyzeCoverage.url := ShowUpdated.url e;
     AnalyzeCoverage.changes := Some (ShowUpdated.changes e);
     AnalyzeCoverage.has_plp_content := PyDict.contains (ShowUpdated.handle e) plp;
     AnalyzeCoverage.plp_content := PyDict.get (ShowUpdated.handle e) plp |}.

Definition unchanged_info (base : str) (plp : dict str AnalyzeCoverage.plp_entry)
    (item : str * row) : AnalyzeCoverage.collection_info :=
  {| AnalyzeCoverage.handle := item.1;
     AnalyzeCoverage.title :=
       if truthy (PyDict.get_default Script.Title [] item.2)
       then PyDict.get_default Script.Title [] item.2 else item.1;
     AnalyzeCoverage.url := base ++ py "/collections/" ++ item.1;
     AnalyzeCoverage.changes := None;
     AnalyzeCoverage.has_plp_content := PyDict.contains item.1 plp;
     AnalyzeCoverage.plp_content := PyDict.get item.1 plp |}.

Definition unchanged_of (base : str) (plp : dict str AnalyzeCoverage.plp_entry)
    (original : dict str row) (item : str * row) : list AnalyzeCoverage.collection_info :=
  match record_before original item.1 with
  | Some _ =>
      match ShowUpdated.find_updated_step base original [] item with
      | [] => [unchanged_info base plp item]
      | _ :: _ => []
      end
  | None => []
  end.

(** An analyzer before [analyze_updates], with two snapshots of two
    categories one of which got a new title, and content for a third
    handle. *)
Definition analyzer_small : AnalyzeCoverage.state :=
  {| AnalyzeCoverage.base_url := py "https://shop";
     AnalyzeCoverage.plp_content_map :=
       [(py "verragio",
         {| AnalyzeCoverage.plp_url := py "https://x.com/verragio.html";
            AnalyzeCoverage.plp_title := py "Verragio";
            AnalyzeCoverage.plp_subheading := [];
            AnalyzeCoverage.plp_description := [];
            AnalyzeCoverage.plp_content_under_listing := [] |})];
     AnalyzeCoverage.original_shopify_data :=
       [(py "tacori", [(py "Handle", py "tacori"); (py "Title", py "Tacori")]);
        (py "gucci", [(py "Handle", py "gucci"); (py "Title", py "Gucci")])];
     AnalyzeCoverage.updated_shopify_data :=
       [(py "tacori", [(py "Handle", py "tacori"); (py "Title", py "Tacori Rings")]);
        (py "gucci", [(py "Handle", py "gucci"); (py "Title", py "Gucci")])];
     AnalyzeCoverage.updated_collections := [];
     AnalyzeCoverage.not_updated_collections := [];
     AnalyzeCoverage.missing_plp_content_list := [] |}.
(** One order of iteration: that of the elements of the finite set. *)
Definition elements_order : AnalyzeCoverage.SetOrder :=
  {| AnalyzeCoverage.iter_set := elements;
     AnalyzeCoverage.iter_set_NoDup := NoDup_elements;
     AnalyzeCoverage.iter_set_elem := fun X x => elem_of_elements X x |}.

(** What the analyzer's [load_plp_content] stores for a cleaned row of the
    source file. *)
Definition entry_of (c : row) : AnalyzeCoverage.plp_entry :=
  {| AnalyzeCoverage.plp_url := PyDict.get_default Script.URL [] c;
     AnalyzeCoverage.plp_title := PyDict.get_default Script.Title [] c;
     AnalyzeCoverage.plp_subheading := PyDict.get_default (py "Sub-heading") [] c;
     AnalyzeCoverage.plp_description := PyDict.get_default (py "Description") [] c;
     AnalyzeCoverage.plp_content_under_listing :=
       PyDict.get_default (py "Content under product listing") [] c |}.

Definition add_entry `{!UrlParse.UrlChecks} (d : dict str AnalyzeCoverage.plp_entry) (c : row)
    : dict str AnalyzeCoverage.plp_entry :=
  match handle_of c with
  | Some h => if truthy h then PyDict.set h (entry_of c) d else d
  | None => d
  end.

(** The four texts of an entry of the analyzer, as the migration stores
    them. *)
Definition as_content (e : AnalyzeCoverage.plp_entry) : Script.content :=
  {| Script.title := AnalyzeCoverage.plp_title e;
     Script.subheading := AnalyzeCoverage.plp_subheading e;
     Script.description := AnalyzeCoverage.plp_description e;
     Script.content_under_listing := AnalyzeCoverage.plp_content_under_listing e |}.

(** The rule of [load_shopify_data] for keeping a cleaned row. *)
Definition keyed (c : row) : bool :=
  nonempty_not_label Script.Handle (PyDict.get_default Script.Handle [] c).

Definition add_keyed (d : dict str row) (c : row) : dict str row :=
  if keyed c then PyDict.set (PyDict.get_default Script.Handle [] c) c d else d.

(** The entry that [load_collections] makes of a cleaned row. *)
Definition collection_of (base : str) (c : row) : ShowCollections.collection :=
  {| ShowCollections.handle := PyDict.get_default Script.Handle [] c;
     ShowCollections.title := PyDict.get_default Script.Title [] c;
     ShowCollections.url := base ++ py "/collections/" ++ PyDict.get_default Script.Handle [] c |}.

(** The entries whose handle is met for the first time, [seen] being the
    handles met before. *)
Fixpoint firsts (seen : gset str) (es : list ShowCollections.collection)
    : list ShowCollections.collection :=
  match es with
  | [] => []
  | e :: es' =>
      if bool_decide (ShowCollections.handle e ∉ seen)
      then e :: firsts ({[ ShowCollections.handle e ]} ∪ seen) es'
      else firsts seen es'
  end.

(** An export in which one handle occurs twice, with two titles. *)
Definition export_with_repeated_handle : Csv.source :=
  {| Csv.records :=
       [[py "Handle"; py "Title"];
        [py "tacori"; py "Tacori"];
        [py "gucci"; py "Gucci"];
        [py "tacori"; py "Tacori Rings"]];
     Csv.fault := None |}.

Definition export_with_repeated_handle_cleaned : list row :=
  [[(py "Handle", py "tacori"); (py "Title", py "Tacori")];
   [(py "Handle", py "gucci"); (py "Title", py "Gucci")];
   [(py "Handle", py "tacori"); (py "Title", py "Tacori Rings")]].

(** The list that [print_collections_urls] and [save_urls_to_file] take
    their entries from. *)
Definition chosen_collections (unique_only : bool) (s : ShowCollections.state)
    : list ShowCollections.collection :=
  if unique_only then ShowCollections.unique_collections s else ShowCollections.collections s.

(** * Properties *)

(** ** Stripping *)

Section Strip.

Variable p : char -> bool.


Lemma lstrip_split (s : str) :
  exists l, s = l ++ lstrip p s /\ holds_all p l /\
            forall c, head (lstrip p s) = Some c -> p c = false.
Proof.
  induction s as [|c s IH]; simpl.
  - exists []. split; [done|]. split; [constructor|]. intros c Hc. discriminate.
  - destruct (p c) eqn:Hp.
    + destruct IH as (l & Hs & Hl & Hh).
      exists (c :: l). split; [simpl; congruence|].
      split; [by constructor|done].
    + exists []. split; [done|]. split; [constructor|].
      intros c' Hc'. simpl in Hc'. congruence.
Qed.

Lemma lstrip_app_stop (a b : str) (c : char) :
  p c = false -> lstrip p (a ++ c :: b) = lstrip p a ++ c :: b.
Proof.
  intros Hc. induction a as [|x a IH]; simpl.
  - by rewrite Hc.
  - destruct (p x); [done|done].
Qed.

Lemma lstrip_all (s : str) : holds_all p s -> lstrip p s = [].
Proof.
  induction 1 as [|c s Hc _ IH]; simpl; [done|]. by rewrite Hc.
Qed.

Lemma lstrip_app_all (l s : str) : holds_all p l -> lstrip p (l ++ s) = lstrip p s.
Proof.
  induction 1 as [|c l Hc _ IH]; simpl; [done|]. by rewrite Hc.
Qed.

Lemma rstrip_app_stop (a b : str) (c : char) :
  p c = false -> rstrip p (a ++ c :: b) = a ++ c :: rstrip p b.
Proof.
  intros Hc. unfold rstrip.
  rewrite reverse_app, reverse_cons, <- app_assoc. simpl.
  rewrite lstrip_app_stop by done.
  rewrite reverse_app, reverse_cons, reverse_involutive.
  by rewrite <- app_assoc.
Qed.

Lemma rstrip_all (s : str) : holds_all p s -> rstrip p s = [].
Proof.
  intros H. unfold rstrip. rewrite lstrip_all; [done|]. by apply Forall_reverse.
Qed.

Lemma rstrip_split (s : str) :
  exists r, s = rstrip p s ++ r /\ holds_all p r /\
            forall c, last (rstrip p s) = Some c -> p c = false.
Proof.
  destruct (lstrip_split (reverse s)) as (l & Hs & Hl & Hh).
  exists (reverse l). unfold rstrip. split.
  - rewrite <- reverse_app, <- Hs. by rewrite reverse_involutive.
  - split; [by apply Forall_reverse|].
    intros c Hc. apply Hh. by rewrite <- Hc, last_reverse.
Qed.

(** Stripping on the right keeps a first character that is not stripped. *)
Lemma rstrip_head (s : str) :
  (forall c, head s = Some c -> p c = false) ->
  forall c, head (rstrip p s) = Some c -> p c = false.
Proof.
  intros Hs c Hc. destruct s as [|x s]; [done|].
  specialize (Hs x eq_refl).
  rewrite (rstrip_app_stop [] s x Hs : rstrip p (x :: s) = x :: rstrip p s) in Hc.
  simpl in Hc. congruence.
Qed.

Lemma strip_split (s : str) :
  exists l r, s = l ++ strip p s ++ r /\ holds_all p l /\ holds_all p r /\
              clear_ends p (strip p s).
Proof.
  destruct (lstrip_split s) as (l & Hs & Hl & Hh).
  destruct (rstrip_split (lstrip p s)) as (r & Hs' & Hr & Ht).
  exists l, r. unfold strip. split; [by rewrite <- Hs'|].
  split; [done|]. split; [done|].
  split; [by apply rstrip_head|done].
Qed.

Lemma strip_nil : strip p [] = [].
Proof. reflexivity. Qed.

End Strip.

Lemma replace_nil_filter (old : char) (s : str) :
  replace old [] s = filter (fun c => c ≠ old) s.
Proof.
  induction s as [|c s IH]; [done|]. rewrite filter_cons, <- IH.
  unfold replace. simpl. destruct (N.eqb_spec c old) as [->|Hne].
  - by rewrite decide_False by (intros H; by apply H).
  - by rewrite decide_True by done.
Qed.

(** C5 (amended): for every column name, cleaning removes every
    byte-order mark, then trims the surrounding whitespace, then strips
    every leading and trailing double quote, then every leading and trailing
    single quote: what is left of the name without its byte-order marks is
    whitespace, double quotes, single quotes, the cleaned name, single
    quotes, double quotes, whitespace, and each stripping is maximal.  The
    column name U+FEFF "URL" is cleaned to "URL". *)
Theorem clean_field_name_strips_all_layers (name : str) :
  let cleaned := clean_field_name (Some name) in
  (BOM ∉ cleaned) /\
  clean_field_name (Some (BOM :: py "URL")) = py "URL" /\
  exists ws1 dq1 sq1 sq2 dq2 ws2,
    filter (fun c => c ≠ BOM) name
      = ws1 ++ dq1 ++ sq1 ++ cleaned ++ sq2 ++ dq2 ++ ws2 /\
    Forall (fun c => isspace c = true) (ws1 ++ ws2) /\
    Forall (fun c => c = dquote) (dq1 ++ dq2) /\
    Forall (fun c => c = squote) (sq1 ++ sq2) /\
    clear_ends isspace (dq1 ++ sq1 ++ cleaned ++ sq2 ++ dq2) /\
    clear_ends (N.eqb dquote) (sq1 ++ cleaned ++ sq2) /\
    clear_ends (N.eqb squote) cleaned.
Proof.
  intros cleaned.
  assert (Hc : cleaned = strip (N.eqb squote) (strip (N.eqb dquote)
                 (strip isspace (replace BOM [] name)))).
  { unfold cleaned, clean_field_name. by destruct name. }
  clearbody cleaned. subst cleaned.
  set (b := replace BOM [] name).
  destruct (strip_split isspace b) as (ws1 & ws2 & Hb & Hws1 & Hws2 & Hce1).
  set (t1 := strip isspace b) in *.
  destruct (strip_split (N.eqb dquote) t1) as (dq1 & dq2 & Ht1 & Hdq1 & Hdq2 & Hce2).
  set (t2 := strip (N.eqb dquote) t1) in *.
  destruct (strip_split (N.eqb squote) t2) as (sq1 & sq2 & Ht2 & Hsq1 & Hsq2 & Hce3).
  set (t3 := strip (N.eqb squote) t2) in *.
  assert (Hsub : forall c, c ∈ t3 -> c ∈ b).
  { intros c Hc. rewrite Hb, Ht1, Ht2. set_solver. }
  split.
  { intros Hin. apply Hsub in Hin. unfold b in Hin.
    rewrite replace_nil_filter in Hin. apply list_elem_of_filter in Hin. by destruct Hin. }
  split; [reflexivity|].
  exists ws1, dq1, sq1, sq2, dq2, ws2.
  split.
  { rewrite <- replace_nil_filter. fold b. rewrite Hb at 1. rewrite Ht1 at 1. rewrite Ht2 at 1.
    by rewrite <- !app_assoc. }
  split; [by apply Forall_app|].
  split.
  { apply Forall_app. split; (eapply Forall_impl; [eassumption|]);
      intros c Hc%N.eqb_eq; done. }
  split.
  { apply Forall_app. split; (eapply Forall_impl; [eassumption|]);
      intros c Hc%N.eqb_eq; done. }
  split.
  { rewrite Ht2 in Ht1. rewrite <- !app_assoc in Ht1. by rewrite <- Ht1. }
  split; [by rewrite <- Ht2|done].
Qed.

(** C5 as stated fails: a name wrapped in two layers of double quotes loses
    both, where stripping one layer would keep the inner one. *)
Lemma clean_field_name_two_layers :
  let name := [dquote; dquote] ++ py "URL" ++ [dquote; dquote] in
  clean_field_name (Some name) = py "URL" /\
  clean_field_name_one_layer name = [dquote] ++ py "URL" ++ [dquote] /\
  clean_field_name (Some name) <> clean_field_name_one_layer name.
Proof. split; [reflexivity|]. split; [reflexivity|]. intros H. vm_compute in H. discriminate. Qed.

(** ** HTML escaping and the body template *)

Lemma replace_app (old : char) (new a b : str) :
  replace old new (a ++ b) = replace old new a ++ replace old new b.
Proof. unfold replace. apply flat_map_app. Qed.

Lemma replace_cons (old : char) (new : str) (c : char) (s : str) :
  replace old new (c :: s) = (if (c =? old)%N then new else [c]) ++ replace old new s.
Proof. reflexivity. Qed.

Lemma replace_singleton_ne (old : char) (new : str) (c : char) :
  c <> old -> replace old new [c] = [c].
Proof.
  intros Hne. unfold replace. cbn [flat_map].
  destruct (N.eqb_spec c old); [done|]. apply app_nil_r.
Qed.

Lemma html_escape_app (a b : str) : html_escape (a ++ b) = html_escape a ++ html_escape b.
Proof. unfold html_escape. by rewrite !replace_app. Qed.

Lemma html_escape_singleton (c : char) : html_escape [c] = escape_char c.
Proof.
  unfold escape_char.
  destruct (N.eqb_spec c (chr "&")) as [->|H1]; [reflexivity|].
  destruct (N.eqb_spec c (chr "<")) as [->|H2]; [reflexivity|].
  destruct (N.eqb_spec c (chr ">")) as [->|H3]; [reflexivity|].
  destruct (N.eqb_spec c dquote) as [->|H4]; [reflexivity|].
  destruct (N.eqb_spec c squote) as [->|H5]; [reflexivity|].
  unfold html_escape. by rewrite !replace_singleton_ne.
Qed.

Lemma html_escape_cons (c : char) (s : str) :
  html_escape (c :: s) = escape_char c ++ html_escape s.
Proof.
  change (c :: s) with ([c] ++ s).
  by rewrite html_escape_app, html_escape_singleton.
Qed.

Lemma html_escape_flat_map (s : str) : html_escape s = flat_map escape_char s.
Proof.
  induction s as [|c s IH]; [reflexivity|].
  rewrite html_escape_cons, IH. reflexivity.
Qed.

Lemma escape_char_safe (c : char) : Forall markup_free (escape_char c).
Proof.
  unfold escape_char.
  destruct (N.eqb_spec c (chr "&")) as [->|H1];
    [by repeat (constructor; [by vm_compute|])|].
  destruct (N.eqb_spec c (chr "<")) as [->|H2];
    [by repeat (constructor; [by vm_compute|])|].
  destruct (N.eqb_spec c (chr ">")) as [->|H3];
    [by repeat (constructor; [by vm_compute|])|].
  destruct (N.eqb_spec c dquote) as [->|H4];
    [by repeat (constructor; [by vm_compute|])|].
  destruct (N.eqb_spec c squote) as [->|H5];
    [by repeat (constructor; [by vm_compute|])|].
  by repeat constructor.
Qed.

(** C8: for every title, subheading, description and supplementary text
    the body HTML is the container element around, in this order, the
    [h1] of the title, the [h2] of the subheading, the [p] of the
    description and the [div] of the supplementary text, each present
    exactly when its value is not empty; every value is written through
    [html.escape], which replaces each special character by its entity and
    leaves no [<], [>] or quote behind. *)
Theorem create_html_content_template (title subheading description content_under_listing : str) :
  create_html_content title subheading description content_under_listing
  = (py "<div class=" ++ [dquote] ++ py "collection-description" ++ [dquote] ++ py ">")
    ++ html_element (py "<h1>") (py "</h1>") title
    ++ html_element (py "<h2>") (py "</h2>") subheading
    ++ html_element (py "<p>") (py "</p>") description
    ++ html_element
         (py "<div class=" ++ [dquote] ++ py "content-under-listing" ++ [dquote] ++ py ">")
         (py "</div>") content_under_listing
    ++ py "</div>"
  /\ (forall v, html_escape v = flat_map escape_char v)
  /\ (forall v, Forall markup_free (html_escape v)).
Proof.
  split; [|split].
  - unfold create_html_content, html_element.
    destruct title, subheading, description, content_under_listing;
      cbn [truthy]; rewrite ?concat_app; cbn [concat]; rewrite ?app_nil_r, <- ?app_assoc;
      reflexivity.
  - apply html_escape_flat_map.
  - intros v. rewrite html_escape_flat_map.
    induction v as [|c v IH]; [constructor|].
    cbn [flat_map]. apply Forall_app. split; [apply escape_char_safe|done].
Qed.

(** ** The merger *)

Section DictFacts.

Context {K V : Type} `{EqDecision K}.

Lemma get_set_eq (k : K) (v : V) (d : dict K V) : PyDict.get k (PyDict.set k v d) = Some v.
Proof.
  induction d as [|[k' v'] d IH]; cbn.
  - by rewrite decide_True.
  - destruct (decide (k' = k)) as [->|Hne]; cbn.
    + by rewrite decide_True.
    + by rewrite decide_False.
Qed.

Lemma get_set_ne (k k' : K) (v : V) (d : dict K V) :
  k <> k' -> PyDict.get k' (PyDict.set k v d) = PyDict.get k' d.
Proof.
  intros Hne. induction d as [|[k0 v0] d IH]; cbn.
  - by rewrite decide_False.
  - destruct (decide (k0 = k)) as [->|Hne0]; cbn.
    + by rewrite !decide_False.
    + destruct (decide (k0 = k')); [done|exact IH].
Qed.

Lemma get_set (k k' : K) (v : V) (d : dict K V) :
  PyDict.get k' (PyDict.set k v d) = if decide (k = k') then Some v else PyDict.get k' d.
Proof.
  destruct (decide (k = k')) as [->|Hne]; [apply get_set_eq|by apply get_set_ne].
Qed.

End DictFacts.

Section Merger.

Import Script.

Lemma with_store_store f s : store (with_store f s) = f (store s).
Proof. reflexivity. Qed.

Lemma copy_loop (cats : list loc) : forall (acc : list loc) (s : state),
  Forall (fun l => l < length (store s)) cats ->
  foldM (fun acc category =>
           d <- deref category;;
           l <- alloc d;;
           ret (acc ++ [l])) acc cats s
  = (inr (acc ++ seq (length (store s)) (length cats)),
     with_store (fun h => h ++ ((fun l => default [] (store s !! l)) <$> cats)) s).
Proof.
  induction cats as [|c cats IH]; intros acc s Hv.
  - cbn. rewrite app_nil_r. destruct s. unfold with_store. cbn. by rewrite app_nil_r.
  - apply Forall_cons in Hv as [Hc Hv].
    cbn [foldM]. unfold bind at 1. unfold bind at 1. unfold deref at 1, gets at 1.
    unfold bind at 1. unfold alloc at 1. unfold ret at 1.
    rewrite IH.
    2:{ rewrite with_store_store, length_app. cbn.
        eapply Forall_impl; [exact Hv|]. cbn. intros; lia. }
    rewrite with_store_store, length_app. cbn [length].
    f_equal.
    + replace (length (store s) + 1) with (S (length (store s))) by lia.
      by rewrite <- app_assoc.
    + destruct s as [h ? ? ? ? ? ?]. unfold with_store. cbn in *. f_equal.
      rewrite <- app_assoc. cbn. do 2 f_equal.
      apply Forall_fmap_ext. eapply Forall_impl; [exact Hv|].
      cbn. intros l Hl. by rewrite lookup_app_l.
Qed.

Lemma three_setitems (b1 b2 b3 : bool) (k1 v1 k2 v2 k3 v3 : str) (l : loc) (s : state) :
  l < length (store s) ->
  (when b1 (setitem l k1 v1);; when b2 (setitem l k2 v2);;
   when b3 (setitem l k3 v3);; ret tt) s
  = (inr tt,
     with_store
       (fun h =>
          <[l := let d := default [] (store s !! l) in
                 let d := if b1 then PyDict.set k1 v1 d else d in
                 let d := if b2 then PyDict.set k2 v2 d else d in
                 if b3 then PyDict.set k3 v3 d else d]> h) s).
Proof.
  intros Hl. destruct s as [h ? ? ? ? ? ?]. cbn in Hl.
  unfold bind, when, setitem, modify, ret, with_store. cbn.
  destruct (lookup_lt_is_Some_2 h l Hl) as [d Hd]. rewrite Hd. cbn.
  destruct b1, b2, b3; cbn;
    rewrite ?list_lookup_insert_eq, ?list_insert_insert_eq by (by rewrite ?length_insert);
    cbn; rewrite ?list_insert_insert_eq, ?Hd; try done.
  cbn. by rewrite list_insert_id.
Qed.

Lemma update_category_run (counts : nat * nat) (i : nat) (l : loc) (s : state) :
  l < length (store s) ->
  exists counts',
    update_category counts (i, l) s
    = (inr counts',
       with_store
         (fun h => <[l := merged_row (content_map s) i (default [] (store s !! l))]> h) s).
Proof.
  intros Hl. destruct counts as [u n]. unfold update_category, merged_row.
  assert (Hid : with_store (fun h => <[l := default [] (store s !! l)]> h) s = s).
  { destruct s as [h ? ? ? ? ? ?]. unfold with_store. cbn in *. f_equal.
    destruct (lookup_lt_is_Some_2 h l Hl) as [d Hd]. rewrite Hd. cbn.
    by apply list_insert_id. }
  case_bool_decide.
  { exists (u, n). unfold ret. by rewrite Hid. }
  unfold bind at 1. unfold deref at 1, gets at 1.
  unfold bind at 1. unfold gets at 1.
  destruct (content_map s !! _) as [c|] eqn:Hc.
  - exists (u + 1, n).
    pose proof (three_setitems (truthy (title c)) (truthy (description c))
      (truthy (subheading c)) Title (title c) Body_HTML
      (create_html_content (title c) (subheading c) (description c) (content_under_listing c))
      Metafield_subheading (subheading c) l s Hl) as H3.
    unfold bind in *.
    destruct (when (truthy (title c)) _ s) as [[e|[]] s1]; [done|].
    destruct (when (truthy (description c)) _ s1) as [[e|[]] s2]; [done|].
    destruct (when (truthy (subheading c)) _ s2) as [[e|[]] s3]; [done|].
    unfold ret in *. injection H3 as ->. reflexivity.
  - exists (u, n + 1). unfold ret. by rewrite Hid.
Qed.

Lemma update_loop (k : nat) : forall (i0 n0 : nat) (counts : nat * nat) (s : state),
  n0 + k <= length (store s) ->
  exists counts' s',
    foldM update_category counts (zip (seq i0 k) (seq n0 k)) s = (inr counts', s')
    /\ s' = with_store (fun _ => store s') s
    /\ length (store s') = length (store s)
    /\ (forall l, l < n0 \/ n0 + k <= l -> store s' !! l = store s !! l)
    /\ (forall j, j < k ->
          store s' !! (n0 + j)
          = Some (merged_row (content_map s) (i0 + j) (default [] (store s !! (n0 + j))))).
Proof.
  induction k as [|k IH]; intros i0 n0 counts s Hk.
  - exists counts, s. cbn. split; [done|]. split; [by destruct s|].
    split; [done|]. split; [done|]. intros j Hj. lia.
  - cbn [seq zip zip_with foldM].
    destruct (update_category_run counts i0 n0 s ltac:(lia)) as [counts1 H1].
    unfold bind at 1. rewrite H1.
    set (s1 := with_store _ s).
    assert (Hlen1 : length (store s1) = length (store s)).
    { unfold s1. by rewrite with_store_store, length_insert. }
    destruct (IH (S i0) (S n0) counts1 s1 ltac:(lia))
      as (counts' & s' & Hrun & Hsame & Hlen & Hframe & Hupd).
    exists counts', s'. split; [exact Hrun|].
    split.
    { rewrite Hsame at 1. unfold s1. by destruct s. }
    split; [lia|].
    split.
    { intros l Hl. rewrite Hframe by lia.
      unfold s1. rewrite with_store_store. apply list_lookup_insert_ne. lia. }
    intros j Hj. destruct j as [|j].
    + rewrite Nat.add_0_r. rewrite Hframe by lia.
      unfold s1. rewrite with_store_store, Nat.add_0_r.
      apply list_lookup_insert_eq. lia.
    + replace (n0 + S j) with (S n0 + j) by lia.
      replace (i0 + S j) with (S i0 + j) by lia.
      rewrite Hupd by lia. do 3 f_equal.
      unfold s1. rewrite with_store_store. apply list_lookup_insert_ne. lia.
Qed.

(** The merger in closed form: the store grows by one copy per category,
    the copy at position [i] is merged, and nothing else changes but the
    counters. *)
Lemma update_shopify_categories_run (s : state) :
  categories_allocated s ->
  exists s',
    update_shopify_categories s = (inr tt, s')
    /\ shopify_categories s' = shopify_categories s
    /\ content_map s' = content_map s
    /\ output s' = output s
    /\ updated_categories s'
       = seq (length (store s)) (length (shopify_categories s))
    /\ (forall l, l < length (store s) -> store s' !! l = store s !! l)
    /\ (forall i l, shopify_categories s !! i = Some l ->
          store s' !! (length (store s) + i)
          = Some (merged_row (content_map s) i (default [] (store s !! l)))).
Proof.
  intros Hv. unfold update_shopify_categories.
  unfold bind at 1. unfold gets at 1.
  unfold bind at 1. rewrite copy_loop by exact Hv.
  cbn [app].
  unfold bind at 1. unfold modify at 1.
  unfold bind at 1. unfold gets at 1.
  set (n0 := length (store s)).
  set (cats := shopify_categories s).
  set (s1 := with_updated_categories _ _).
  assert (Hupd1 : updated_categories s1 = seq n0 (length cats)) by reflexivity.
  assert (Hst1 : store s1 = store s ++ ((fun l => default [] (store s !! l)) <$> cats))
    by reflexivity.
  rewrite Hupd1, length_seq.
  destruct (update_loop (length cats) 0 n0 (0, 0) s1) as
    (counts & s2 & Hrun & Hsame & Hlen & Hframe & Hmerged).
  { rewrite Hst1, length_app, length_fmap. unfold n0. lia. }
  unfold bind at 1. rewrite Hrun. unfold modify.
  eexists. split; [reflexivity|].
  rewrite Hsame. cbn.
  split; [done|]. split; [done|]. split; [done|]. split; [done|].
  split.
  - intros l Hl. rewrite Hframe by (left; exact Hl).
    rewrite Hst1. by apply lookup_app_l.
  - intros i l Hi.
    assert (i < length cats) by (by eapply lookup_lt_Some).
    rewrite Hmerged by done.
    change (0 + i) with i. change (content_map s1) with (content_map s).
    rewrite Hst1, lookup_app_r by (unfold n0; lia).
    replace (n0 + i - length (store s)) with i by (unfold n0; lia).
    by rewrite list_lookup_fmap, Hi.
Qed.

Lemma merge_content_get (c : content) (d : row) (k : str) :
  PyDict.get k (merge_content c d)
  = if truthy (subheading c) && bool_decide (k = Metafield_subheading)
    then Some (subheading c)
    else if truthy (description c) && bool_decide (k = Body_HTML)
    then Some (create_html_content (title c) (subheading c) (description c)
                 (content_under_listing c))
    else if truthy (title c) && bool_decide (k = Title)
    then Some (title c)
    else PyDict.get k d.
Proof.
  unfold merge_content.
  destruct (truthy (subheading c)), (truthy (description c)), (truthy (title c));
    cbn [andb]; rewrite ?get_set; repeat case_decide; repeat case_bool_decide;
    try done; congruence.
Qed.

(** C10: for every source mapping and every loaded sequence, the merger
    returns, leaves [self.shopify_categories] and every dictionary it holds
    as they were, and puts into [self.updated_categories] as many
    dictionaries, none of which is an object of the loaded sequence. *)
Theorem merger_keeps_loaded_categories (s : state) :
  categories_allocated s ->
  exists s',
    update_shopify_categories s = (inr tt, s')
    /\ shopify_categories s' = shopify_categories s
    /\ (forall l, l ∈ shopify_categories s -> store s' !! l = store s !! l)
    /\ length (updated_categories s') = length (shopify_categories s)
    /\ (forall l, l ∈ updated_categories s' -> l ∉ shopify_categories s).
Proof.
  intros Hv.
  destruct (update_shopify_categories_run s Hv)
    as (s' & Hrun & Hcats & _ & _ & Hupd & Hframe & _).
  exists s'. split; [exact Hrun|]. split; [exact Hcats|].
  unfold categories_allocated in Hv. rewrite Forall_forall in Hv.
  split; [|split].
  - intros l Hl. apply Hframe. by apply Hv.
  - by rewrite Hupd, length_seq.
  - intros l Hl Hin. rewrite Hupd in Hl. apply elem_of_seq in Hl.
    apply Hv in Hin. lia.
Qed.

(** C3: for every source mapping and every loaded sequence of length at
    least one, the copy at position zero of the merged sequence is equal to
    the loaded dictionary at position zero, whatever the source mapping
    holds for its handle. *)
Theorem merger_skips_position_zero (s : state) (first : loc) (others : list loc) :
  categories_allocated s ->
  shopify_categories s = first :: others ->
  exists s' copy d,
    update_shopify_categories s = (inr tt, s')
    /\ updated_categories s' !! 0 = Some copy
    /\ store s !! first = Some d
    /\ store s' !! copy = Some d.
Proof.
  intros Hv Hcats.
  destruct (update_shopify_categories_run s Hv)
    as (s' & Hrun & _ & _ & _ & Hupd & _ & Hmerged).
  assert (Hfirst : first < length (store s)).
  { unfold categories_allocated in Hv. rewrite Hcats in Hv. by apply Forall_cons in Hv as [? _]. }
  destruct (lookup_lt_is_Some_2 _ _ Hfirst) as [d Hd].
  exists s', (length (store s)), d.
  split; [exact Hrun|]. split.
  { rewrite Hupd, Hcats. reflexivity. }
  split; [exact Hd|].
  specialize (Hmerged 0 first). rewrite Hcats in Hmerged.
  rewrite Nat.add_0_r in Hmerged. rewrite Hmerged by reflexivity.
  by rewrite Hd.
Qed.

(** C2: for every position of the loaded sequence, if the handle of the
    record has no entry in the source mapping the merged record is the
    loaded record; and if it has one, an empty source title, description or
    subheading leaves the title, the body HTML or the subheading metafield
    as it was, and every other attribute is as it was. *)
Theorem merger_frame (s : state) (i : nat) (l : loc) :
  categories_allocated s ->
  shopify_categories s !! i = Some l ->
  exists s' copy d d',
    update_shopify_categories s = (inr tt, s')
    /\ updated_categories s' !! i = Some copy
    /\ store s !! l = Some d
    /\ store s' !! copy = Some d'
    /\ (content_map s !! PyDict.get_default Handle [] d = None -> d' = d)
    /\ (forall c, content_map s !! PyDict.get_default Handle [] d = Some c ->
          (title c = [] -> PyDict.get Title d' = PyDict.get Title d)
          /\ (description c = [] -> PyDict.get Body_HTML d' = PyDict.get Body_HTML d)
          /\ (subheading c = [] ->
                PyDict.get Metafield_subheading d' = PyDict.get Metafield_subheading d)
          /\ (forall k, k <> Title -> k <> Body_HTML -> k <> Metafield_subheading ->
                PyDict.get k d' = PyDict.get k d)).
Proof.
  intros Hv Hi.
  destruct (update_shopify_categories_run s Hv)
    as (s' & Hrun & _ & _ & _ & Hupd & _ & Hmerged).
  assert (Hl : l < length (store s)).
  { unfold categories_allocated in Hv. rewrite Forall_forall in Hv. apply Hv.
    by eapply list_elem_of_lookup_2. }
  destruct (lookup_lt_is_Some_2 _ _ Hl) as [d Hd].
  exists s', (length (store s) + i), d, (merged_row (content_map s) i d).
  split; [exact Hrun|]. split.
  { rewrite Hupd. apply lookup_seq. split; [done|]. by eapply lookup_lt_Some. }
  split; [exact Hd|]. split.
  { rewrite (Hmerged i l Hi). by rewrite Hd. }
  unfold merged_row. split.
  - intros Hnone. case_bool_decide; [done|]. by rewrite Hnone.
  - intros c Hc. rewrite Hc.
    case_bool_decide; [done|].
    split; [|split; [|split]].
    + intros Ht. rewrite merge_content_get, Ht.
      rewrite (bool_decide_eq_false_2 (Title = Metafield_subheading)) by by vm_compute.
      rewrite (bool_decide_eq_false_2 (Title = Body_HTML)) by by vm_compute.
      by rewrite !andb_false_r.
    + intros Ht. rewrite merge_content_get, Ht.
      rewrite (bool_decide_eq_false_2 (Body_HTML = Metafield_subheading)) by by vm_compute.
      rewrite (bool_decide_eq_false_2 (Body_HTML = Title)) by by vm_compute.
      by rewrite !andb_false_r.
    + intros Ht. rewrite merge_content_get, Ht.
      rewrite (bool_decide_eq_false_2 (Metafield_subheading = Body_HTML)) by by vm_compute.
      rewrite (bool_decide_eq_false_2 (Metafield_subheading = Title)) by by vm_compute.
      by rewrite !andb_false_r.
    + intros k H1 H2 H3. rewrite merge_content_get.
      rewrite !bool_decide_eq_false_2 by done. by rewrite !andb_false_r.
Qed.

Lemma tacori_state_allocated : categories_allocated tacori_state.
Proof. repeat constructor. Qed.

Lemma merger_keeps_loaded_categories_witness :
  categories_allocated tacori_state /\
  exists s',
    update_shopify_categories tacori_state = (inr tt, s')
    /\ shopify_categories s' = shopify_categories tacori_state
    /\ (forall l, l ∈ shopify_categories tacori_state ->
          store s' !! l = store tacori_state !! l)
    /\ length (updated_categories s') = length (shopify_categories tacori_state)
    /\ (forall l, l ∈ updated_categories s' -> l ∉ shopify_categories tacori_state).
Proof.
  split; [repeat constructor|].
  apply (merger_keeps_loaded_categories tacori_state). repeat constructor.
Defined.

Lemma merger_skips_position_zero_witness :
  categories_allocated tacori_state /\
  shopify_categories tacori_state = [0; 1] /\
  exists s' copy d,
    update_shopify_categories tacori_state = (inr tt, s')
    /\ updated_categories s' !! 0 = Some copy
    /\ store tacori_state !! 0 = Some d
    /\ store s' !! copy = Some d.
Proof.
  split; [repeat constructor|]. split; [reflexivity|].
  apply (merger_skips_position_zero tacori_state 0 [1]);
    [repeat constructor|reflexivity].
Defined.

Lemma merger_frame_witness :
  categories_allocated tacori_state /\
  shopify_categories tacori_state !! 1 = Some 1 /\
  exists s' copy d d',
    update_shopify_categories tacori_state = (inr tt, s')
    /\ updated_categories s' !! 1 = Some copy
    /\ store tacori_state !! 1 = Some d
    /\ store s' !! copy = Some d'
    /\ (content_map tacori_state !! PyDict.get_default Handle [] d = None -> d' = d)
    /\ (forall c, content_map tacori_state !! PyDict.get_default Handle [] d = Some c ->
          (title c = [] -> PyDict.get Title d' = PyDict.get Title d)
          /\ (description c = [] -> PyDict.get Body_HTML d' = PyDict.get Body_HTML d)
          /\ (subheading c = [] ->
                PyDict.get Metafield_subheading d' = PyDict.get Metafield_subheading d)
          /\ (forall k, k <> Title -> k <> Body_HTML -> k <> Metafield_subheading ->
                PyDict.get k d' = PyDict.get k d)).
Proof.
  split; [repeat constructor|]. split; [reflexivity|].
  apply (merger_frame tacori_state 1 1); [repeat constructor|reflexivity].
Defined.

(** On the instance the merger runs as expected: the first copy keeps its
    title although its handle matches, the second takes the new title and
    keeps its body. *)
Example merger_on_tacori_state :
  exists s',
    update_shopify_categories tacori_state = (inr tt, s')
    /\ updated_categories s' = [2; 3]
    /\ store s' !! 2 = Some (tacori_row (py "1"))
    /\ store s' !! 3
       = Some [(py "ID", py "2"); (Handle, py "tacori"); (Title, py "Tacori Rings");
               (Body_HTML, py "<p>old</p>")].
Proof. eexists. split; [vm_compute; reflexivity|]. repeat split. Qed.

End Merger.

(** ** Loaders *)

Section MonadFacts.

Context {S : Type}.

Lemma foldM_pure {A B} (h : B -> A -> B) (l : list A) : forall (acc : B) (s : S),
  foldM (fun acc x => ret (h acc x)) acc l s = (inr (fold_left h l acc), s).
Proof.
  induction l as [|x l IH]; intros acc s; [reflexivity|].
  cbn [foldM fold_left]. unfold bind at 1. unfold ret at 1. apply IH.
Qed.

(** A reader with a fault makes the loop over its rows raise. *)
Lemma for_rows_fault {B} (f : Csv.source) (e : exn)
    (body : B -> Csv.raw_row -> M S B) (acc : B) (s : S) :
  Csv.fault f = Some e ->
  exists e' s', for_rows f body acc s = (inl e', s').
Proof.
  intros Hf. unfold for_rows, bind. rewrite Hf.
  destruct (foldM body acc (Csv.rows f) s) as [[e'|acc'] s']; [by eauto|].
  unfold raise. by eauto.
Qed.

(** Without a fault the loop is the fold over the rows. *)
Lemma for_rows_no_fault {B} (f : Csv.source)
    (body : B -> Csv.raw_row -> M S B) (acc : B) (s : S) :
  Csv.fault f = None ->
  for_rows f body acc s = foldM body acc (Csv.rows f) s.
Proof.
  intros Hf. unfold for_rows, bind. rewrite Hf.
  by destruct (foldM body acc (Csv.rows f) s) as [[e'|acc'] s'].
Qed.

(** Cleaning first: over rows that clean without an exception the loop
    runs on the cleaned rows. *)
Lemma foldM_cleaned {B} (g : B -> row -> M S B) (rs : list Csv.raw_row) (cleaned : list row) :
  cleaned_to rs cleaned ->
  forall (acc : B) (s : S),
    foldM (fun acc r => c <- lift (cleaned_row r);; g acc c) acc rs s
    = foldM g acc cleaned s.
Proof.
  induction 1 as [|r c rs cleaned Hr _ IH]; intros acc s; [reflexivity|].
  cbn [foldM]. unfold bind at 1. unfold bind at 1. unfold lift at 1. rewrite Hr.
  unfold bind at 2.
  destruct (g acc c s) as [[e|acc'] s']; [reflexivity|]. apply IH.
Qed.

Lemma try_except_raise {A} (m : M S A) (e : exn) (s s' : S) :
  m s = (inl e, s') -> try_except m (fun e => raise e) s = (inl e, s').
Proof. intros H. unfold try_except. by rewrite H. Qed.

Lemma try_except_return {A} (m : M S A) (h : exn -> M S A) (a : A) (s s' : S) :
  m s = (inr a, s') -> try_except m h s = (inr a, s').
Proof. intros H. unfold try_except. by rewrite H. Qed.

End MonadFacts.

Section LoadFailure.

Context `{!UrlParse.UrlChecks}.

Variable f : Csv.source.
Variable e : exn.
Hypothesis Hfault : Csv.fault f = Some e.

Lemma cleaned_fieldnames_fault (s : Script.state) :
  (exists e', Script.cleaned_fieldnames f s = (inl e', s)) \/
  (exists ns, Script.cleaned_fieldnames f s = (inr ns, s)).
Proof.
  unfold Script.cleaned_fieldnames, bind, lift, Csv.fieldnames.
  destruct (Csv.records f) as [|h rs].
  - rewrite Hfault. left. by eauto.
  - right. unfold ret. by eauto.
Qed.

Lemma load_plp_content_raises (s : Script.state) :
  exists e' s', Script.load_plp_content f s = (inl e', s').
Proof.
  unfold Script.load_plp_content.
  match goal with |- context [try_except ?m _ _] => set (body := m) end.
  enough (exists e' s', body s = (inl e', s')) as (e' & s' & Hb).
  { exists e', s'. by apply try_except_raise. }
  unfold body. unfold bind at 1.
  destruct (cleaned_fieldnames_fault s) as [[e' ->]|[ns ->]]; [by eauto|].
  unfold bind at 1.
  match goal with |- context [for_rows f ?b ?a s] =>
    destruct (for_rows_fault f e b a s Hfault) as (e' & s' & ->) end.
  by eauto.
Qed.

Lemma load_shopify_categories_raises (s : Script.state) :
  exists e' s', Script.load_shopify_categories f s = (inl e', s').
Proof.
  unfold Script.load_shopify_categories.
  match goal with |- context [try_except ?m _ _] => set (body := m) end.
  enough (exists e' s', body s = (inl e', s')) as (e' & s' & Hb).
  { exists e', s'. by apply try_except_raise. }
  unfold body. unfold bind at 1.
  destruct (cleaned_fieldnames_fault s) as [[e' ->]|[ns ->]]; [by eauto|].
  unfold bind at 1.
  match goal with |- context [for_rows f ?b ?a s] =>
    destruct (for_rows_fault f e b a s Hfault) as (e' & s' & ->) end.
  by eauto.
Qed.

Lemma load_shopify_data_raises (data_dict : dict str row) :
  exists e' data_dict', Analyze.load_shopify_data f data_dict = (inl e', data_dict').
Proof.
  unfold Analyze.load_shopify_data, try_except.
  match goal with |- context [for_rows f ?b ?a data_dict] =>
    destruct (for_rows_fault f e b a data_dict Hfault) as (e' & s' & ->) end.
  unfold raise. by eauto.
Qed.

Lemma load_csv_file_swallows (is_plp : bool) (s : Validate.state) :
  exists s', Validate.load_csv_file f is_plp s = (inr [], s').
Proof.
  unfold Validate.load_csv_file, try_except.
  destruct is_plp.
  - match goal with |- context [for_rows f ?b ?a s] =>
      destruct (for_rows_fault f e b a s Hfault) as (e' & s' & ->) end.
    unfold ret. by eauto.
  - match goal with |- context [for_rows f ?b ?a s] =>
      destruct (for_rows_fault f e b a s Hfault) as (e' & s' & ->) end.
    unfold ret. by eauto.
Qed.

Lemma load_csv_data_swallows (s : list ShowUpdated.collection) :
  exists s', ShowUpdated.load_csv_data f s = (inr [], s').
Proof.
  unfold ShowUpdated.load_csv_data, try_except.
  match goal with |- context [for_rows f ?b ?a s] =>
    destruct (for_rows_fault f e b a s Hfault) as (e' & s' & ->) end.
  unfold ret. by eauto.
Qed.

End LoadFailure.


Section Frames.

Context {S T : Type} (proj : S -> T).

Lemma frames_ret {A} (a : A) : frames proj (ret a).
Proof. by intros s. Qed.

Lemma frames_raise {A} (e : exn) : frames proj (@raise S A e).
Proof. by intros s. Qed.

Lemma frames_lift {A} (r : result A) : frames proj (lift r).
Proof. by intros s. Qed.

Lemma frames_gets {A} (g : S -> A) : frames proj (gets g).
Proof. by intros s. Qed.

Lemma frames_modify (g : S -> S) : (forall s, proj (g s) = proj s) -> frames proj (modify g).
Proof. intros Hg s. apply Hg. Qed.

Lemma frames_bind {A B} (m : M S A) (k : A -> M S B) :
  frames proj m -> (forall a, frames proj (k a)) -> frames proj (bind m k).
Proof.
  intros Hm Hk s. unfold bind. specialize (Hm s).
  destruct (m s) as [[e|a] s1]; cbn in *; [done|].
  by rewrite Hk.
Qed.

Lemma frames_when (b : bool) (m : M S unit) : frames proj m -> frames proj (when b m).
Proof. intros Hm. destruct b; [done|apply frames_ret]. Qed.

Lemma frames_try_except {A} (m : M S A) (h : exn -> M S A) :
  frames proj m -> (forall e, frames proj (h e)) -> frames proj (try_except m h).
Proof.
  intros Hm Hh s. unfold try_except. specialize (Hm s).
  destruct (m s) as [[e|a] s1]; cbn in *; [|done].
  by rewrite Hh.
Qed.

Lemma frames_foldM {A B} (body : B -> A -> M S B) (l : list A) :
  (forall acc x, frames proj (body acc x)) -> forall acc, frames proj (foldM body acc l).
Proof.
  intros Hb. induction l as [|x l IH]; intros acc; [apply frames_ret|].
  cbn [foldM]. apply frames_bind; [apply Hb|]. intros acc'. apply IH.
Qed.

Lemma frames_for_rows {B} (f : Csv.source) (body : B -> Csv.raw_row -> M S B) (acc : B) :
  (forall acc x, frames proj (body acc x)) -> frames proj (for_rows f body acc).
Proof.
  intros Hb. unfold for_rows. apply frames_bind; [by apply frames_foldM|].
  intros acc'. destruct (Csv.fault f); [apply frames_raise|apply frames_ret].
Qed.

End Frames.

Lemma try_except_reraise {S A} (m : M S A) (s : S) :
  try_except m (fun e => raise e) s = m s.
Proof. unfold try_except, raise. by destruct (m s) as [[e|a] s']. Qed.

Section RunFailure.

Context {checks : UrlParse.UrlChecks}.

Import Script.

Lemma cleaned_fieldnames_frames (f : Csv.source) : frames output (cleaned_fieldnames f).
Proof.
  unfold cleaned_fieldnames. apply frames_bind; [apply frames_lift|].
  intros [ns|]; [apply frames_ret|apply frames_raise].
Qed.

Lemma load_plp_content_frames (f : Csv.source) : frames output (load_plp_content f).
Proof.
  unfold load_plp_content.
  apply frames_try_except; [|intros e; apply frames_raise].
  apply frames_bind; [apply cleaned_fieldnames_frames|]. intros _.
  apply frames_bind.
  - apply frames_for_rows. intros acc r.
    apply frames_bind; [apply frames_lift|]. intros c. cbv zeta.
    destruct (extract_handle_from_url _); [|apply frames_ret].
    apply frames_bind; [|intros; apply frames_ret].
    apply frames_when, frames_modify. by intros [].
  - intros entries. apply frames_bind; [apply frames_modify; by intros []|].
    intros _. apply frames_modify. by intros [].
Qed.

Lemma load_shopify_categories_frames (f : Csv.source) :
  frames output (load_shopify_categories f).
Proof.
  unfold load_shopify_categories.
  apply frames_try_except; [|intros e; apply frames_raise].
  apply frames_bind; [apply cleaned_fieldnames_frames|]. intros _.
  apply frames_bind.
  - apply frames_for_rows. intros acc r.
    apply frames_bind; [apply frames_lift|]. intros c.
    apply frames_bind; [|intros; apply frames_ret].
    intros s. by destruct s.
  - intros cats. apply frames_bind; [apply frames_modify; by intros []|].
    intros _. apply frames_modify. by intros [].
Qed.

(** A failure while either input file is loaded ends [run] with an
    exception before the output file is touched. *)
Lemma run_load_failure (plp_file categories_file : Csv.source) (e : exn)
    (open_fault : option exn) (s : state) :
  Csv.fault plp_file = Some e \/ Csv.fault categories_file = Some e ->
  exists e' s', run plp_file categories_file open_fault s = (inl e', s')
                /\ output s' = output s.
Proof.
  intros Hf. unfold run. rewrite try_except_reraise. unfold bind at 1.
  pose proof (load_plp_content_frames plp_file s) as Hout1.
  destruct (load_plp_content plp_file s) as [[e1|[]] s1] eqn:H1; cbn [snd] in Hout1.
  { by eauto. }
  destruct Hf as [Hf|Hf].
  { destruct (load_plp_content_raises plp_file e Hf s) as (e' & s' & Hr). congruence. }
  unfold bind at 1.
  pose proof (load_shopify_categories_frames categories_file s1) as Hout2.
  destruct (load_shopify_categories_raises categories_file e Hf s1) as (e' & s' & Hr).
  rewrite Hr in *. cbn [snd] in Hout2. exists e', s'. split; [done|congruence].
Qed.

End RunFailure.

(** C4 (amended): when opening, decoding or parsing a tabular file fails,
    the loaders of the migration script ([load_plp_content],
    [load_shopify_categories]) and of the coverage analyzer
    ([load_shopify_data]) raise to their caller, and [run] of the migration
    script ends with an exception before anything is written; the loaders
    of the validation script ([load_csv_file]) and of the
    updated-collections report ([load_csv_data]) return an empty dictionary
    instead. *)
Theorem load_failure_raised_or_swallowed `{!UrlParse.UrlChecks} (f : Csv.source) (e : exn) :
  Csv.fault f = Some e ->
  (forall s, exists e' s', Script.load_plp_content f s = (inl e', s'))
  /\ (forall s, exists e' s', Script.load_shopify_categories f s = (inl e', s'))
  /\ (forall other open_fault s, exists e' s',
        Script.run f other open_fault s = (inl e', s')
        /\ Script.output s' = Script.output s)
  /\ (forall other open_fault s, exists e' s',
        Script.run other f open_fault s = (inl e', s')
        /\ Script.output s' = Script.output s)
  /\ (forall data_dict, exists e' data_dict',
        Analyze.load_shopify_data f data_dict = (inl e', data_dict'))
  /\ (forall is_plp s, exists s', Validate.load_csv_file f is_plp s = (inr [], s'))
  /\ (forall s, exists s', ShowUpdated.load_csv_data f s = (inr [], s')).
Proof.
  intros Hf. split; [|split; [|split; [|split; [|split; [|split]]]]].
  - intros s. by eapply load_plp_content_raises.
  - intros s. by eapply load_shopify_categories_raises.
  - intros other o s. eapply run_load_failure. by left.
  - intros other o s. eapply run_load_failure. by right.
  - intros d. by eapply load_shopify_data_raises.
  - intros is_plp s. by eapply load_csv_file_swallows.
  - intros s. by eapply load_csv_data_swallows.
Qed.

Lemma load_failure_raised_or_swallowed_witness :
  Csv.fault unreadable = Some OSError /\
  (forall s, exists e' s', @Script.load_plp_content lenient_checks unreadable s = (inl e', s'))
  /\ (forall s, exists e' s', Script.load_shopify_categories unreadable s = (inl e', s'))
  /\ (forall other open_fault s, exists e' s',
        @Script.run lenient_checks unreadable other open_fault s = (inl e', s')
        /\ Script.output s' = Script.output s)
  /\ (forall other open_fault s, exists e' s',
        @Script.run lenient_checks other unreadable open_fault s = (inl e', s')
        /\ Script.output s' = Script.output s)
  /\ (forall data_dict, exists e' data_dict',
        Analyze.load_shopify_data unreadable data_dict = (inl e', data_dict'))
  /\ (forall is_plp s, exists s',
        @Validate.load_csv_file lenient_checks unreadable is_plp s = (inr [], s'))
  /\ (forall s, exists s', ShowUpdated.load_csv_data unreadable s = (inr [], s')).
Proof.
  split; [reflexivity|].
  apply (@load_failure_raised_or_swallowed lenient_checks unreadable OSError). reflexivity.
Defined.

(** C4 as stated fails for the validation script: a file that cannot be
    opened is loaded as the empty dictionary and nothing is raised. *)
Lemma load_csv_file_failure_not_raised :
  Csv.fault unreadable = Some OSError
  /\ @Validate.load_csv_file lenient_checks unreadable false validation_init
     = (inr [], validation_init)
  /\ (forall e s', @Validate.load_csv_file lenient_checks unreadable false validation_init
                   <> (inl e, s')).
Proof. split; [reflexivity|]. split; [reflexivity|]. intros e s' H. discriminate H. Qed.

(** ** Keyed loading *)

Section KeyedFold.

Context {S : Type}.

Lemma foldM_value {A B} (g : B -> A -> M S B) (h : B -> A -> B) :
  (forall acc x s, exists s', g acc x s = (inr (h acc x), s')) ->
  forall (l : list A) (acc : B) (s : S),
    exists s', foldM g acc l s = (inr (fold_left h l acc), s').
Proof.
  intros Hg. induction l as [|x l IH]; intros acc s; [by exists s|].
  cbn [foldM fold_left]. unfold bind.
  destruct (Hg acc x s) as [s1 ->]. apply IH.
Qed.

Lemma foldM_state {A} (g : unit -> A -> M S unit) (h : S -> A -> S) :
  (forall x s, g tt x s = (inr tt, h s x)) ->
  forall (l : list A) (s : S), foldM g tt l s = (inr tt, fold_left h l s).
Proof.
  intros Hg. induction l as [|x l IH]; intros s; [reflexivity|].
  cbn [foldM fold_left]. unfold bind. rewrite Hg. apply IH.
Qed.

End KeyedFold.

(** A dictionary filled row by row under a key column: the value of [k]
    is the last row let in with that key. *)
Lemma get_fold_keyed (key : str) (kept : str -> bool) (cleaned : list row) :
  forall (d0 : dict str row) (k : str),
    PyDict.get k
      (fold_left
         (fun d c => if kept (PyDict.get_default key [] c)
                     then PyDict.set (PyDict.get_default key [] c) c d else d)
         cleaned d0)
    = match last_kept key kept k cleaned with
      | Some c => Some c
      | None => PyDict.get k d0
      end.
Proof.
  unfold last_kept. induction cleaned as [|c cs IH]; intros d0 k; [reflexivity|].
  cbn [fold_left]. rewrite IH. rewrite filter_cons.
  set (kc := PyDict.get_default key [] c).
  case_decide as Hk.
  - destruct Hk as [<- Hkept]. fold kc. rewrite Hkept.
    destruct (filter _ cs) as [|c' cs'] eqn:Hf.
    + cbn. apply get_set_eq.
    + rewrite last_cons_cons. by destruct (last (c' :: cs')) eqn:Hl; [|apply last_None in Hl].
  - destruct (last (filter _ cs)); [done|].
    destruct (kept kc) eqn:Hkept; [|done].
    apply get_set_ne. intros ->. by apply Hk.
Qed.

Section KeyedLoaders.

Context `{!UrlParse.UrlChecks}.

Variable f : Csv.source.
Variable cleaned : list row.
Hypothesis Hfault : Csv.fault f = None.
Hypothesis Hclean : cleaned_to (Csv.rows f) cleaned.

Lemma load_shopify_data_keyed (data_dict : dict str row) :
  exists data_dict',
    Analyze.load_shopify_data f data_dict = (inr tt, data_dict')
    /\ forall k,
         PyDict.get k data_dict'
         = match last_kept Script.Handle (nonempty_not_label Script.Handle) k cleaned with
           | Some c => Some c
           | None => PyDict.get k data_dict
           end.
Proof.
  eexists. split.
  - unfold Analyze.load_shopify_data. apply try_except_return.
    rewrite for_rows_no_fault by exact Hfault.
    etrans.
    { apply (foldM_cleaned
               (fun (_ : unit) c =>
                  when (truthy (PyDict.get_default Script.Handle [] c)
                        && bool_decide (PyDict.get_default Script.Handle [] c ≠ Script.Handle))
                    (modify (PyDict.set (PyDict.get_default Script.Handle [] c) c)))
               _ _ Hclean). }
    apply (foldM_state _
             (fun d c => if nonempty_not_label Script.Handle (PyDict.get_default Script.Handle [] c)
                         then PyDict.set (PyDict.get_default Script.Handle [] c) c d else d)).
    intros c d. unfold nonempty_not_label. by destruct (_ && _).
  - intros k. apply get_fold_keyed.
Qed.

Lemma load_csv_data_keyed (s : list ShowUpdated.collection) :
  exists data s',
    ShowUpdated.load_csv_data f s = (inr data, s')
    /\ forall k,
         PyDict.get k data
         = last_kept Script.Handle (nonempty_not_label Script.Handle) k cleaned.
Proof.
  destruct (foldM_value
    (fun (data : dict str row) (c : row) =>
       @ret (list ShowUpdated.collection) _
         (if truthy (PyDict.get_default Script.Handle [] c)
             && bool_decide (PyDict.get_default Script.Handle [] c ≠ Script.Handle)
          then PyDict.set (PyDict.get_default Script.Handle [] c) c data else data))
    (fun d c => if nonempty_not_label Script.Handle (PyDict.get_default Script.Handle [] c)
                then PyDict.set (PyDict.get_default Script.Handle [] c) c d else d)
    ltac:(intros acc x s0; by exists s0) cleaned [] s) as [s' Hrun].
  eexists _, s'. split.
  - unfold ShowUpdated.load_csv_data. apply try_except_return.
    rewrite for_rows_no_fault by exact Hfault.
    etrans; [|exact Hrun].
    apply (foldM_cleaned _ _ _ Hclean).
  - intros k. rewrite get_fold_keyed. by destruct (last_kept _ _ _ _).
Qed.

Lemma load_csv_file_keyed_by_id (s : Validate.state) :
  exists data s',
    Validate.load_csv_file f false s = (inr data, s')
    /\ forall k, PyDict.get k data = last_kept Validate.ID nonempty_key k cleaned.
Proof.
  destruct (foldM_value
    (fun (data : dict str row) (c : row) =>
       @ret Validate.state _
         (if truthy (PyDict.get_default Validate.ID [] c)
          then PyDict.set (PyDict.get_default Validate.ID [] c) c data else data))
    (fun d c => if nonempty_key (PyDict.get_default Validate.ID [] c)
                then PyDict.set (PyDict.get_default Validate.ID [] c) c d else d)
    ltac:(intros acc x s0; by exists s0) cleaned [] s) as [s' Hrun].
  eexists _, s'. split.
  - unfold Validate.load_csv_file. apply try_except_return.
    rewrite for_rows_no_fault by exact Hfault.
    etrans; [|exact Hrun].
    apply (foldM_cleaned _ _ _ Hclean).
  - intros k. rewrite get_fold_keyed. by destruct (last_kept _ _ _ _).
Qed.

Lemma url_step (acc : dict str row) (x : row) (s0 : Validate.state) :
  exists s',
    (let url := PyDict.get_default Script.URL [] x in
     if truthy url then
       let data := PyDict.set url x acc in
       match extract_handle_from_url url with
       | Some handle =>
           when (truthy handle) (modify (Validate.with_content_map (insert handle x)));;
           ret data
       | None => ret data
       end
     else ret acc) s0
    = (inr (if nonempty_key (PyDict.get_default Script.URL [] x)
            then PyDict.set (PyDict.get_default Script.URL [] x) x acc else acc), s').
Proof.
  unfold nonempty_key; cbv zeta.
  destruct (truthy (PyDict.get_default Script.URL [] x)); [|by exists s0].
  destruct (extract_handle_from_url _) as [h|]; [|by exists s0].
  unfold bind, when, modify, ret. destruct (truthy h); by eexists.
Qed.

Lemma load_csv_file_keyed_by_url (s : Validate.state) :
  exists data s',
    Validate.load_csv_file f true s = (inr data, s')
    /\ forall k, PyDict.get k data = last_kept Script.URL nonempty_key k cleaned.
Proof.
  destruct (foldM_value _ _ url_step cleaned [] s) as [s' Hrun].
  eexists _, s'. split.
  - unfold Validate.load_csv_file. apply try_except_return.
    rewrite for_rows_no_fault by exact Hfault.
    etrans; [|exact Hrun].
    apply (foldM_cleaned _ _ _ Hclean).
  - intros k. rewrite get_fold_keyed. by destruct (last_kept _ _ _ _).
Qed.

End KeyedLoaders.

(** C6 (amended): for a file read without an exception, the loaders keyed
    by [Handle] ([load_shopify_data], [load_csv_data]) skip a row exactly
    when its handle is empty or is the label [Handle]; the loader keyed by
    [ID] or by [URL] ([load_csv_file]) skips a row exactly when its key is
    empty.  Every other row is kept, and the value of a key is the last row
    kept with that key. *)
Theorem keyed_loaders_keep_last_row `{!UrlParse.UrlChecks}
    (f : Csv.source) (cleaned : list row) :
  Csv.fault f = None ->
  cleaned_to (Csv.rows f) cleaned ->
  (forall data_dict, exists data_dict',
     Analyze.load_shopify_data f data_dict = (inr tt, data_dict')
     /\ forall k,
          PyDict.get k data_dict'
          = match last_kept Script.Handle (nonempty_not_label Script.Handle) k cleaned with
            | Some c => Some c
            | None => PyDict.get k data_dict
            end)
  /\ (forall s, exists data s',
        ShowUpdated.load_csv_data f s = (inr data, s')
        /\ forall k,
             PyDict.get k data
             = last_kept Script.Handle (nonempty_not_label Script.Handle) k cleaned)
  /\ (forall s, exists data s',
        Validate.load_csv_file f false s = (inr data, s')
        /\ forall k, PyDict.get k data = last_kept Validate.ID nonempty_key k cleaned)
  /\ (forall s, exists data s',
        Validate.load_csv_file f true s = (inr data, s')
        /\ forall k, PyDict.get k data = last_kept Script.URL nonempty_key k cleaned).
Proof.
  intros Hf Hc. split; [|split; [|split]].
  - intros d. by apply load_shopify_data_keyed.
  - intros s. by apply load_csv_data_keyed.
  - intros s. by apply load_csv_file_keyed_by_id.
  - intros s. by apply load_csv_file_keyed_by_url.
Qed.

Lemma export_with_label_row_cleaning :
  cleaned_to (Csv.rows export_with_label_row) export_with_label_row_cleaned.
Proof. repeat constructor. Qed.

Lemma keyed_loaders_keep_last_row_witness :
  Csv.fault export_with_label_row = None /\
  cleaned_to (Csv.rows export_with_label_row) export_with_label_row_cleaned /\
  (forall data_dict, exists data_dict',
     Analyze.load_shopify_data export_with_label_row data_dict = (inr tt, data_dict')
     /\ forall k,
          PyDict.get k data_dict'
          = match last_kept Script.Handle (nonempty_not_label Script.Handle) k
                    export_with_label_row_cleaned with
            | Some c => Some c
            | None => PyDict.get k data_dict
            end)
  /\ (forall s, exists data s',
        ShowUpdated.load_csv_data export_with_label_row s = (inr data, s')
        /\ forall k,
             PyDict.get k data
             = last_kept Script.Handle (nonempty_not_label Script.Handle) k
                 export_with_label_row_cleaned)
  /\ (forall s, exists data s',
        @Validate.load_csv_file lenient_checks export_with_label_row false s = (inr data, s')
        /\ forall k,
             PyDict.get k data
             = last_kept Validate.ID nonempty_key k export_with_label_row_cleaned)
  /\ (forall s, exists data s',
        @Validate.load_csv_file lenient_checks export_with_label_row true s = (inr data, s')
        /\ forall k,
             PyDict.get k data
             = last_kept Script.URL nonempty_key k export_with_label_row_cleaned).
Proof.
  split; [reflexivity|]. split; [repeat constructor|].
  apply (@keyed_loaders_keep_last_row lenient_checks export_with_label_row
           export_with_label_row_cleaned); [reflexivity|repeat constructor].
Defined.

(** C6 as stated fails for the loader keyed by [ID]: the record whose key
    is the header label [ID] itself is kept.  The loader keyed by
    [Handle] skips it. *)
Lemma load_csv_file_keeps_label_row :
  (@Validate.load_csv_file lenient_checks export_with_label_row false validation_init).1
  = inr [(py "1", [(py "ID", py "1"); (py "Handle", py "tacori");
                   (py "Title", py "Tacori again")]);
         (py "ID", [(py "ID", py "ID"); (py "Handle", py "Handle");
                    (py "Title", py "Title")])]
  /\ Analyze.load_shopify_data export_with_label_row []
     = (inr tt, [(py "tacori", [(py "ID", py "1"); (py "Handle", py "tacori");
                                (py "Title", py "Tacori again")])]).
Proof. split; reflexivity. Qed.

(** ** Dictionaries built by assignment have distinct keys *)

Section DictWf.

Context {K V : Type} `{EqDecision K}.

Lemma keys_set (k : K) (v : V) (d : dict K V) :
  PyDict.keys (PyDict.set k v d)
  = if decide (k ∈ PyDict.keys d) then PyDict.keys d else PyDict.keys d ++ [k].
Proof.
  unfold PyDict.keys. induction d as [|[k' v'] d IH]; cbn.
  - rewrite decide_False; [done|]. by intros ?%elem_of_nil.
  - destruct (decide (k' = k)) as [->|Hne]; cbn.
    + rewrite decide_True; [done|]. apply elem_of_cons. by left.
    + rewrite IH. destruct (decide (k ∈ d.*1)) as [Hin|Hnin].
      * rewrite decide_True; [done|]. apply elem_of_cons. by right.
      * rewrite decide_False; [done|]. intros [?|?]%elem_of_cons; [congruence|done].
Qed.

Lemma set_wf (k : K) (v : V) (d : dict K V) : PyDict.wf d -> PyDict.wf (PyDict.set k v d).
Proof.
  unfold PyDict.wf. rewrite keys_set. case_decide as Hin; [done|].
  intros Hnd. apply NoDup_app. split; [done|]. split.
  - intros x Hx ->%list_elem_of_singleton. done.
  - apply NoDup_singleton.
Qed.

End DictWf.

Lemma foldM_invariant {S A B} (P : B -> Prop) (body : B -> A -> M S B) :
  (forall acc x s acc' s', P acc -> body acc x s = (inr acc', s') -> P acc') ->
  forall (l : list A) (acc : B) (s : S) (acc' : B) (s' : S),
    P acc -> foldM body acc l s = (inr acc', s') -> P acc'.
Proof.
  intros Hb. induction l as [|x l IH]; intros acc s acc' s' Hacc.
  - cbn. unfold ret. by intros [= <- _].
  - cbn [foldM]. unfold bind.
    destruct (body acc x s) as [[e|acc1] s1] eqn:H1; [done|].
    apply IH. by eapply Hb.
Qed.

Section LoadedWf.

Context {checks : UrlParse.UrlChecks}.

(** Whatever [load_csv_file] returns is a dictionary with distinct keys. *)
Lemma load_csv_file_wf (f : Csv.source) (is_plp : bool) (s s' : Validate.state)
    (data : dict str row) :
  Validate.load_csv_file f is_plp s = (inr data, s') -> PyDict.wf data.
Proof.
  unfold Validate.load_csv_file, try_except.
  assert (Hnil : PyDict.wf (@nil (str * row))) by apply NoDup_nil_2.
  destruct is_plp.
  - match goal with |- context [for_rows f ?b ?a s] =>
      destruct (for_rows f b a s) as [[e|d0] s0] eqn:Hrun end.
    { unfold ret. by intros [= <- _]. }
    intros [= <- _]. unfold for_rows, bind in Hrun.
    match type of Hrun with context [foldM ?b ?a ?l s] =>
      destruct (foldM b a l s) as [[e|d1] s1] eqn:Hfold end; [done|].
    assert (d1 = d0) as <-.
    { destruct (Csv.fault f); [done|]. unfold ret in Hrun. congruence. }
    eapply foldM_invariant; [|exact Hnil|exact Hfold].
    intros acc r st acc' st' Hacc. unfold bind, lift.
    destruct (cleaned_row r) as [e|c]; [done|]. cbv zeta.
    destruct (truthy _); [|unfold ret; by intros [= <- _]].
    destruct (extract_handle_from_url _) as [h|].
    + unfold when, modify, ret. destruct (truthy h); intros [= <- _]; by apply set_wf.
    + unfold ret. intros [= <- _]. by apply set_wf.
  - match goal with |- context [for_rows f ?b ?a s] =>
      destruct (for_rows f b a s) as [[e|d0] s0] eqn:Hrun end.
    { unfold ret. by intros [= <- _]. }
    intros [= <- _]. unfold for_rows, bind in Hrun.
    match type of Hrun with context [foldM ?b ?a ?l s] =>
      destruct (foldM b a l s) as [[e|d1] s1] eqn:Hfold end; [done|].
    assert (d1 = d0) as <-.
    { destruct (Csv.fault f); [done|]. unfold ret in Hrun. congruence. }
    eapply foldM_invariant; [|exact Hnil|exact Hfold].
    intros acc r st acc' st' Hacc. unfold bind, lift.
    destruct (cleaned_row r) as [e|c]; [done|].
    unfold ret. intros [= <- _]. destruct (truthy _); [by apply set_wf|done].
Qed.

End LoadedWf.

(** ** The change reporter *)

Lemma changed_bool (attr : str) (o u : row) :
  bool_decide (PyDict.get_default attr [] o <> PyDict.get_default attr [] u)
  && truthy (PyDict.get_default attr [] u) = true
  <-> changed attr o u.
Proof.
  unfold changed. rewrite andb_true_iff, bool_decide_eq_true.
  destruct (PyDict.get_default attr [] u); cbn; intuition congruence.
Qed.

Lemma get_Some_elem_of {V} (k : str) (v : V) (d : dict str V) :
  PyDict.get k d = Some v -> (k, v) ∈ d.
Proof.
  induction d as [|[k' v'] d IH]; cbn; [done|].
  case_decide as Hk.
  - intros [= ->]. subst. apply elem_of_cons. by left.
  - intros H. apply elem_of_cons. right. by apply IH.
Qed.

Lemma elem_of_get_Some {V} (k : str) (v : V) (d : dict str V) :
  PyDict.wf d -> (k, v) ∈ d -> PyDict.get k d = Some v.
Proof.
  unfold PyDict.wf, PyDict.keys.
  induction d as [|[k' v'] d IH]; cbn; [by intros _ ?%elem_of_nil|].
  intros [Hnotin Hnd]%NoDup_cons [[= -> ->]|Hin]%elem_of_cons.
  - by rewrite decide_True.
  - rewrite decide_False; [by apply IH|].
    intros ->. apply Hnotin. apply list_elem_of_fmap. by exists (k, v).
Qed.

Section Lines.

Import Validate.


Lemma find_changes_step_app (original : dict str row) (cs : list change_info)
    (item : str * row) :
  find_changes_step original cs item = cs ++ find_changes_step original [] item.
Proof.
  unfold find_changes_step. destruct item as [k u].
  destruct (PyDict.get k original) as [o|]; [|by rewrite app_nil_r].
  destruct (negb (truthy o)); [by rewrite app_nil_r|].
  destruct (truthy _); [done|by rewrite app_nil_r].
Qed.

Lemma find_changes_fold (original : dict str row) (items : list (str * row)) :
  forall cs,
    fold_left (find_changes_step original) items cs
    = cs ++ flat_map (find_changes_step original []) items.
Proof.
  induction items as [|item items IH]; intros cs; cbn [fold_left flat_map].
  - by rewrite app_nil_r.
  - rewrite IH, find_changes_step_app. by rewrite <- app_assoc.
Qed.





End Lines.

Section CollectionLines.

Variable base_url : str.

Import ShowUpdated.


Lemma find_updated_step_app (original : dict str row) (cs : list collection)
    (item : str * row) :
  find_updated_step base_url original cs item = cs ++ find_updated_step base_url original [] item.
Proof.
  unfold find_updated_step. destruct item as [k u].
  destruct (PyDict.get k original) as [o|]; [|by rewrite app_nil_r].
  destruct (negb (truthy o)); [by rewrite app_nil_r|].
  destruct (truthy _); [done|by rewrite app_nil_r].
Qed.

Lemma find_updated_fold (original : dict str row) (items : list (str * row)) :
  forall cs,
    fold_left (find_updated_step base_url original) items cs
    = cs ++ flat_map (find_updated_step base_url original []) items.
Proof.
  induction items as [|item items IH]; intros cs; cbn [fold_left flat_map].
  - by rewrite app_nil_r.
  - rewrite IH, find_updated_step_app. by rewrite <- app_assoc.
Qed.

Lemma find_updated_step_id (original : dict str row) (k : str) (u : row) (e : collection) :
  e ∈ find_updated_step base_url original [] (k, u) -> handle e = k.
Proof.
  unfold find_updated_step.
  destruct (PyDict.get k original) as [o|]; [|by intros ?%elem_of_nil].
  destruct (negb (truthy o)); [by intros ?%elem_of_nil|].
  destruct (truthy _); [|by intros ?%elem_of_nil].
  by intros ->%list_elem_of_singleton.
Qed.




End CollectionLines.

(** *** Record collections *)




Section LoadedRecords.

Context {checks : UrlParse.UrlChecks}.


End LoadedRecords.




(** ** Round trip of the destination file *)

Section DictAppend.

Context {K V : Type} `{EqDecision K}.

Lemma set_fresh (k : K) (v : V) (d : dict K V) :
  k ∉ PyDict.keys d -> PyDict.set k v d = d ++ [(k, v)].
Proof.
  unfold PyDict.keys. induction d as [|[k' v'] d IH]; cbn; [done|].
  intros Hk. apply not_elem_of_cons in Hk as [Hne Hk].
  rewrite decide_False by done. by rewrite IH.
Qed.

Lemma fold_set_fresh {A} (kf : A -> K) (vf : A -> V) (items : list A) :
  forall d0 : dict K V,
    NoDup (kf <$> items) ->
    (forall x, x ∈ items -> kf x ∉ PyDict.keys d0) ->
    fold_left (fun d x => PyDict.set (kf x) (vf x) d) items d0
    = d0 ++ ((fun x => (kf x, vf x)) <$> items).
Proof.
  induction items as [|x items IH]; intros d0 Hnd Hfresh; cbn.
  - by rewrite app_nil_r.
  - cbn in Hnd. apply NoDup_cons in Hnd as [Hx Hnd].
    rewrite set_fresh by (apply Hfresh; apply elem_of_cons; by left).
    rewrite IH; [by rewrite <- app_assoc|done|].
    intros y Hy. unfold PyDict.keys. rewrite fmap_app. cbn.
    intros [Hin|Hin%list_elem_of_singleton]%elem_of_app.
    + eapply Hfresh; [|exact Hin]. apply elem_of_cons. by right.
    + apply Hx. rewrite <- Hin. apply list_elem_of_fmap. by exists y.
Qed.


End DictAppend.

Lemma zip_fst_take {A B} (l : list A) (k : list B) : (zip l k).*1 = take (length k) l.
Proof.
  revert k. induction l as [|x l IH]; intros [|y k]; cbn; try done.
  by rewrite IH.
Qed.


Lemma fmap_Some_fst {A B} (l : list (A * B)) :
  (fun kv : A * B => Some kv.1) <$> l = Some <$> l.*1.
Proof. by rewrite <- list_fmap_compose. Qed.

Lemma strip_truthy (p : char -> bool) (s : str) :
  (if truthy s then strip p s else []) = strip p s.
Proof. by destruct s. Qed.

(** Cleaning a row item by item: when the cleaned keys are pairwise
    distinct, the cleaned row lists the cleaned items in order. *)
Lemma rfold_cleaned (items : list (option str * Csv.value)) :
  forall (out acc : row),
    Forall2 (fun kv kv' => clean_field_name kv.1 = kv'.1 /\ clean_value kv.2 = inr kv'.2)
            items out ->
    NoDup (out.*1) ->
    (forall k, k ∈ out.*1 -> k ∉ PyDict.keys acc) ->
    rfold (fun cleaned kv =>
             rbind (clean_value kv.2)
                   (fun v => inr (PyDict.set (clean_field_name kv.1) v cleaned)))
          acc items
    = inr (acc ++ out).
Proof.
  induction items as [|[ko v] items IH]; intros out acc Hall Hnd Hfresh.
  - apply Forall2_nil_inv_l in Hall as ->. cbn. by rewrite app_nil_r.
  - apply Forall2_cons_inv_l in Hall as ([k' v'] & out' & [Hk Hv] & Hall & ->).
    cbn in Hk, Hv, Hnd. apply NoDup_cons in Hnd as [Hk' Hnd].
    cbn [rfold]. cbn [fst snd]. rewrite Hv, Hk. cbn [rbind].
    rewrite set_fresh by (apply Hfresh; cbn; apply elem_of_cons; by left).
    rewrite (IH out'); [by rewrite <- app_assoc|done|done|].
    intros k Hin. unfold PyDict.keys. rewrite fmap_app. cbn.
    intros [Hacc|Heq%list_elem_of_singleton]%elem_of_app; [|by subst].
    eapply Hfresh; [|exact Hacc]. cbn. apply elem_of_cons. by right.
Qed.

Section Records.

Variable names : list str.
Hypothesis Hnodup : NoDup names.
Hypothesis Hclean : Forall (fun n => clean_field_name (Some n) = n) names.

(** The [DictReader] row of a record that is not longer than the header. *)
Lemma dict_of_record_short (r : list str) :
  length r <= length names ->
  Csv.dict_of_record names r
  = ((fun kv => (Some kv.1, Csv.VStr kv.2)) <$> zip names r)
    ++ ((fun k => (Some k, Csv.VNone)) <$> drop (length r) names).
Proof.
  intros Hlen. unfold Csv.dict_of_record.
  assert (Hzip : NoDup ((fun kv : str * str => Some kv.1) <$> zip names r)).
  { rewrite fmap_Some_fst. apply NoDup_fmap_2; [apply _|].
    rewrite zip_fst_take. eapply sublist_NoDup; [exact Hnodup|apply sublist_take]. }
  rewrite (fold_set_fresh (fun kv : str * str => Some kv.1) (fun kv => Csv.VStr kv.2))
    by (done || by intros ? _ ?%elem_of_nil).
  cbn [app].
  destruct (Nat.ltb_spec (length names) (length r)) as [|_]; [lia|].
  destruct (Nat.ltb_spec (length r) (length names)) as [Hlt|Hge].
  - rewrite (fold_set_fresh (fun k : str => Some k) (fun _ => Csv.VNone)); [done| |].
    + apply NoDup_fmap_2; [apply _|]. eapply sublist_NoDup; [exact Hnodup|apply sublist_drop].
    + intros k Hk. unfold PyDict.keys. rewrite <- list_fmap_compose.
      change (fst ∘ _) with (fun kv : str * str => Some kv.1).
      rewrite fmap_Some_fst, zip_fst_take.
      intros (k' & [= <-] & Hin)%list_elem_of_fmap.
      rewrite <- (take_drop (length r) names) in Hnodup.
      apply NoDup_app in Hnodup as (_ & Hdisj & _). by eapply Hdisj.
  - rewrite drop_ge by lia. by rewrite app_nil_r.
Qed.

Lemma cleaned_record_keys (r : list str) :
  length r <= length names -> PyDict.keys (cleaned_record names r) = names.
Proof.
  intros Hlen. unfold PyDict.keys, cleaned_record.
  rewrite fmap_app, <- !list_fmap_compose.
  change (fst ∘ _) with (@fst str str) at 1.
  rewrite zip_fst_take, list_fmap_id. apply take_drop.
Qed.


Lemma cleaned_row_short (r : list str) :
  length r <= length names ->
  cleaned_row (Csv.dict_of_record names r) = inr (cleaned_record names r).
Proof.
  intros Hlen. rewrite dict_of_record_short by done.
  unfold cleaned_row, PyDict.items.
  rewrite (rfold_cleaned _ (cleaned_record names r) []); [done| | |by intros ? _ ?%elem_of_nil].
  - unfold cleaned_record. apply Forall2_app.
    + apply Forall2_fmap, Forall_Forall2_diag, Forall_forall.
      intros [k c] Hin. cbn [fst snd]. split.
      * rewrite Forall_forall in Hclean. apply Hclean.
        apply (list_elem_of_fmap_2 fst) in Hin. rewrite zip_fst_take in Hin. cbn [fst] in Hin.
        eapply elem_of_sublist; [exact Hin|apply sublist_take].
      * unfold clean_value. by rewrite strip_truthy.
    + apply Forall2_fmap, Forall_Forall2_diag, Forall_forall.
      intros k Hin. cbn [fst snd]. split; [|done].
      rewrite Forall_forall in Hclean. apply Hclean.
      eapply elem_of_sublist; [exact Hin|apply sublist_drop].
  - fold (PyDict.keys (cleaned_record names r)). by rewrite cleaned_record_keys.
Qed.


End Records.

Section RoundTrip.

Import Script.

Lemma alloc_loop (cs : list row) : forall (acc : list loc) (s : state),
  foldM (fun categories c => l <- alloc c;; ret (categories ++ [l])) acc cs s
  = (inr (acc ++ seq (length (store s)) (length cs)),
     with_store (fun h => h ++ cs) s).
Proof.
  induction cs as [|c cs IH]; intros acc s.
  - cbn. rewrite !app_nil_r. destruct s. unfold with_store. cbn. by rewrite app_nil_r.
  - cbn [foldM]. unfold bind at 1. unfold bind at 1. unfold alloc at 1. unfold ret at 1.
    rewrite IH. rewrite with_store_store, length_app. cbn [length].
    replace (length (store s) + 1) with (S (length (store s))) by lia.
    rewrite <- app_assoc. cbn [app seq].
    f_equal. destruct s. unfold with_store. cbn. by rewrite <- app_assoc.
Qed.


Section File.

Variable raw : list str.
Variable rs : list (list str).

Let names : list str := (fun n => clean_field_name (Some n)) <$> raw.
Let f : Csv.source := {| Csv.records := raw :: rs; Csv.fault := None |}.
Let data : list (list str) := filter (fun r => r ≠ []) rs.

Hypothesis Hnodup : NoDup names.
Hypothesis Hshort : Forall (fun r => length r <= length raw) data.




End File.








End RoundTrip.

(** ** The handle extractor *)

Lemma find_None (c : char) (s : str) : find c s = None <-> c ∉ s.
Proof.
  induction s as [|d s IH]; cbn.
  - split; [intros _ ?%elem_of_nil; done|done].
  - destruct (N.eqb_spec d c) as [->|Hne].
    + split; [done|]. intros H. exfalso. apply H. apply elem_of_cons. by left.
    + rewrite fmap_None, IH, not_elem_of_cons. split; [by intros ?|by intros [_ ?]].
Qed.

Lemma find_Some (c : char) (s : str) (i : nat) :
  find c s = Some i <-> s !! i = Some c /\ c ∉ take i s.
Proof.
  revert i. induction s as [|d s IH]; intros i; cbn.
  - split; [done|]. by intros [? _].
  - destruct (N.eqb_spec d c) as [->|Hne].
    + split.
      * intros [= <-]. split; [done|]. cbn. by intros ?%elem_of_nil.
      * intros [Hi Hn]. destruct i as [|i]; [done|]. exfalso. apply Hn.
        cbn. apply elem_of_cons. by left.
    + rewrite fmap_Some. split.
      * intros (j & Hj & ->). apply IH in Hj as [Hj Hn]. split; [done|].
        cbn. by apply not_elem_of_cons.
      * intros [Hi Hn]. destruct i as [|i]; [cbn in Hi; congruence|].
        exists i. split; [|done]. apply IH. split; [done|].
        cbn in Hn. by apply not_elem_of_cons in Hn as [_ ?].
Qed.

Lemma find_app_l (c : char) (a b : str) (i : nat) :
  find c a = Some i -> find c (a ++ b) = Some i.
Proof.
  intros [Hi Hn]%find_Some. apply find_Some.
  assert (i < length a) by (by eapply lookup_lt_Some).
  split; [by rewrite lookup_app_l|]. by rewrite take_app_le by lia.
Qed.

Lemma find_app_r (c : char) (a b : str) :
  c ∉ a -> find c (a ++ b) = (fun j => length a + j) <$> find c b.
Proof.
  intros Hn. induction a as [|d a IH]; cbn.
  - by destruct (find c b).
  - apply not_elem_of_cons in Hn as [Hne Hn].
    destruct (N.eqb_spec d c) as [->|_]; [done|].
    rewrite IH by done. by destruct (find c b).
Qed.

Lemma find_here (c : char) (a b : str) :
  c ∉ a -> find c (a ++ c :: b) = Some (length a).
Proof.
  intros Hn. rewrite find_app_r by done. cbn. rewrite N.eqb_refl. cbn. f_equal. lia.
Qed.

(** Splitting *)

Lemma split_no_sep (sep : char) (s : str) : sep ∉ s -> split sep s = [s].
Proof.
  induction s as [|c s IH]; [done|].
  intros [Hne Hn]%not_elem_of_cons. cbn.
  destruct (N.eqb_spec c sep) as [->|_]; [done|]. by rewrite IH.
Qed.

Lemma split_nonempty (sep : char) (s : str) : split sep s <> [].
Proof.
  destruct s as [|c s]; cbn; [done|].
  destruct (c =? sep)%N; [done|]. by destruct (split sep s).
Qed.

Lemma split_app_sep (sep : char) (a b : str) :
  split sep (a ++ sep :: b) = split sep a ++ split sep b.
Proof.
  induction a as [|c a IH]; cbn.
  - by rewrite N.eqb_refl.
  - destruct (N.eqb_spec c sep) as [->|_].
    + by rewrite IH.
    + rewrite IH. destruct (split sep a) as [|seg segs] eqn:Hs; [|done].
      by apply split_nonempty in Hs.
Qed.

(** Segments of a stripped path *)

Section Segments.

Let slash : char := chr "/".
Let is_slash : char -> bool := N.eqb slash.

Lemma is_slash_true (c : char) : is_slash c = true <-> c = slash.
Proof. unfold is_slash. rewrite N.eqb_eq. split; congruence. Qed.

Lemma is_slash_false (c : char) : is_slash c = false <-> c <> slash.
Proof. unfold is_slash. rewrite N.eqb_neq. split; congruence. Qed.

Lemma no_segment_holds (path : str) : no_segment path <-> holds_all is_slash path.
Proof.
  unfold no_segment, holds_all. rewrite !Forall_forall.
  split; intros H c Hc; apply is_slash_true; by apply H.
Qed.

Lemma kept_segments_none (path : str) : no_segment path -> kept_segments path = [].
Proof.
  intros H%no_segment_holds. unfold kept_segments, strip.
  rewrite lstrip_all by done. reflexivity.
Qed.

Lemma strip_last_segment (pre seg post : str) :
  seg <> [] -> slash ∉ seg -> holds_all is_slash post ->
  strip is_slash (pre ++ seg ++ post) = lstrip is_slash pre ++ seg.
Proof.
  intros Hne Hns Hpost. unfold strip.
  destruct seg as [|c0 seg0]; [done|].
  assert (Hc0 : is_slash c0 = false).
  { apply is_slash_false. intros ->. apply Hns. apply elem_of_cons. by left. }
  cbn [app]. rewrite lstrip_app_stop by done.
  destruct (last_is_Some (c0 :: seg0)) as [_ Hl]. destruct Hl as [cl Hcl]; [done|].
  apply last_Some in Hcl as [seg1 Hseg].
  assert (Hcl : is_slash cl = false).
  { apply is_slash_false. intros ->. apply Hns. rewrite Hseg.
    apply elem_of_app. right. by apply list_elem_of_singleton. }
  change (c0 :: seg0 ++ post) with ((c0 :: seg0) ++ post).
  rewrite Hseg, <- !app_assoc. cbn [app].
  rewrite (app_assoc _ seg1). rewrite rstrip_app_stop by done.
  rewrite rstrip_all by done. by rewrite <- app_assoc.
Qed.

Lemma kept_segments_last (path seg : str) :
  last_segment path seg -> last (kept_segments path) = Some seg.
Proof.
  intros (Hne & Hns & pre & post & -> & Hpost & Hpre).
  apply no_segment_holds in Hpost.
  unfold kept_segments. rewrite strip_last_segment by done.
  destruct (lstrip_split is_slash pre) as (l & Hl & Hall & _).
  set (pre2 := lstrip is_slash pre) in *.
  assert (Hpre2 : pre2 = [] \/ exists x, pre2 = x ++ [slash]).
  { destruct pre2 as [|c p2] eqn:Hp2; [by left|right].
    destruct Hpre as [->|Hlast]; [by destruct l|].
    rewrite Hl, last_app in Hlast. cbn in Hlast.
    destruct (last (c :: p2)) as [cl|] eqn:Hcl; [|by apply last_None in Hcl].
    injection Hlast as ->. by apply last_Some in Hcl. }
  destruct Hpre2 as [->|[x ->]].
  - cbn [app]. rewrite split_no_sep by done.
    rewrite filter_cons, decide_True by (by destruct seg). by rewrite filter_nil.
  - rewrite <- app_assoc. cbn [app]. rewrite split_app_sep, (split_no_sep _ seg) by done.
    rewrite filter_app, filter_cons, decide_True by (by destruct seg).
    rewrite filter_nil. apply last_snoc.
Qed.

(** Every path has a last segment or none. *)
Lemma last_segment_total (path : str) :
  no_segment path \/ exists seg, last_segment path seg.
Proof.
  destruct (strip_split is_slash path) as (l & r & Hp & Hl & Hr & Hh & Ht).
  set (t := strip is_slash path) in *.
  destruct (decide (t = [])) as [Ht0|Ht0].
  - left. apply no_segment_holds. rewrite Hp, Ht0. cbn.
    unfold holds_all in *. by apply Forall_app.
  - right.
    destruct (lstrip_split (fun c => negb (is_slash c)) (reverse t)) as (seg' & Hrev & Hseg & Hstop).
    set (rest := lstrip (fun c => negb (is_slash c)) (reverse t)) in *.
    exists (reverse seg').
    assert (Ht' : t = reverse rest ++ reverse seg').
    { by rewrite <- reverse_app, <- Hrev, reverse_involutive. }
    assert (Hseg_ne : seg' <> []).
    { intros ->. cbn in Hrev.
      destruct (last t) as [cl|] eqn:Hcl; [|by apply last_None in Hcl].
      specialize (Ht cl eq_refl). specialize (Hstop cl).
      rewrite <- Hrev, head_reverse in Hstop. specialize (Hstop Hcl).
      rewrite Ht in Hstop. done. }
    split; [|split].
    + intros H%(f_equal reverse). rewrite reverse_involutive in H. done.
    + intros Hin. apply (proj1 (elem_of_reverse _ _)) in Hin.
      unfold holds_all in Hseg. rewrite Forall_forall in Hseg.
      apply Hseg in Hin. by vm_compute in Hin.
    + exists (l ++ reverse rest), r. split; [by rewrite Hp, Ht', <- !app_assoc|].
      split; [by apply no_segment_holds|].
      destruct (last rest) as [cr|] eqn:Hcr.
      * right. rewrite last_app.
        destruct rest as [|c0 rest0] eqn:Hrest; [done|].
        rewrite reverse_cons, last_snoc. f_equal.
        specialize (Hstop c0 eq_refl). apply negb_false_iff in Hstop.
        by apply is_slash_true in Hstop.
      * apply last_None in Hcr. rewrite Hcr. cbn. rewrite app_nil_r.
        destruct (last l) as [cl|] eqn:Hcl; [right|left; by apply last_None in Hcl].
        f_equal. unfold holds_all in Hl. rewrite Forall_forall in Hl.
        apply is_slash_true, Hl. by apply last_Some_elem_of.
Qed.

End Segments.

(** The regular expression *)

Lemma endswith_true (suffix s : str) :
  endswith suffix s = true <-> exists t, s = t ++ suffix.
Proof.
  unfold endswith. rewrite bool_decide_eq_true. split.
  - intros H. exists (take (length s - length suffix) s).
    rewrite <- (take_drop (length s - length suffix) s) at 1. by rewrite H.
  - intros [t ->]. rewrite length_app.
    replace (length t + length suffix - length suffix) with (length t) by lia.
    by rewrite drop_app_length.
Qed.

Lemma re_sub_html_spec (seg : str) :
  newline ∉ seg -> without_html_suffix seg (re_sub_html seg).
Proof.
  intros Hnl. unfold re_sub_html, without_html_suffix.
  destruct (endswith (py ".html") seg) eqn:He.
  - left. apply endswith_true in He as [t ->].
    rewrite length_app.
    replace (length t + length (py ".html") - length (py ".html")) with (length t) by lia.
    by rewrite take_app_length.
  - destruct (endswith (py ".html" ++ [newline]) seg) eqn:He2.
    + apply endswith_true in He2 as [t ->]. exfalso. apply Hnl.
      apply elem_of_app. right. apply elem_of_app. right. by apply list_elem_of_singleton.
    + right. split; [done|]. intros s ->.
      assert (endswith (py ".html") (s ++ py ".html") = true) by (apply endswith_true; eauto).
      congruence.
Qed.

(** The path handed to the extractor *)

Section UrlFacts.

Context {checks : UrlParse.UrlChecks}.

Import UrlParse.

Lemma clean_url_filter (url : str) :
  clean_url url
  = filter (fun c => c ≠ 10%N)
      (filter (fun c => c ≠ 13%N)
         (filter (fun c => c ≠ 9%N) (lstrip C0_CONTROL_OR_SPACE url))).
Proof. unfold clean_url. cbn [fold_left UNSAFE_URL_BYTES_TO_REMOVE]. by rewrite !replace_nil_filter. Qed.

Lemma clean_url_no_newline (url : str) : newline ∉ clean_url url.
Proof.
  rewrite clean_url_filter. intros [H _]%list_elem_of_filter. by apply H.
Qed.

Lemma split_scheme_sub (url : str) : (split_scheme url).2 ⊆ url.
Proof.
  unfold split_scheme. destruct (find _ url) as [[|i]|]; try done.
  destruct (_ && _); [|done]. apply subseteq_drop.
Qed.

Lemma split_authority_sub (url netloc rest : str) :
  split_authority url = inr (netloc, rest) -> rest ⊆ url.
Proof.
  unfold split_authority. case_bool_decide; [|by intros [= _ <-]].
  unfold splitnetloc.
  destruct (_ || _); [done|]. destruct (_ && _); [done|].
  intros [= _ <-]. apply subseteq_drop.
Qed.

Lemma split_once_sub (sep : char) (url u f : str) :
  split_once sep url = Some (u, f) -> u ⊆ url.
Proof.
  unfold split_once. destruct (find sep url) as [i|]; [|done].
  cbn. intros [= <- _]. apply subseteq_take.
Qed.

Lemma split_fragment_query_sub (url : str) : (split_fragment_query url).1.1 ⊆ url.
Proof.
  unfold split_fragment_query.
  destruct (split_once (chr "#") url) as [[u f]|] eqn:Hf.
  - apply split_once_sub in Hf.
    destruct (split_once (chr "?") u) as [[u' q]|] eqn:Hq; cbn; [|done].
    apply split_once_sub in Hq. by etrans.
  - destruct (split_once (chr "?") url) as [[u' q]|] eqn:Hq; cbn; [|done].
    by apply split_once_sub in Hq.
Qed.

Lemma removelast_sub (s : str) : removelast s ⊆ s.
Proof.
  induction s as [|c s IH]; [done|]. cbn. destruct s as [|d s]; [apply list_subseteq_nil|].
  by apply list_subseteq_skip.
Qed.

Lemma splitparams_sub (url : str) : (splitparams url).1 ⊆ url.
Proof.
  unfold splitparams. destruct (rfind _ url) as [r|].
  - destruct (find _ (drop r url)); cbn; [apply subseteq_take|done].
  - destruct (find _ url); cbn; [apply subseteq_take|apply removelast_sub].
Qed.

Lemma urlparse_path_sub (url : str) (parsed : ParseResult) :
  urlparse url = inr parsed -> path parsed ⊆ clean_url url.
Proof.
  unfold urlparse, urlsplit.
  pose proof (split_scheme_sub (clean_url url)) as H1.
  destruct (split_scheme (clean_url url)) as [sch u1]. cbn [snd] in H1.
  destruct (split_authority u1) as [e|[nl u2]] eqn:Ha; [done|].
  apply split_authority_sub in Ha.
  pose proof (split_fragment_query_sub u2) as H3.
  destruct (split_fragment_query u2) as [[u3 q] fr]. cbn [fst] in H3.
  destruct (_ && _ && _); [done|]. cbn [sr_scheme sr_path].
  assert (Hu3 : u3 ⊆ clean_url url) by (etrans; [exact H3|]; by etrans).
  destruct (_ && _).
  - pose proof (splitparams_sub u3) as H4. destruct (splitparams u3) as [u4 ps].
    intros [= <-]. cbn in *. by etrans.
  - by intros [= <-].
Qed.

Lemma path_of_no_newline (url p : str) : path_of url = Some p -> newline ∉ p.
Proof.
  unfold path_of. destruct (urlparse url) as [e|parsed] eqn:Hp; [done|].
  intros [= <-] Hin. apply (urlparse_path_sub _ _ Hp) in Hin.
  by apply clean_url_no_newline in Hin.
Qed.

Lemma extract_handle_unfold (url : str) :
  extract_handle_from_url url
  = if truthy url
    then match path_of url with
         | Some p => match last (kept_segments p) with
                     | Some handle => Some (re_sub_html handle)
                     | None => None
                     end
         | None => None
         end
    else None.
Proof.
  unfold extract_handle_from_url, path_of, kept_segments.
  destruct (truthy url); [|done]. cbn [negb].
  destruct (urlparse url) as [e|parsed]; [done|].
  by destruct (filter _ _).
Qed.

End UrlFacts.

(** Query strings and fragments *)

Section QueryFragment.

Context {checks : UrlParse.UrlChecks}.

Import UrlParse.

Variable c : char.
Hypothesis Hc : c = chr "?" \/ c = chr "#".

Lemma delim_not_C0 : C0_CONTROL_OR_SPACE c = false.
Proof. by destruct Hc as [-> | ->]. Qed.

Lemma clean_url_delim (base tail : str) :
  exists tail', clean_url (base ++ c :: tail) = clean_url base ++ c :: tail'.
Proof.
  rewrite !clean_url_filter. rewrite lstrip_app_stop by apply delim_not_C0.
  rewrite !filter_app, !filter_cons.
  eexists. f_equal.
  rewrite decide_True by (by destruct Hc as [-> | ->]).
  rewrite filter_cons, decide_True by (by destruct Hc as [-> | ->]).
  rewrite filter_cons, decide_True by (by destruct Hc as [-> | ->]).
  reflexivity.
Qed.

Lemma clean_url_sub (url : str) : clean_url url ⊆ url.
Proof.
  rewrite clean_url_filter. intros x Hx.
  apply list_elem_of_filter in Hx as [_ Hx].
  apply list_elem_of_filter in Hx as [_ Hx].
  apply list_elem_of_filter in Hx as [_ Hx].
  destruct (lstrip_split C0_CONTROL_OR_SPACE url) as (l & Hl & _).
  rewrite Hl. apply elem_of_app. by right.
Qed.

Lemma split_scheme_delim (b t : str) :
  split_scheme (b ++ c :: t) = ((split_scheme b).1, (split_scheme b).2 ++ c :: t).
Proof.
  unfold split_scheme.
  destruct (find (chr ":") b) as [i|] eqn:Hf.
  - rewrite (find_app_l _ _ _ _ Hf).
    destruct i as [|i']; [done|].
    apply find_Some in Hf as [Hi _].
    assert (Hlt : S i' < length b) by (by eapply lookup_lt_Some).
    rewrite take_app_le by lia.
    assert (Hhd : match b ++ c :: t with c0 :: _ => is_ascii_alpha c0 | [] => false end
                  = match b with c0 :: _ => is_ascii_alpha c0 | [] => false end).
    { destruct b; [cbn in Hlt; lia|done]. }
    rewrite Hhd. destruct (_ && _); [|done].
    cbn [fst snd]. f_equal. rewrite drop_app_le by lia. done.
  - apply find_None in Hf. rewrite find_app_r by done.
    cbn [find]. destruct (N.eqb_spec c (chr ":")) as [Heq|_].
    { destruct Hc as [-> | ->]; discriminate Heq. }
    destruct (find (chr ":") t) as [j|]; cbn [fmap option_fmap option_map]; [|done].
    replace (length b + S j) with (S (length b + j)) by lia.
    assert (Hall : forallb (fun c0 => char_in c0 scheme_chars)
                     (take (S (length b + j)) (b ++ c :: t)) = false).
    { rewrite take_app_ge by lia.
      replace (S (length b + j) - length b) with (S j) by lia. cbn [take].
      rewrite forallb_app. cbn [forallb].
      assert (char_in c scheme_chars = false) as -> by (by destruct Hc as [-> | ->]).
      cbn. apply andb_false_r. }
    rewrite Hall, andb_false_r. done.
Qed.

Lemma take2_delim (b t : str) :
  bool_decide (take 2 (b ++ c :: t) = py "//") = bool_decide (take 2 b = py "//").
Proof.
  assert (Hne : c <> chr "/") by (by destruct Hc as [-> | ->]).
  destruct b as [|x [|y b]]; cbn.
  - rewrite !bool_decide_eq_false_2; [done|done|]. intros [= H _]. by apply Hne.
  - rewrite !bool_decide_eq_false_2; [done|done|]. intros [= _ H]. by apply Hne.
  - done.
Qed.

(** The end of the network location does not move. *)
Lemma delim_eq (n t : str) :
  chr "?" ∉ n -> chr "#" ∉ n ->
  fold_left
    (fun delim ch =>
       match find ch (n ++ c :: t) with
       | Some w => Nat.min delim (2 + w)
       | None => delim
       end)
    [chr "/"; chr "?"; chr "#"] (2 + (length n + S (length t)))
  = fold_left
      (fun delim ch =>
         match find ch n with
         | Some w => Nat.min delim (2 + w)
         | None => delim
         end)
      [chr "/"; chr "?"; chr "#"] (2 + length n)
  /\ fold_left
       (fun delim ch =>
          match find ch n with
          | Some w => Nat.min delim (2 + w)
          | None => delim
          end)
       [chr "/"; chr "?"; chr "#"] (2 + length n) <= 2 + length n.
Proof.
  intros Hq Hh. cbn [fold_left].
  rewrite (proj2 (find_None (chr "?") n)), (proj2 (find_None (chr "#") n)) by done.
  rewrite !(find_app_r (chr "?") n), !(find_app_r (chr "#") n) by done.
  destruct (find (chr "/") n) as [w|] eqn:Hw.
  - rewrite (find_app_l _ _ _ _ Hw).
    apply find_Some in Hw as [Hw _]. apply lookup_lt_Some in Hw.
    destruct Hc as [-> | ->]; cbn [find]; rewrite ?N.eqb_refl;
      cbn [fmap option_fmap option_map];
      repeat (match goal with
              | |- context [if ?b then _ else _] => destruct b
              | |- context [find ?x t] => destruct (find x t)
              end; cbn [fmap option_fmap option_map]); lia.
  - apply find_None in Hw. rewrite (find_app_r _ n) by done.
    destruct Hc as [-> | ->]; cbn [find]; rewrite ?N.eqb_refl;
      cbn [fmap option_fmap option_map];
      repeat (match goal with
              | |- context [if ?b then _ else _] => destruct b
              | |- context [find ?x t] => destruct (find x t)
              end; cbn [fmap option_fmap option_map]); lia.
Qed.

Lemma splitnetloc_delim (n t : str) (pre : str) :
  length pre = 2 -> chr "?" ∉ n -> chr "#" ∉ n ->
  splitnetloc (pre ++ n ++ c :: t) 2
  = ((splitnetloc (pre ++ n) 2).1, (splitnetloc (pre ++ n) 2).2 ++ c :: t).
Proof.
  intros Hpre Hq Hh. unfold splitnetloc.
  rewrite (drop_app_length' pre (n ++ c :: t) 2), (drop_app_length' pre n 2) by done.
  rewrite !length_app, Hpre. cbn [length].
  change (py "/?#") with [chr "/"; chr "?"; chr "#"].
  destruct (delim_eq n t Hq Hh) as [-> Hle].
  set (d := fold_left _ _ _) in *.
  cbn [fst snd]. f_equal.
  - rewrite take_app_le by lia. done.
  - rewrite (app_assoc pre n). rewrite drop_app_le by (rewrite length_app; lia). done.
Qed.

Lemma split_authority_delim (b t : str) :
  chr "?" ∉ b -> chr "#" ∉ b ->
  split_authority (b ++ c :: t)
  = match split_authority b with
    | inl e => inl e
    | inr (netloc, rest) => inr (netloc, rest ++ c :: t)
    end.
Proof.
  intros Hq Hh. unfold split_authority. rewrite take2_delim.
  case_bool_decide as H2; [|done].
  assert (Hb : b = take 2 b ++ drop 2 b) by (by rewrite take_drop).
  assert (Hlen : length (take 2 b) = 2) by (by rewrite H2).
  rewrite Hb at 1. rewrite <- app_assoc.
  rewrite splitnetloc_delim.
  - rewrite <- Hb. destruct (splitnetloc b 2) as [nl rest]. cbn [fst snd].
    destruct (_ || _); [done|]. by destruct (_ && _).
  - done.
  - intros Hin. apply Hq. by eapply subseteq_drop.
  - intros Hin. apply Hh. by eapply subseteq_drop.
Qed.

Lemma split_fragment_query_delim (r t : str) :
  chr "?" ∉ r -> chr "#" ∉ r ->
  (split_fragment_query (r ++ c :: t)).1.1 = r
  /\ (split_fragment_query r).1.1 = r.
Proof.
  intros Hq Hh. split.
  - unfold split_fragment_query, split_once.
    destruct Hc as [-> | ->].
    + rewrite (find_app_r (chr "#")) by done. cbn [find].
      change (chr "?" =? chr "#")%N with false. cbv iota.
      destruct (find (chr "#") t) as [j|]; cbn [fmap option_fmap option_map mbind option_bind].
      * rewrite take_app_ge by lia.
        replace (length r + S j - length r) with (S j) by lia. cbn [take].
        rewrite find_here by done. cbn [mbind option_bind].
        rewrite take_app_length. done.
      * rewrite find_here by done. cbn [mbind option_bind].
        rewrite take_app_length. done.
    + rewrite find_here by done. cbn [mbind option_bind].
      rewrite take_app_length.
      rewrite (proj2 (find_None (chr "?") r)) by done. done.
  - unfold split_fragment_query, split_once.
    rewrite (proj2 (find_None (chr "#") r)) by done. cbn [mbind option_bind].
    rewrite (proj2 (find_None (chr "?") r)) by done. done.
Qed.

Lemma path_of_delim (base tail : str) :
  chr "?" ∉ base -> chr "#" ∉ base ->
  path_of (base ++ c :: tail) = path_of base.
Proof.
  intros Hq Hh. unfold path_of, urlparse, urlsplit.
  destruct (clean_url_delim base tail) as [t' ->].
  rewrite split_scheme_delim.
  pose proof (clean_url_sub base) as Hb.
  pose proof (split_scheme_sub (clean_url base)) as H1.
  destruct (split_scheme (clean_url base)) as [sch u1]. cbn [fst snd] in *.
  assert (Hq1 : chr "?" ∉ u1) by (intros Hin; by apply Hq, Hb, H1).
  assert (Hh1 : chr "#" ∉ u1) by (intros Hin; by apply Hh, Hb, H1).
  rewrite split_authority_delim by done.
  destruct (split_authority u1) as [e|[nl u2]] eqn:Ha; [done|].
  apply split_authority_sub in Ha.
  assert (Hq2 : chr "?" ∉ u2) by (intros Hin; by apply Hq1, Ha).
  assert (Hh2 : chr "#" ∉ u2) by (intros Hin; by apply Hh1, Ha).
  destruct (split_fragment_query_delim u2 t' Hq2 Hh2) as [E1 E2].
  destruct (split_fragment_query (u2 ++ c :: t')) as [[p q] f].
  destruct (split_fragment_query u2) as [[p' q'] f'].
  cbn [fst] in E1, E2. subst p p'.
  destruct (_ && _ && _); [done|]. cbn [sr_scheme sr_path].
  destruct (_ && _); [|done].
  by destruct (splitparams u2).
Qed.

End QueryFragment.

(** C1: the handle extractor returns null for the empty URL and for a URL
    that cannot be parsed; otherwise it looks at the path component only:
    a path without a non-empty segment gives null, and a path with a last
    non-empty segment gives that segment with a trailing [.html] removed (one
    of the two always holds).  On the four URLs of the specification it
    returns [tacori], [tacori], null and null, and whatever follows the first
    [?] or [#] of a URL has no effect on the result. *)
Theorem extract_handle_from_url_spec {checks : UrlParse.UrlChecks} (url : str) :
  (url = [] -> extract_handle_from_url url = None)
  /\ (path_of url = None -> extract_handle_from_url url = None)
  /\ (forall p, url <> [] -> path_of url = Some p ->
        (no_segment p -> extract_handle_from_url url = None)
        /\ (forall seg, last_segment p seg ->
              exists handle,
                extract_handle_from_url url = Some handle
                /\ without_html_suffix seg handle)
        /\ (no_segment p \/ exists seg, last_segment p seg))
  /\ extract_handle_from_url (py "https://x.com/a/b/tacori.html") = Some (py "tacori")
  /\ extract_handle_from_url (py "https://x.com/a/b/tacori.html/") = Some (py "tacori")
  /\ extract_handle_from_url (py "https://x.com") = None
  /\ extract_handle_from_url (py "") = None
  /\ (forall base c tail,
        c = chr "?" \/ c = chr "#" -> chr "?" ∉ base -> chr "#" ∉ base ->
        extract_handle_from_url (base ++ c :: tail) = extract_handle_from_url base).
Proof.
  split; [by intros ->|].
  split.
  { intros Hp. rewrite extract_handle_unfold, Hp. by destruct (truthy url). }
  split.
  { intros p Hne Hp. rewrite extract_handle_unfold, Hp.
    destruct url as [|c0 url0]; [done|]. cbn [truthy].
    split; [|split].
    - intros Hn. by rewrite kept_segments_none.
    - intros seg Hseg. rewrite (kept_segments_last _ _ Hseg).
      eexists. split; [reflexivity|]. apply re_sub_html_spec.
      destruct Hseg as (_ & _ & pre & post & -> & _).
      intros Hin. apply (path_of_no_newline _ _ Hp).
      apply elem_of_app. right. apply elem_of_app. by left.
    - apply last_segment_total. }
  split; [by vm_compute|]. split; [by vm_compute|].
  split; [by vm_compute|]. split; [reflexivity|].
  intros base c tail Hc Hq Hh.
  rewrite !extract_handle_unfold, (path_of_delim c Hc base tail Hq Hh).
  destruct base as [|b0 base0]; [|done].
  cbn [app truthy].
  assert (Hp : path_of (@nil N) = Some []) by (by vm_compute).
  by rewrite Hp.
Qed.

Lemma extract_handle_from_url_spec_witness :
  let url := py "https://x.com/a/b/tacori.html?page=2#top" in
  let p := py "/a/b/tacori.html" in
  url <> [] /\
  @path_of lenient_checks url = Some p /\
  last_segment p (py "tacori.html") /\
  exists handle,
    @extract_handle_from_url lenient_checks url = Some handle
    /\ without_html_suffix (py "tacori.html") handle.
Proof.
  cbv zeta.
  assert (H1 : py "https://x.com/a/b/tacori.html?page=2#top" <> []) by done.
  assert (H2 : @path_of lenient_checks (py "https://x.com/a/b/tacori.html?page=2#top")
               = Some (py "/a/b/tacori.html")) by (by vm_compute).
  assert (H3 : last_segment (py "/a/b/tacori.html") (py "tacori.html")).
  { split; [done|]. split.
    - apply (bool_decide_unpack _). by vm_compute.
    - exists (py "/a/b/"), []. split; [reflexivity|]. split; [constructor|by right]. }
  split; [exact H1|]. split; [exact H2|]. split; [exact H3|].
  destruct (@extract_handle_from_url_spec lenient_checks
              (py "https://x.com/a/b/tacori.html?page=2#top"))
    as (_ & _ & Hpath & _).
  destruct (Hpath _ H1 H2) as (_ & Hseg & _).
  exact (Hseg _ H3).
Defined.

(** * Further properties *)

(** ** Names that cleaning leaves alone *)

Section StripFixed.

Variable p : char -> bool.

Lemma strip_length (s : str) : length (strip p s) <= length s.
Proof.
  destruct (strip_split p s) as (l & r & Hs & _).
  rewrite Hs at 2. rewrite !length_app. lia.
Qed.

Lemma strip_same_length (s : str) : length (strip p s) = length s -> strip p s = s.
Proof.
  intros Hlen. destruct (strip_split p s) as (l & r & Hs & _).
  assert (Hl : length s = length l + (length (strip p s) + length r)).
  { rewrite Hs at 1. by rewrite !length_app. }
  destruct l as [|x l]; [|simpl in Hl; lia].
  destruct r as [|y r]; [|simpl in Hl; lia].
  rewrite Hs at 2. simpl. by rewrite app_nil_r.
Qed.

Lemma strip_clear_ends (s : str) : clear_ends p s -> strip p s = s.
Proof.
  intros [Hh Ht]. destruct (strip_split p s) as (l & r & Hs & Hl & Hr & _).
  destruct l as [|x l].
  - destruct r as [|y r] using rev_ind.
    + rewrite Hs at 2. simpl. by rewrite app_nil_r.
    + exfalso. unfold holds_all in Hr. rewrite Forall_app, Forall_singleton in Hr.
      destruct Hr as [_ Hy].
      assert (Hlast : last s = Some y).
      { rewrite Hs. simpl. rewrite app_assoc. apply last_snoc. }
      specialize (Ht y Hlast). congruence.
  - exfalso. unfold holds_all in Hl. rewrite Forall_cons in Hl. destruct Hl as [Hx _].
    assert (Hhead : head s = Some x) by (by rewrite Hs).
    specialize (Hh x Hhead). congruence.
Qed.

Lemma strip_fixed (s : str) : strip p s = s <-> clear_ends p s.
Proof.
  split; [|apply strip_clear_ends].
  intros Hs. destruct (strip_split p s) as (_ & _ & _ & _ & _ & Hce).
  by rewrite Hs in Hce.
Qed.

End StripFixed.

(** X1: a column name is left as it is by [clean_field_name] exactly when it
    holds no byte-order mark and neither starts nor ends with whitespace, a
    double quote or a single quote. *)
Theorem clean_field_name_fixed_points (name : str) :
  clean_field_name (Some name) = name
  <-> (BOM ∉ name) /\ clear_ends isspace name
      /\ clear_ends (N.eqb dquote) name /\ clear_ends (N.eqb squote) name.
Proof.
  assert (Hc : clean_field_name (Some name)
               = strip (N.eqb squote) (strip (N.eqb dquote)
                   (strip isspace (replace BOM [] name)))).
  { unfold clean_field_name. by destruct name. }
  rewrite Hc. clear Hc. rewrite replace_nil_filter.
  set (b := filter (fun c => c ≠ BOM) name).
  set (t1 := strip isspace b).
  set (t2 := strip (N.eqb dquote) t1).
  split.
  - intros Hfix.
    pose proof (length_filter (fun c => c ≠ BOM) name) as L0. fold b in L0.
    pose proof (strip_length isspace b) as L1. fold t1 in L1.
    pose proof (strip_length (N.eqb dquote) t1) as L2. fold t2 in L2.
    pose proof (strip_length (N.eqb squote) t2) as L3.
    assert (Hlen : length (strip (N.eqb squote) t2) = length name) by (by rewrite Hfix).
    assert (Hb : b = name).
    { destruct (decide (BOM ∈ name)) as [Hin|Hnin].
      - pose proof (length_filter_lt (fun c => c ≠ BOM) name BOM Hin) as Hlt.
        fold b in Hlt. assert (¬ BOM ≠ BOM) as Hn by (intros H; by apply H).
        specialize (Hlt Hn). lia.
      - unfold b. clear -Hnin. induction name as [|c s IH]; [done|].
        rewrite filter_cons. apply not_elem_of_cons in Hnin as [Hne Hs].
        rewrite decide_True by congruence. f_equal. by apply IH. }
    assert (Ht1 : t1 = b) by (apply strip_same_length; fold t1; lia).
    assert (Ht2 : t2 = t1) by (apply strip_same_length; fold t2; lia).
    assert (Hnobom : BOM ∉ name).
    { rewrite <- Hb. unfold b. intros Hin%list_elem_of_filter. by destruct Hin. }
    pose proof Ht1 as E1. unfold t1 in E1. rewrite Hb in E1.
    pose proof Ht2 as E2. unfold t2 in E2. rewrite Ht1, Hb in E2.
    rewrite Ht2, Ht1, Hb in Hfix.
    split; [done|]. by rewrite <- !strip_fixed.
  - intros (Hnobom & Hws & Hdq & Hsq).
    assert (Hb : b = name).
    { unfold b. clear -Hnobom. induction name as [|c s IH]; [done|].
      rewrite filter_cons. apply not_elem_of_cons in Hnobom as [Hne Hs].
      rewrite decide_True by congruence. f_equal. by apply IH. }
    assert (Ht1 : t1 = name) by (unfold t1; rewrite Hb; by apply strip_clear_ends).
    assert (Ht2 : t2 = name) by (unfold t2; rewrite Ht1; by apply strip_clear_ends).
    rewrite Ht2. by apply strip_clear_ends.
Qed.

(** ** Escaping loses nothing *)

Lemma escape_char_cases (c : char) :
  (c = chr "&" /\ escape_char c = py "&amp;")
  \/ (c = chr "<" /\ escape_char c = py "&lt;")
  \/ (c = chr ">" /\ escape_char c = py "&gt;")
  \/ (c = dquote /\ escape_char c = py "&quot;")
  \/ (c = squote /\ escape_char c = py "&#x27;")
  \/ ((c ∉ html_special) /\ escape_char c = [c]).
Proof.
  unfold escape_char.
  destruct (N.eqb_spec c (chr "&")) as [->|H1]; [by left|right].
  destruct (N.eqb_spec c (chr "<")) as [->|H2]; [by left|right].
  destruct (N.eqb_spec c (chr ">")) as [->|H3]; [by left|right].
  destruct (N.eqb_spec c dquote) as [->|H4]; [by left|right].
  destruct (N.eqb_spec c squote) as [->|H5]; [by left|right].
  split; [|done]. unfold html_special. rewrite !not_elem_of_cons. 
  repeat split; try done. apply not_elem_of_nil.
Qed.

Lemma escape_char_prefix_free (c d : char) (x y : str) :
  escape_char c ++ x = escape_char d ++ y -> c = d /\ x = y.
Proof.
  assert (Hamp : chr "&" ∈ html_special) by (by left).
  destruct (escape_char_cases c) as [[-> ->]|[[-> ->]|[[-> ->]|[[-> ->]|[[-> ->]|[Hc ->]]]]]];
  destruct (escape_char_cases d) as [[-> ->]|[[-> ->]|[[-> ->]|[[-> ->]|[[-> ->]|[Hd ->]]]]]];
  intros H; vm_compute in H; try discriminate;
  try (injection H as <-; by (exfalso; (apply Hc || apply Hd)));
  try (injection H as <-; split; done).
  all: by (injection H as -> ->).
Qed.

Lemma html_escape_inj (a : str) : forall b, html_escape a = html_escape b -> a = b.
Proof.
  induction a as [|c a IH]; intros [|d b]; rewrite ?html_escape_cons; try done.
  - intros H. destruct (escape_char_cases d) as [[_ E]|[[_ E]|[[_ E]|[[_ E]|[[_ E]|[_ E]]]]]];
      rewrite E in H; discriminate.
  - intros H. destruct (escape_char_cases c) as [[_ E]|[[_ E]|[[_ E]|[[_ E]|[[_ E]|[_ E]]]]]];
      rewrite E in H; discriminate.
  - intros [-> H]%escape_char_prefix_free. f_equal. by apply IH.
Qed.

Lemma escape_char_length (c : char) : 1 <= length (escape_char c).
Proof.
  destruct (escape_char_cases c) as [[_ E]|[[_ E]|[[_ E]|[[_ E]|[[_ E]|[_ E]]]]]];
    rewrite E; vm_compute; lia.
Qed.

Lemma html_escape_length (a : str) : length a <= length (html_escape a).
Proof.
  induction a as [|c a IH]; [done|].
  rewrite html_escape_cons, length_app. pose proof (escape_char_length c). simpl. lia.
Qed.

Lemma html_escape_plain (a : str) :
  html_escape a = a <-> Forall (fun c => c ∉ html_special) a.
Proof.
  split.
  - intros H. apply Forall_forall. intros c Hin Hsp.
    (* an escaped special character makes the text longer *)
    apply list_elem_of_split in Hin as (l & r & ->).
    assert (Hlen : length (html_escape (l ++ c :: r)) = length (l ++ c :: r)) by (by rewrite H).
    rewrite html_escape_app, html_escape_cons, !length_app in Hlen. simpl in Hlen.
    rewrite ?length_app in Hlen.
    pose proof (html_escape_length l). pose proof (html_escape_length r).
    assert (2 <= length (escape_char c)); [|lia].
    destruct (escape_char_cases c) as [[_ E]|[[_ E]|[[_ E]|[[_ E]|[[_ E]|[E _]]]]]];
      try (rewrite E; vm_compute; lia). done.
  - induction 1 as [|c a Hc _ IH]; [done|].
    rewrite html_escape_cons, IH.
    destruct (escape_char_cases c) as [[-> _]|[[-> _]|[[-> _]|[[-> _]|[[-> _]|[_ E]]]]]];
      try (by rewrite E); exfalso; apply Hc; unfold html_special;
      rewrite !elem_of_cons; tauto.
Qed.

(** X2: [html.escape] as [create_html_content] uses it is one-to-one, never
    shortens its argument, and returns it as it is exactly when none of
    [&], [<], [>] and the two quotes occurs in it. *)
Theorem html_escape_faithful (a b : str) :
  (html_escape a = html_escape b <-> a = b)
  /\ (html_escape a = a <-> Forall (fun c => c ∉ html_special) a)
  /\ length a <= length (html_escape a).
Proof.
  split; [|split].
  - split; [apply html_escape_inj|by intros ->].
  - apply html_escape_plain.
  - apply html_escape_length.
Qed.

(** ** The characters of a handle *)

Lemma split_segments_no_sep (sep : char) (s seg : str) :
  seg ∈ split sep s -> sep ∉ seg.
Proof.
  revert seg. induction s as [|c s IH]; intros seg; cbn.
  - intros ->%list_elem_of_singleton. apply not_elem_of_nil.
  - destruct (N.eqb_spec c sep) as [->|Hne].
    + intros [->|Hin]%elem_of_cons; [apply not_elem_of_nil|by apply IH].
    + destruct (split sep s) as [|seg0 segs] eqn:Hs.
      * intros ->%list_elem_of_singleton. apply not_elem_of_cons. split; [congruence|].
        apply not_elem_of_nil.
      * intros [->|Hin]%elem_of_cons.
        -- apply not_elem_of_cons. split; [congruence|]. apply IH. by left.
        -- apply IH. by right.
Qed.

Lemma split_segments_sub (sep : char) (s seg : str) :
  seg ∈ split sep s -> seg ⊆ s.
Proof.
  revert seg. induction s as [|c s IH]; intros seg; cbn.
  - by intros ->%list_elem_of_singleton.
  - destruct (N.eqb_spec c sep) as [->|Hne].
    + intros [->|Hin]%elem_of_cons; [apply list_subseteq_nil|].
      apply list_subseteq_cons. by apply IH.
    + destruct (split sep s) as [|seg0 segs] eqn:Hs.
      * intros ->%list_elem_of_singleton. intros x Hx. apply elem_of_cons.
        apply list_elem_of_singleton in Hx. by left.
      * intros [->|Hin]%elem_of_cons.
        -- apply list_subseteq_skip. apply IH. by left.
        -- apply list_subseteq_cons. apply IH. by right.
Qed.

Lemma strip_sub (p : char -> bool) (s : str) : strip p s ⊆ s.
Proof.
  destruct (strip_split p s) as (l & r & Hs & _). rewrite Hs at 2.
  intros x Hx. apply elem_of_app. right. apply elem_of_app. by left.
Qed.

Lemma kept_segments_elem (path seg : str) :
  seg ∈ kept_segments path -> seg ⊆ path /\ (chr "/" ∉ seg) /\ seg <> [].
Proof.
  unfold kept_segments. intros [Hne Hin]%list_elem_of_filter.
  split; [|split].
  - etrans; [by eapply split_segments_sub|apply strip_sub].
  - by eapply split_segments_no_sep.
  - by intros ->.
Qed.

Lemma re_sub_html_sub (seg : str) : re_sub_html seg ⊆ seg.
Proof.
  unfold re_sub_html. destruct (endswith (py ".html") seg); [apply subseteq_take|].
  destruct (endswith _ seg) eqn:He; [|done].
  apply endswith_true in He as [t ->]. intros x [Hx|Hx]%elem_of_app.
  - by apply (subseteq_take _ _ x Hx).
  - apply list_elem_of_singleton in Hx as ->. apply elem_of_app. right.
    apply elem_of_app. right. by apply list_elem_of_singleton.
Qed.

Section PathCharacters.

Context {checks : UrlParse.UrlChecks}.

Import UrlParse.

Lemma split_once_no_sep (sep : char) (url : str) :
  sep ∉ match split_once sep url with Some (u, _) => u | None => url end.
Proof.
  unfold split_once. destruct (find sep url) as [i|] eqn:Hf; cbn.
  - by apply find_Some in Hf as [_ ?].
  - by apply find_None.
Qed.

Lemma split_fragment_query_path (url : str) :
  let p := (split_fragment_query url).1.1 in (chr "#" ∉ p) /\ (chr "?" ∉ p).
Proof.
  unfold split_fragment_query.
  pose proof (split_once_no_sep (chr "#") url) as H1.
  destruct (split_once (chr "#") url) as [[u f]|] eqn:Hf.
  - pose proof (split_once_no_sep (chr "?") u) as H2.
    destruct (split_once (chr "?") u) as [[u' q]|] eqn:Hq; cbn; [|done].
    split; [|done]. intros Hin. apply H1. by apply (split_once_sub _ _ _ _ Hq).
  - pose proof (split_once_no_sep (chr "?") url) as H2.
    destruct (split_once (chr "?") url) as [[u' q]|] eqn:Hq; cbn; [|done].
    split; [|done]. intros Hin. apply H1. by apply (split_once_sub _ _ _ _ Hq).
Qed.

Lemma urlparse_path_no_delim (url : str) (parsed : ParseResult) :
  urlparse url = inr parsed -> (chr "#" ∉ path parsed) /\ (chr "?" ∉ path parsed).
Proof.
  unfold urlparse, urlsplit.
  destruct (split_scheme (clean_url url)) as [sch u1].
  destruct (split_authority u1) as [e|[nl u2]] eqn:Ha; [done|].
  pose proof (split_fragment_query_path u2) as H3.
  destruct (split_fragment_query u2) as [[u3 q] fr]. cbn [fst] in H3. cbn zeta in H3.
  destruct (_ && _ && _); [done|]. cbn [sr_scheme sr_path].
  destruct (_ && _).
  - pose proof (splitparams_sub u3) as H4. destruct (splitparams u3) as [u4 ps].
    intros [= <-]. cbn in *. destruct H3 as [Ha1 Ha2]. split; intros Hin; [apply Ha1|apply Ha2]; by apply H4.
  - by intros [= <-].
Qed.

Lemma clean_url_no_unsafe (url : str) :
  (9%N ∉ clean_url url) /\ (13%N ∉ clean_url url) /\ (10%N ∉ clean_url url).
Proof.
  rewrite clean_url_filter. split; [|split].
  - intros [_ [_ [H _]%list_elem_of_filter]%list_elem_of_filter]%list_elem_of_filter.
    by apply H.
  - intros [_ [H _]%list_elem_of_filter]%list_elem_of_filter. by apply H.
  - intros [H _]%list_elem_of_filter. by apply H.
Qed.

Lemma handle_of_segment (url handle : str) :
  extract_handle_from_url url = Some handle ->
  exists p seg, path_of url = Some p /\ seg ∈ kept_segments p /\ handle = re_sub_html seg.
Proof.
  rewrite extract_handle_unfold. destruct (truthy url); [|done].
  destruct (path_of url) as [p|]; [|done].
  destruct (last (kept_segments p)) as [seg|] eqn:Hl; [|done].
  intros [= <-]. exists p, seg. split; [done|]. split; [|done].
  by apply last_Some_elem_of.
Qed.

End PathCharacters.

(** X3: every character of an extracted handle occurs in the URL, and none of
    them is a slash, a question mark, a hash sign, a tab, a carriage return
    or a line feed. *)
Theorem handle_characters {checks : UrlParse.UrlChecks} (url handle : str) :
  extract_handle_from_url url = Some handle ->
  handle ⊆ url /\ Forall (fun c => c ∉ never_in_handle) handle.
Proof.
  intros (p & seg & Hp & Hseg & ->)%handle_of_segment.
  apply kept_segments_elem in Hseg as (Hsub & Hslash & _).
  unfold path_of in Hp. destruct (UrlParse.urlparse url) as [e|parsed] eqn:Hparse; [done|].
  injection Hp as <-.
  pose proof (urlparse_path_sub _ _ Hparse) as Hclean.
  pose proof (urlparse_path_no_delim _ _ Hparse) as [Hh Hq].
  pose proof (clean_url_no_unsafe url) as (H9 & H13 & H10).
  pose proof (re_sub_html_sub seg) as Hre.
  split.
  - etrans; [exact Hre|]. etrans; [exact Hsub|]. etrans; [exact Hclean|]. apply clean_url_sub.
  - apply Forall_forall. intros c Hc%Hre. unfold never_in_handle.
    change (py "/?#" ++ [9; 13; 10]%N) with [chr "/"; chr "?"; chr "#"; 9%N; 13%N; 10%N].
    rewrite !not_elem_of_cons. 
    repeat split; try apply not_elem_of_nil; intros ->.
    + by apply Hslash.
    + by apply Hq, Hsub.
    + by apply Hh, Hsub.
    + by apply H9, Hclean, Hsub.
    + by apply H13, Hclean, Hsub.
    + by apply H10, Hclean, Hsub.
Qed.

Lemma handle_characters_witness :
  py "tacori" ⊆ py "https://x.com/rings/tacori.html?page=2"
  /\ Forall (fun c => c ∉ never_in_handle) (py "tacori").
Proof.
  apply (@handle_characters lenient_checks (py "https://x.com/rings/tacori.html?page=2")).
  reflexivity.
Defined.

(** ** Cleaning one row *)

Lemma clean_value_surplus (v : Csv.value) :
  (surplus v /\ clean_value v = inl AttributeError)
  \/ (~ surplus v /\ exists s, clean_value v = inr s /\ clear_ends isspace s).
Proof.
  destruct v as [|s|[|c l]]; cbn.
  - right. split; [tauto|]. exists []. split; [done|]. split; intros c Hc; discriminate.
  - right. split; [tauto|]. eexists. split; [done|]. rewrite strip_truthy.
    by destruct (strip_split isspace s) as (_ & _ & _ & _ & _ & ?).
  - right. split; [tauto|]. exists []. split; [done|]. split; intros c Hc; discriminate.
  - left. done.
Qed.

Section CleanLoop.

Let body (cleaned : row) (kv : option str * Csv.value) : result row :=
  rbind (clean_value kv.2)
        (fun v => inr (PyDict.set (clean_field_name kv.1) v cleaned)).

Lemma clean_loop_error (items : list (option str * Csv.value)) :
  forall (acc : row) (e : exn), rfold body acc items = inl e -> e = AttributeError.
Proof.
  induction items as [|[k v] items IH]; intros acc e; cbn [rfold]; [done|].
  unfold body at 1. cbn [fst snd].
  destruct (clean_value_surplus v) as [[_ ->]|[_ (s & -> & _)]]; cbn [rbind].
  - congruence.
  - apply IH.
Qed.

Lemma clean_loop_surplus (items : list (option str * Csv.value)) :
  Exists (fun kv => surplus kv.2) items ->
  forall acc : row, rfold body acc items = inl AttributeError.
Proof.
  induction items as [|[k v] items IH]; intros Hex acc; [by apply Exists_nil in Hex|].
  cbn [rfold]. unfold body at 1. cbn [fst snd].
  destruct (clean_value_surplus v) as [[_ ->]|[Hv (s & -> & _)]]; cbn [rbind]; [done|].
  apply IH. apply Exists_cons in Hex as [Hex|Hex]; [done|exact Hex].
Qed.

Lemma set_trimmed (k v : str) (d : row) :
  clear_ends isspace v ->
  Forall (fun kv => clear_ends isspace kv.2) d ->
  Forall (fun kv => clear_ends isspace kv.2) (PyDict.set k v d).
Proof.
  intros Hv. induction 1 as [|[k' v'] d Hkv Hd IH]; cbn.
  - constructor; [exact Hv|constructor].
  - destruct (decide (k' = k)); by constructor.
Qed.

Lemma elem_of_keys_set (k k' v : str) (d : row) :
  k' ∈ PyDict.keys (PyDict.set k v d) <-> k' = k \/ k' ∈ PyDict.keys d.
Proof.
  rewrite keys_set. destruct (decide (k ∈ PyDict.keys d)) as [Hin|Hnin].
  - split; [by right|]. by intros [->|?].
  - rewrite elem_of_app, list_elem_of_singleton. tauto.
Qed.

Lemma clean_loop_total (items : list (option str * Csv.value)) :
  Forall (fun kv => ~ surplus kv.2) items ->
  forall acc : row,
    PyDict.wf acc ->
    Forall (fun kv => clear_ends isspace kv.2) acc ->
    exists c, rfold body acc items = inr c
              /\ PyDict.wf c
              /\ Forall (fun kv => clear_ends isspace kv.2) c
              /\ forall k, k ∈ PyDict.keys c
                           <-> k ∈ PyDict.keys acc \/ k ∈ clean_field_name <$> items.*1.
Proof.
  induction 1 as [|[k v] items Hv _ IH]; intros acc Hwf Htrim.
  - exists acc. cbn. split; [done|]. split; [done|]. split; [done|].
    intros k. rewrite elem_of_nil. tauto.
  - cbn [rfold]. unfold body at 1. cbn [fst snd] in *.
    destruct (clean_value_surplus v) as [[Hs _]|[_ (s & -> & Hs)]]; [done|]. cbn [rbind].
    destruct (IH (PyDict.set (clean_field_name k) s acc)) as (c & Hc & Hwfc & Htrimc & Hkeys).
    { by apply set_wf. }
    { by apply set_trimmed. }
    exists c. split; [done|]. split; [done|]. split; [done|].
    intros k'. rewrite Hkeys, elem_of_keys_set. cbn. rewrite elem_of_cons. tauto.
Qed.

Lemma cleaned_row_error (r : Csv.raw_row) (e : exn) :
  cleaned_row r = inl e -> e = AttributeError.
Proof. apply clean_loop_error. Qed.

Lemma cleaned_row_surplus (r : Csv.raw_row) :
  Exists (fun kv => surplus kv.2) r -> cleaned_row r = inl AttributeError.
Proof. intros H. by apply clean_loop_surplus. Qed.

Lemma cleaned_row_total (r : Csv.raw_row) :
  Forall (fun kv => ~ surplus kv.2) r ->
  exists c, cleaned_row r = inr c
            /\ PyDict.wf c
            /\ Forall (fun kv => clear_ends isspace kv.2) c
            /\ forall k, k ∈ PyDict.keys c <-> k ∈ clean_field_name <$> r.*1.
Proof.
  intros H. destruct (clean_loop_total r H []) as (c & Hc & Hwf & Htrim & Hkeys).
  - apply NoDup_nil_2.
  - constructor.
  - exists c. split; [done|]. split; [done|]. split; [done|].
    intros k. rewrite Hkeys. cbn. rewrite elem_of_nil. tauto.
Qed.

End CleanLoop.

(** The rows a [DictReader] hands out *)

Section RawRows.

Context {V : Type}.

Lemma fold_set_Forall {A K} `{EqDecision K} (P : K * V -> Prop)
    (kf : A -> K) (vf : A -> V) (items : list A) :
  (forall x, x ∈ items -> P (kf x, vf x)) ->
  forall d0 : dict K V,
    Forall P d0 -> Forall P (fold_left (fun d x => PyDict.set (kf x) (vf x) d) items d0).
Proof.
  induction items as [|x items IH]; intros Hx d0 Hd0; [done|].
  cbn [fold_left]. apply IH.
  - intros y Hy. apply Hx. by right.
  - assert (Hpx : P (kf x, vf x)) by (apply Hx; by left).
    clear -Hd0 Hpx. induction Hd0 as [|[k v] d Hkv Hd IHd]; cbn.
    + constructor; [exact Hpx|constructor].
    + destruct (decide (k = kf x)); by constructor.
Qed.

Lemma fold_set_keys {A K} `{EqDecision K}
    (kf : A -> K) (vf : A -> V) (items : list A) :
  forall (d0 : dict K V) (k : K),
    k ∈ PyDict.keys (fold_left (fun d x => PyDict.set (kf x) (vf x) d) items d0)
    <-> k ∈ PyDict.keys d0 \/ k ∈ kf <$> items.
Proof.
  induction items as [|x items IH]; intros d0 k; cbn [fold_left].
  - cbn. rewrite elem_of_nil. tauto.
  - rewrite IH, keys_set. cbn. rewrite elem_of_cons.
    destruct (decide (kf x ∈ PyDict.keys d0)) as [Hin|Hnin].
    + split; [tauto|]. intros [?|[->|?]]; tauto.
    + rewrite elem_of_app, list_elem_of_singleton. tauto.
Qed.

End RawRows.

Lemma dict_of_record_items (names r : list str) :
  let d := Csv.dict_of_record names r in
  (length r <= length names ->
     Forall (fun kv => ~ surplus kv.2) d
     /\ forall k, k ∈ PyDict.keys d <-> k ∈ Some <$> names)
  /\ (length names < length r -> Exists (fun kv => surplus kv.2) d).
Proof.
  cbv zeta. unfold Csv.dict_of_record.
  set (d1 := fold_left (fun d kv => PyDict.set (Some kv.1) (Csv.VStr kv.2) d) (zip names r) []).
  assert (H1 : Forall (fun kv : option str * Csv.value => ~ surplus kv.2) d1).
  { apply (fold_set_Forall _ (fun kv : str * str => Some kv.1) (fun kv => Csv.VStr kv.2));
      [|constructor]. intros x _. cbn. tauto. }
  assert (K1 : forall k, k ∈ PyDict.keys d1 <-> k ∈ Some <$> (zip names r).*1).
  { intros k. unfold d1.
    rewrite (fold_set_keys (fun kv : str * str => Some kv.1) (fun kv => Csv.VStr kv.2)).
    cbn. rewrite elem_of_nil, fmap_Some_fst. tauto. }
  split.
  - intros Hlen.
    destruct (Nat.ltb_spec (length names) (length r)) as [|_]; [lia|].
    destruct (Nat.ltb_spec (length r) (length names)) as [Hlt|Hge].
    + split.
      * apply (fold_set_Forall _ (fun k : str => Some k) (fun _ => Csv.VNone)); [|done].
        intros x _. cbn. tauto.
      * intros k. rewrite (fold_set_keys (fun k : str => Some k) (fun _ => Csv.VNone)), K1.
        assert (Hn : Some <$> names
                     = (Some <$> take (length r) names) ++ (Some <$> drop (length r) names))
          by (by rewrite <- fmap_app, take_drop).
        rewrite Hn, elem_of_app, zip_fst_take. cbn. tauto.
    + split; [done|]. intros k. rewrite K1, zip_fst_take.
      by rewrite take_ge by lia.
  - intros Hlen.
    destruct (Nat.ltb_spec (length names) (length r)) as [_|]; [|lia].
    assert (Hnone : None ∉ PyDict.keys d1).
    { rewrite K1. by intros (n & [=] & _)%list_elem_of_fmap. }
    rewrite set_fresh by done. apply Exists_app. right. apply Exists_cons. left. cbn.
    destruct (drop (length names) r) as [|c l] eqn:Hd; [|done].
    apply (f_equal length) in Hd. rewrite length_drop in Hd. cbn in Hd. lia.
Qed.

(** X4: a record that is not longer than the header is cleaned to a row
    whose keys are the cleaned column names, each once, and whose values
    neither start nor end with whitespace; a record with more cells than
    the header makes the cleaning loop raise [AttributeError]. *)
Theorem cleaned_row_of_record (names r : list str) :
  (length r <= length names ->
     exists c, cleaned_row (Csv.dict_of_record names r) = inr c
               /\ PyDict.wf c
               /\ Forall (fun kv => clear_ends isspace kv.2) c
               /\ forall k, k ∈ PyDict.keys c
                            <-> k ∈ (fun n => clean_field_name (Some n)) <$> names)
  /\ (length names < length r ->
        cleaned_row (Csv.dict_of_record names r) = inl AttributeError).
Proof.
  destruct (dict_of_record_items names r) as [Hshort Hlong]. split.
  - intros Hlen. destruct (Hshort Hlen) as [Hok Hkeys].
    destruct (cleaned_row_total _ Hok) as (c & Hc & Hwf & Htrim & Hk).
    exists c. split; [done|]. split; [done|]. split; [done|].
    intros k. rewrite Hk. rewrite !list_elem_of_fmap. split.
    + intros (ko & -> & Hin). apply Hkeys in Hin as (n & -> & Hn)%list_elem_of_fmap.
      by exists n.
    + intros (n & -> & Hn). exists (Some n). split; [done|]. apply Hkeys.
      apply list_elem_of_fmap. by exists n.
  - intros Hlen. apply cleaned_row_surplus. by apply Hlong.
Qed.

(** ** A record with surplus cells *)

Section CleanFailure.

Context {S B : Type}.

Lemma foldM_cleaned_fails (g : B -> row -> M S B) (rs : list Csv.raw_row) :
  (forall acc c s, exists acc' s', g acc c s = (inr acc', s')) ->
  Exists (fun r => cleaned_row r = inl AttributeError) rs ->
  forall acc s,
    exists s', foldM (fun acc r => c <- lift (cleaned_row r);; g acc c) acc rs s
               = (inl AttributeError, s').
Proof.
  intros Hg. induction rs as [|r rs IH]; intros Hex acc s; [by apply Exists_nil in Hex|].
  cbn [foldM]. unfold bind at 1. unfold bind at 1. unfold lift at 1.
  destruct (cleaned_row r) as [e|c] eqn:Hr.
  - apply cleaned_row_error in Hr as ->. by exists s.
  - destruct (Hg acc c s) as (acc' & s1 & ->).
    apply IH. apply Exists_cons in Hex as [Hex|Hex]; [congruence|done].
Qed.

Lemma for_rows_cleaned_fails (f : Csv.source) (g : B -> row -> M S B) :
  (forall acc c s, exists acc' s', g acc c s = (inr acc', s')) ->
  Exists (fun r => cleaned_row r = inl AttributeError) (Csv.rows f) ->
  forall acc s,
    exists s', for_rows f (fun acc r => c <- lift (cleaned_row r);; g acc c) acc s
               = (inl AttributeError, s').
Proof.
  intros Hg Hex acc s. unfold for_rows. unfold bind at 1.
  destruct (foldM_cleaned_fails g _ Hg Hex acc s) as [s' ->]. by exists s'.
Qed.

End CleanFailure.

Lemma rows_surplus (f : Csv.source) (names r : list str) (rs : list (list str)) :
  Csv.records f = names :: rs -> r ∈ rs -> length names < length r ->
  Exists (fun r => cleaned_row r = inl AttributeError) (Csv.rows f).
Proof.
  intros Hrec Hin Hlen. unfold Csv.rows. rewrite Hrec.
  apply Exists_exists. exists (Csv.dict_of_record names r). split.
  - apply list_elem_of_fmap. exists r. split; [done|].
    apply list_elem_of_filter. split; [|done]. intros ->. cbn in Hlen. lia.
  - apply cleaned_row_surplus. by apply (dict_of_record_items names r).
Qed.

Section SurplusCells.

Context {checks : UrlParse.UrlChecks}.

Variable f : Csv.source.
Hypothesis Hex : Exists (fun r => cleaned_row r = inl AttributeError) (Csv.rows f).

Lemma rows_nonempty_records : exists names rs, Csv.records f = names :: rs.
Proof.
  unfold Csv.rows in Hex. destruct (Csv.records f) as [|names rs]; [|by eauto].
  by apply Exists_nil in Hex.
Qed.

Lemma cleaned_fieldnames_returns (s : Script.state) :
  exists ns, Script.cleaned_fieldnames f s = (inr ns, s).
Proof.
  destruct rows_nonempty_records as (names & rs & Hrec).
  unfold Script.cleaned_fieldnames, bind, lift, Csv.fieldnames. rewrite Hrec.
  unfold ret. by eauto.
Qed.

Lemma plp_step_total (plp_entries : list row) (cleaned : row) (s : Script.state) :
  exists acc' s',
    (let plp_entries := plp_entries ++ [cleaned] in
     let url := PyDict.get_default Script.URL [] cleaned in
     match extract_handle_from_url url with
     | Some handle =>
         when (truthy handle)
           (modify (Script.with_content_map
              (insert handle
                 {| Script.title := PyDict.get_default Script.Title [] cleaned;
                    Script.subheading := PyDict.get_default (py "Sub-heading") [] cleaned;
                    Script.description := PyDict.get_default (py "Description") [] cleaned;
                    Script.content_under_listing :=
                      PyDict.get_default (py "Content under product listing") [] cleaned |})));;
         ret plp_entries
     | None => ret plp_entries
     end) s = (inr acc', s').
Proof.
  cbv zeta. destruct (extract_handle_from_url _) as [h|]; [|by eexists _, _].
  unfold bind, when, modify, ret. destruct (truthy h); by eexists _, _.
Qed.

Lemma load_plp_content_surplus (s : Script.state) :
  exists s', Script.load_plp_content f s = (inl AttributeError, s').
Proof.
  unfold Script.load_plp_content. rewrite try_except_reraise. unfold bind at 1.
  destruct (cleaned_fieldnames_returns s) as [ns ->].
  unfold bind at 1.
  destruct (for_rows_cleaned_fails f _ plp_step_total Hex [] s) as [s' Hr].
  exists s'.
  match goal with |- match ?m with _ => _ end = _ =>
    replace m with (@inl exn (list row) AttributeError, s') by (symmetry; exact Hr) end.
  reflexivity.
Qed.

Lemma load_shopify_categories_surplus (s : Script.state) :
  exists s', Script.load_shopify_categories f s = (inl AttributeError, s').
Proof.
  unfold Script.load_shopify_categories. rewrite try_except_reraise. unfold bind at 1.
  destruct (cleaned_fieldnames_returns s) as [ns ->].
  unfold bind at 1.
  destruct (for_rows_cleaned_fails f
              (fun categories c => l <- Script.alloc c;; ret (categories ++ [l]))
              ltac:(intros acc c s0; by eexists _, _) Hex [] s) as [s' Hr].
  exists s'.
  match goal with |- match ?m with _ => _ end = _ =>
    replace m with (@inl exn (list Script.loc) AttributeError, s') by (symmetry; exact Hr) end.
  reflexivity.
Qed.

Lemma load_shopify_data_surplus (data_dict : dict str row) :
  exists data_dict', Analyze.load_shopify_data f data_dict = (inl AttributeError, data_dict').
Proof.
  unfold Analyze.load_shopify_data. rewrite try_except_reraise.
  apply (for_rows_cleaned_fails f
           (fun (_ : unit) c =>
              when (truthy (PyDict.get_default Script.Handle [] c)
                    && bool_decide (PyDict.get_default Script.Handle [] c ≠ Script.Handle))
                (modify (PyDict.set (PyDict.get_default Script.Handle [] c) c)))); [|done].
  intros [] c s0. unfold when, modify, ret. destruct (_ && _); by eexists _, _.
Qed.

Lemma load_csv_file_surplus (is_plp : bool) (s : Validate.state) :
  exists s', Validate.load_csv_file f is_plp s = (inr [], s').
Proof.
  unfold Validate.load_csv_file, try_except. destruct is_plp.
  - destruct (for_rows_cleaned_fails f _
                ltac:(intros acc c s0; destruct (url_step acc c s0) as [s1 H1]; eexists _, s1; exact H1)
                Hex [] s) as [s' Hr].
    exists s'.
    match goal with |- match ?m with _ => _ end = _ =>
      replace m with (@inl exn (dict str row) AttributeError, s') by (symmetry; exact Hr) end.
    reflexivity.
  - destruct (for_rows_cleaned_fails f
                (fun (data : dict str row) (c : row) =>
                   @ret Validate.state _
                     (if truthy (PyDict.get_default Validate.ID [] c)
                      then PyDict.set (PyDict.get_default Validate.ID [] c) c data else data))
                ltac:(intros acc c s0; by eexists _, _) Hex [] s) as [s' Hr].
    exists s'.
    match goal with |- match ?m with _ => _ end = _ =>
      replace m with (@inl exn (dict str row) AttributeError, s') by (symmetry; exact Hr) end.
    reflexivity.
Qed.

Lemma load_csv_data_surplus (s : list ShowUpdated.collection) :
  exists s', ShowUpdated.load_csv_data f s = (inr [], s').
Proof.
  unfold ShowUpdated.load_csv_data, try_except.
  destruct (for_rows_cleaned_fails f
              (fun (data : dict str row) (c : row) =>
                 @ret (list ShowUpdated.collection) _
                   (if truthy (PyDict.get_default Script.Handle [] c)
                       && bool_decide (PyDict.get_default Script.Handle [] c ≠ Script.Handle)
                    then PyDict.set (PyDict.get_default Script.Handle [] c) c data else data))
              ltac:(intros acc c s0; by eexists _, _) Hex [] s) as [s' Hr].
  exists s'.
  match goal with |- match ?m with _ => _ end = _ =>
    replace m with (@inl exn (dict str row) AttributeError, s') by (symmetry; exact Hr) end.
  reflexivity.
Qed.

Lemma run_surplus (categories_file : Csv.source) (open_fault : option exn) (s : Script.state) :
  exists s', Script.run f categories_file open_fault s = (inl AttributeError, s')
             /\ Script.output s' = Script.output s.
Proof.
  unfold Script.run. rewrite try_except_reraise. unfold bind at 1.
  pose proof (load_plp_content_frames f s) as Hout.
  destruct (load_plp_content_surplus s) as [s' Hr]. rewrite Hr in *.
  exists s'. split; [done|exact Hout].
Qed.

End SurplusCells.

(** X5: one data record with more cells than the header makes the loaders
    of the migration script and of the coverage analyzer raise
    [AttributeError] (and [run] end with it before anything is written),
    whatever the other records hold; the loaders of the validation script
    and of the updated-collections report return an empty dictionary, the
    rows read before that record included. *)
Theorem surplus_cells_fail_the_load {checks : UrlParse.UrlChecks}
    (f : Csv.source) (names r : list str) (rs : list (list str)) :
  Csv.records f = names :: rs -> r ∈ rs -> length names < length r ->
  (forall s, exists s', Script.load_plp_content f s = (inl AttributeError, s'))
  /\ (forall s, exists s', Script.load_shopify_categories f s = (inl AttributeError, s'))
  /\ (forall other open_fault s, exists s',
        Script.run f other open_fault s = (inl AttributeError, s')
        /\ Script.output s' = Script.output s)
  /\ (forall data_dict, exists data_dict',
        Analyze.load_shopify_data f data_dict = (inl AttributeError, data_dict'))
  /\ (forall is_plp s, exists s', Validate.load_csv_file f is_plp s = (inr [], s'))
  /\ (forall s, exists s', ShowUpdated.load_csv_data f s = (inr [], s')).
Proof.
  intros Hrec Hin Hlen. pose proof (rows_surplus f names r rs Hrec Hin Hlen) as Hex.
  split; [intros s; by apply load_plp_content_surplus|].
  split; [intros s; by apply load_shopify_categories_surplus|].
  split; [intros other o s; by apply run_surplus|].
  split; [intros d; by apply load_shopify_data_surplus|].
  split; [intros b s; by apply load_csv_file_surplus|].
  intros s; by apply load_csv_data_surplus.
Qed.

Lemma surplus_cells_fail_the_load_witness :
  (forall s, exists s',
     @Script.load_shopify_categories export_with_long_record s = (inl AttributeError, s'))
  /\ (forall is_plp s, exists s',
        @Validate.load_csv_file lenient_checks export_with_long_record is_plp s = (inr [], s')).
Proof.
  destruct (@surplus_cells_fail_the_load lenient_checks export_with_long_record
              [py "ID"; py "Handle"] [py "2"; py "verragio"; py "Verragio"]
              [[py "1"; py "tacori"]; [py "2"; py "verragio"; py "Verragio"];
               [py "3"; py "gucci"]])
    as (_ & H2 & _ & _ & H5 & _).
  - reflexivity.
  - apply elem_of_cons. right. apply elem_of_cons. by left.
  - cbn. lia.
  - split; [exact H2|exact H5].
Defined.

(** ** Loading the source content *)

Section ScriptState.

Import Script.

Lemma with_content_map_id (s : state) : with_content_map (fun cm => cm) s = s.
Proof. by destruct s. Qed.

Lemma with_content_map_compose (f g : gmap str content -> gmap str content) (s : state) :
  with_content_map g (with_content_map f s) = with_content_map (fun cm => g (f cm)) s.
Proof. by destruct s. Qed.

End ScriptState.

Section LoadContent.

Context {checks : UrlParse.UrlChecks}.

Import Script.

Lemma content_step (plp_entries : list row) (c : row) (s : state) :
  (let plp_entries := plp_entries ++ [c] in
   let url := PyDict.get_default URL [] c in
   match extract_handle_from_url url with
   | Some handle =>
       when (truthy handle)
         (modify (with_content_map
            (insert handle
               {| title := PyDict.get_default Title [] c;
                  subheading := PyDict.get_default (py "Sub-heading") [] c;
                  description := PyDict.get_default (py "Description") [] c;
                  content_under_listing :=
                    PyDict.get_default (py "Content under product listing") [] c |})));;
       ret plp_entries
   | None => ret plp_entries
   end) s
  = (inr (plp_entries ++ [c]), with_content_map (fun cm => add_content cm c) s).
Proof.
  cbv zeta. unfold add_content, handle_of.
  destruct (extract_handle_from_url _) as [h|]; [|by rewrite with_content_map_id].
  unfold bind, when, modify, ret.
  destruct (truthy h); [done|by rewrite with_content_map_id].
Qed.

Lemma content_loop (cleaned : list row) : forall (acc : list row) (s : state),
  foldM (fun plp_entries c =>
           let plp_entries := plp_entries ++ [c] in
           let url := PyDict.get_default URL [] c in
           match extract_handle_from_url url with
           | Some handle =>
               when (truthy handle)
                 (modify (with_content_map
                    (insert handle
                       {| title := PyDict.get_default Title [] c;
                          subheading := PyDict.get_default (py "Sub-heading") [] c;
                          description := PyDict.get_default (py "Description") [] c;
                          content_under_listing :=
                            PyDict.get_default (py "Content under product listing") [] c |})));;
               ret plp_entries
           | None => ret plp_entries
           end) acc cleaned s
  = (inr (acc ++ cleaned), with_content_map (content_map_of cleaned) s).
Proof.
  induction cleaned as [|c cleaned IH]; intros acc s.
  - cbn. unfold ret. rewrite app_nil_r. by rewrite with_content_map_id.
  - cbn [foldM]. unfold bind at 1. rewrite content_step. rewrite IH.
    rewrite with_content_map_compose, <- app_assoc. reflexivity.
Qed.

(** The value of a handle in the content map: the last row that gives it. *)
Lemma content_map_of_lookup (cleaned : list row) :
  forall (cm : gmap str content) (h : str),
    content_map_of cleaned cm !! h
    = if truthy h
      then match last_with_handle h cleaned with
           | Some c => Some (content_of c)
           | None => cm !! h
           end
      else cm !! h.
Proof.
  unfold content_map_of, last_with_handle.
  induction cleaned as [|c cleaned IH]; intros cm h; cbn [fold_left].
  - by destruct (truthy h).
  - rewrite IH. rewrite filter_cons. unfold add_content.
    destruct (truthy h) eqn:Hh.
    2:{ destruct (handle_of c) as [h'|]; [|done].
        destruct (truthy h') eqn:Hh'; [|done].
        apply lookup_insert_ne. congruence. }
    destruct (decide (handle_of c = Some h)) as [Hc|Hc].
    + rewrite Hc, Hh.
      destruct (filter _ cleaned) as [|c' cs'] eqn:Hf.
      * cbn. by rewrite lookup_insert_eq.
      * rewrite last_cons_cons.
        by destruct (last (c' :: cs')) eqn:Hl; [|apply last_None in Hl].
    + destruct (last (filter _ cleaned)); [done|].
      destruct (handle_of c) as [h'|]; [|done].
      destruct (truthy h'); [|done].
      apply lookup_insert_ne. congruence.
Qed.

Variable f : Csv.source.
Variable cleaned : list row.
Hypothesis Hrecords : Csv.records f <> [].
Hypothesis Hfault : Csv.fault f = None.
Hypothesis Hclean : cleaned_to (Csv.rows f) cleaned.

Lemma cleaned_fieldnames_run (s : state) :
  exists ns, cleaned_fieldnames f s = (inr ns, s).
Proof.
  unfold cleaned_fieldnames, bind, lift, Csv.fieldnames.
  destruct (Csv.records f) as [|names rs]; [done|]. unfold ret. by eauto.
Qed.

Lemma load_plp_content_run (s : state) :
  load_plp_content f s
  = (inr tt,
     with_stats (fun st =>
        {| plp_entries_loaded := length cleaned;
           shopify_categories_loaded := shopify_categories_loaded st;
           categories_updated := categories_updated st;
           no_match_found := no_match_found st |})
       (with_plp_content cleaned (with_content_map (content_map_of cleaned) s))).
Proof.
  unfold load_plp_content. rewrite try_except_reraise. unfold bind at 1.
  destruct (cleaned_fieldnames_run s) as [ns ->].
  unfold bind at 1. rewrite for_rows_no_fault by exact Hfault.
  match goal with |- context [foldM ?b [] (Csv.rows f) s] =>
    replace (foldM b [] (Csv.rows f) s)
      with (@inr exn _ cleaned, with_content_map (content_map_of cleaned) s) end.
  2:{ symmetry. etrans; [|apply (content_loop cleaned [] s)].
      apply (foldM_cleaned _ _ _ Hclean). }
  reflexivity.
Qed.

Lemma load_shopify_categories_loaded (s : state) :
  load_shopify_categories f s
  = (inr tt,
     with_stats (fun st =>
        {| plp_entries_loaded := plp_entries_loaded st;
           shopify_categories_loaded := length cleaned;
           categories_updated := categories_updated st;
           no_match_found := no_match_found st |})
       (with_shopify_categories (seq (length (store s)) (length cleaned))
          (with_store (fun h => h ++ cleaned) s))).
Proof.
  unfold load_shopify_categories. rewrite try_except_reraise. unfold bind at 1.
  destruct (cleaned_fieldnames_run s) as [ns ->].
  unfold bind at 1. rewrite for_rows_no_fault by exact Hfault.
  rewrite (foldM_cleaned (fun categories c => l <- alloc c;; ret (categories ++ [l]))
             _ _ Hclean).
  rewrite alloc_loop. cbn [app]. unfold bind, modify.
  by rewrite length_seq.
Qed.

End LoadContent.

(** X6: when the source file is read without an exception,
    [load_plp_content] keeps every cleaned row in [plp_content], counts
    them, and maps each non-empty handle to the title, sub-heading,
    description and supplementary text of the last row whose URL gives that
    handle; rows whose URL gives no handle or the empty handle add nothing,
    and nothing else of the object changes. *)
Theorem load_plp_content_last_wins {checks : UrlParse.UrlChecks}
    (f : Csv.source) (cleaned : list row) (s : Script.state) :
  Csv.records f <> [] ->
  Csv.fault f = None ->
  cleaned_to (Csv.rows f) cleaned ->
  exists s',
    Script.load_plp_content f s = (inr tt, s')
    /\ Script.plp_content s' = cleaned
    /\ Script.plp_entries_loaded (Script.stats s') = length cleaned
    /\ (forall h, h <> [] ->
          Script.content_map s' !! h
          = match last_with_handle h cleaned with
            | Some c => Some (content_of c)
            | None => Script.content_map s !! h
            end)
    /\ Script.content_map s' !! [] = Script.content_map s !! []
    /\ Script.store s' = Script.store s
    /\ Script.shopify_categories s' = Script.shopify_categories s
    /\ Script.updated_categories s' = Script.updated_categories s
    /\ Script.output s' = Script.output s.
Proof.
  intros Hrec Hfault Hclean. eexists. split; [by apply load_plp_content_run|].
  cbn. split; [done|]. split; [done|].
  split.
  { intros h Hh. rewrite content_map_of_lookup. by destruct h. }
  split; [by rewrite content_map_of_lookup|]. done.
Qed.

Lemma plp_small_cleaning : cleaned_to (Csv.rows plp_small) plp_small_cleaned.
Proof. repeat constructor. Qed.

Lemma load_plp_content_last_wins_witness :
  exists s',
    @Script.load_plp_content lenient_checks plp_small Script.init = (inr tt, s')
    /\ Script.plp_content s' = plp_small_cleaned
    /\ Script.content_map s' !! py "tacori"
       = Some {| Script.title := py "Tacori Rings"; Script.subheading := [];
                 Script.description := []; Script.content_under_listing := [] |}.
Proof.
  destruct (@load_plp_content_last_wins lenient_checks plp_small plp_small_cleaned Script.init)
    as (s' & Hrun & Hplp & _ & Hmap & _).
  - discriminate.
  - reflexivity.
  - exact plp_small_cleaning.
  - exists s'. split; [exact Hrun|]. split; [exact Hplp|].
    rewrite Hmap by discriminate. reflexivity.
Defined.

(** ** What the merger writes and counts *)

Section MergerCounts.

Import Script.

Lemma update_category_value (counts : nat * nat) (i : nat) (l : loc) (s : state) :
  (update_category counts (i, l) s).1
  = inr (count_step (content_map s) counts (i, default [] (store s !! l))).
Proof.
  destruct counts as [u n]. unfold update_category, count_step, matched. cbn [fst snd].
  case_bool_decide; [done|].
  unfold bind at 1. unfold deref at 1, gets at 1.
  unfold bind at 1. unfold gets at 1.
  destruct (content_map s !! _) as [c|] eqn:Hc.
  - rewrite bool_decide_eq_true_2 by (by eexists).
    unfold bind.
    destruct (when (truthy (title c)) _ s) as [[e|[]] s1] eqn:H1.
    { unfold when, setitem, modify, ret in H1. by destruct (truthy (title c)). }
    destruct (when (truthy (description c)) _ s1) as [[e|[]] s2] eqn:H2.
    { unfold when, setitem, modify, ret in H2. by destruct (truthy (description c)). }
    destruct (when (truthy (subheading c)) _ s2) as [[e|[]] s3] eqn:H3.
    { unfold when, setitem, modify, ret in H3. by destruct (truthy (subheading c)). }
    done.
  - rewrite bool_decide_eq_false_2; [done|]. by intros [? ?].
Qed.

Lemma update_loop_counts (k : nat) : forall (i0 n0 : nat) (counts : nat * nat) (s : state),
  n0 + k <= length (store s) ->
  (foldM update_category counts (zip (seq i0 k) (seq n0 k)) s).1
  = inr (fold_left (count_step (content_map s))
           (zip (seq i0 k) ((fun l => default [] (store s !! l)) <$> seq n0 k)) counts).
Proof.
  induction k as [|k IH]; intros i0 n0 counts s Hk; [done|].
  cbn [seq zip zip_with foldM fmap list_fmap fold_left].
  destruct (update_category_run counts i0 n0 s ltac:(lia)) as [counts1 H1].
  pose proof (update_category_value counts i0 n0 s) as Hv. rewrite H1 in Hv.
  injection Hv as ->.
  unfold bind at 1. rewrite H1.
  set (s1 := with_store _ s).
  rewrite IH by (unfold s1; rewrite with_store_store, length_insert; lia).
  change (content_map s1) with (content_map s). do 3 f_equal.
  apply Forall_fmap_ext, Forall_forall. intros l Hl%elem_of_seq.
  unfold s1. rewrite with_store_store. f_equal. apply list_lookup_insert_ne. lia.
Qed.

Lemma count_fold (cm : gmap str content) (rows : list row) :
  forall (i0 : nat) (counts : nat * nat),
    0 < i0 ->
    fold_left (count_step cm) (zip (seq i0 (length rows)) rows) counts
    = (counts.1 + length (filter (fun d => matched cm d = true) rows),
       counts.2 + length (filter (fun d => matched cm d = false) rows)).
Proof.
  induction rows as [|d rows IH]; intros i0 [u n] Hi.
  - cbn. f_equal; lia.
  - cbn [length seq zip zip_with fold_left]. rewrite IH by lia.
    assert (Hstep : count_step cm (u, n) (i0, d)
                    = if matched cm d then (u + 1, n) else (u, n + 1)).
    { unfold count_step. cbn [fst snd]. by rewrite bool_decide_eq_false_2 by lia. }
    rewrite Hstep, !filter_cons.
    destruct (matched cm d) eqn:Hm; cbn [fst snd].
    + rewrite decide_True by done. rewrite decide_False by done. cbn. f_equal; lia.
    + rewrite decide_False by done. rewrite decide_True by done. cbn. f_equal; lia.
Qed.

Lemma count_fold_from_zero (cm : gmap str content) (rows : list row) :
  fold_left (count_step cm) (zip (seq 0 (length rows)) rows) (0, 0)
  = (length (filter (fun d => matched cm d = true) (drop 1 rows)),
     length (filter (fun d => matched cm d = false) (drop 1 rows))).
Proof.
  destruct rows as [|d rows]; [done|].
  cbn [length seq zip zip_with fold_left].
  change (count_step cm (0, 0) (0, d)) with (0, 0).
  rewrite count_fold by lia. cbn [fst snd drop]. by rewrite !Nat.add_0_l.
Qed.

(** The merger in closed form, its counters included. *)
Lemma update_shopify_categories_counts (s : state) :
  categories_allocated s ->
  exists s',
    update_shopify_categories s = (inr tt, s')
    /\ stats s'
       = {| plp_entries_loaded := plp_entries_loaded (stats s);
            shopify_categories_loaded := shopify_categories_loaded (stats s);
            categories_updated :=
              length (filter (fun d => matched (content_map s) d = true)
                        (drop 1 (loaded_rows s)));
            no_match_found :=
              length (filter (fun d => matched (content_map s) d = false)
                        (drop 1 (loaded_rows s))) |}
    /\ plp_content s' = plp_content s
    /\ length (store s') = length (store s) + length (shopify_categories s).
Proof.
  intros Hv. unfold update_shopify_categories.
  unfold bind at 1. unfold gets at 1.
  unfold bind at 1. rewrite copy_loop by exact Hv.
  cbn [app].
  unfold bind at 1. unfold modify at 1.
  unfold bind at 1. unfold gets at 1.
  set (n0 := length (store s)).
  set (cats := shopify_categories s).
  set (s1 := with_updated_categories _ _).
  assert (Hupd1 : updated_categories s1 = seq n0 (length cats)) by reflexivity.
  assert (Hst1 : store s1 = store s ++ ((fun l => default [] (store s !! l)) <$> cats))
    by reflexivity.
  rewrite Hupd1, length_seq.
  assert (Hlen1 : n0 + length cats <= length (store s1)).
  { rewrite Hst1, length_app, length_fmap. unfold n0. lia. }
  destruct (update_loop (length cats) 0 n0 (0, 0) s1 Hlen1) as
    (counts & s2 & Hrun & Hsame & Hlen & _ & _).
  pose proof (update_loop_counts (length cats) 0 n0 (0, 0) s1 Hlen1) as Hcounts.
  rewrite Hrun in Hcounts. cbn [fst] in Hcounts. injection Hcounts as Hcounts.
  assert (Hrows : (fun l => default [] (store s1 !! l)) <$> seq n0 (length cats)
                  = loaded_rows s).
  { unfold loaded_rows. fold cats. rewrite Hst1. apply list_eq. intros i.
    rewrite !list_lookup_fmap.
    destruct (decide (i < length cats)) as [Hi|Hi].
    - rewrite lookup_seq_lt by done. cbn [fmap option_fmap option_map].
      rewrite lookup_app_r by (unfold n0; lia).
      replace (n0 + i - length (store s)) with i by (unfold n0; lia).
      rewrite list_lookup_fmap.
      by destruct (lookup_lt_is_Some_2 cats i Hi) as [l ->].
    - rewrite lookup_seq_ge by lia. by rewrite (lookup_ge_None_2 cats i) by lia. }
  rewrite Hst1 in Hrows. rewrite Hrows in Hcounts.
  replace (length cats) with (length (loaded_rows s)) in Hcounts
    by (unfold loaded_rows; by rewrite length_fmap).
  rewrite count_fold_from_zero in Hcounts.
  unfold bind at 1. rewrite Hrun. unfold modify.
  eexists. split; [reflexivity|].
  rewrite Hsame, Hcounts. cbn.
  split; [done|]. split; [done|].
  rewrite Hlen, Hst1, length_app, length_fmap. done.
Qed.

Lemma merge_content_keys (c : content) (d : row) :
  PyDict.keys (merge_content c d)
  = PyDict.keys d ++ filter (fun k => k ∉ PyDict.keys d) (written_columns c).
Proof.
  assert (H12 : Title <> Body_HTML) by (by vm_compute).
  assert (H13 : Title <> Metafield_subheading) by (by vm_compute).
  assert (H23 : Body_HTML <> Metafield_subheading) by (by vm_compute).
  unfold merge_content, written_columns.
  destruct (truthy (title c)), (truthy (description c)), (truthy (subheading c));
    cbn [app]; rewrite ?keys_set; rewrite ?filter_cons, ?filter_nil;
    repeat (case_decide; rewrite ?keys_set, ?elem_of_app, ?list_elem_of_singleton in *;
            cbn [app]);
    rewrite ?app_nil_r, <- ?app_assoc; try done; exfalso; intuition congruence.
Qed.

End MergerCounts.


Lemma three_categories_allocated : categories_allocated three_categories.
Proof. repeat constructor. Qed.


(** X8: a category after the first whose handle has an entry in the
    content map gets the source title as its title when that title is not
    empty, the body template of the four source fields as its body HTML
    when the description is not empty, and the source sub-heading as its
    sub-heading metafield when that is not empty. *)
Theorem merger_writes_content (s : Script.state) (i : nat) (l : Script.loc)
    (d : row) (c : Script.content) :
  categories_allocated s ->
  0 < i ->
  Script.shopify_categories s !! i = Some l ->
  Script.store s !! l = Some d ->
  Script.content_map s !! PyDict.get_default Script.Handle [] d = Some c ->
  exists s' copy d',
    Script.update_shopify_categories s = (inr tt, s')
    /\ Script.updated_categories s' !! i = Some copy
    /\ Script.store s' !! copy = Some d'
    /\ (Script.title c <> [] -> PyDict.get Script.Title d' = Some (Script.title c))
    /\ (Script.description c <> [] ->
          PyDict.get Script.Body_HTML d'
          = Some (create_html_content (Script.title c) (Script.subheading c)
                    (Script.description c) (Script.content_under_listing c)))
    /\ (Script.subheading c <> [] ->
          PyDict.get Script.Metafield_subheading d' = Some (Script.subheading c)).
Proof.
  intros Hv Hi Hl Hd Hc.
  destruct (update_shopify_categories_run s Hv)
    as (s' & Hrun & _ & _ & _ & Hupd & _ & Hmerged).
  specialize (Hmerged i l Hl). rewrite Hd in Hmerged. cbn [default] in Hmerged.
  unfold id in Hmerged.
  unfold merged_row in Hmerged. rewrite bool_decide_eq_false_2 in Hmerged by lia.
  rewrite Hc in Hmerged.
  exists s', (length (Script.store s) + i), (merge_content c d).
  split; [exact Hrun|]. split.
  { rewrite Hupd. apply lookup_seq. split; [done|]. by eapply lookup_lt_Some. }
  split; [exact Hmerged|].
  assert (H12 : Script.Title <> Script.Body_HTML) by (by vm_compute).
  assert (H13 : Script.Title <> Script.Metafield_subheading) by (by vm_compute).
  assert (H23 : Script.Body_HTML <> Script.Metafield_subheading) by (by vm_compute).
  split; [|split]; intros Hne; rewrite merge_content_get.
  - rewrite (bool_decide_eq_false_2 (_ = Script.Metafield_subheading)) by done.
    rewrite (bool_decide_eq_false_2 (_ = Script.Body_HTML)) by done.
    rewrite !andb_false_r. rewrite bool_decide_eq_true_2 by done.
    by destruct (Script.title c).
  - rewrite (bool_decide_eq_false_2 (_ = Script.Metafield_subheading)) by done.
    rewrite !andb_false_r. rewrite bool_decide_eq_true_2 by done.
    by destruct (Script.description c).
  - rewrite bool_decide_eq_true_2 by done. by destruct (Script.subheading c).
Qed.

Lemma merger_writes_content_witness :
  exists s' copy d',
    Script.update_shopify_categories three_categories = (inr tt, s')
    /\ Script.updated_categories s' !! 1 = Some copy
    /\ Script.store s' !! copy = Some d'
    /\ PyDict.get Script.Title d' = Some (py "Tacori Rings")
    /\ PyDict.get Script.Metafield_subheading d' = Some (py "Since 1969").
Proof.
  destruct (merger_writes_content three_categories 1 1 (tacori_row (py "2")) full_content
              three_categories_allocated)
    as (s' & copy & d' & Hrun & Hcopy & Hd' & Ht & _ & Hs).
  - lia.
  - reflexivity.
  - reflexivity.
  - reflexivity.
  - exists s', copy, d'. split; [exact Hrun|]. split; [exact Hcopy|]. split; [exact Hd'|].
    split; [apply Ht; discriminate|apply Hs; discriminate].
Defined.

(** X9: the merger never removes, renames or reorders a column of a
    category: the columns of the updated dictionary are those of the loaded
    one, in the same order, followed by those of [Title], [Body HTML] and
    the sub-heading metafield that it wrote and that were missing.  The
    first category and the categories without an entry in the content map
    keep exactly their columns. *)
Theorem merger_keeps_columns (s : Script.state) (i : nat) (l : Script.loc) (d : row) :
  categories_allocated s ->
  Script.shopify_categories s !! i = Some l ->
  Script.store s !! l = Some d ->
  exists s' copy d',
    Script.update_shopify_categories s = (inr tt, s')
    /\ Script.updated_categories s' !! i = Some copy
    /\ Script.store s' !! copy = Some d'
    /\ PyDict.keys d'
       = PyDict.keys d
         ++ match Script.content_map s !! PyDict.get_default Script.Handle [] d with
            | Some c =>
                if bool_decide (i = 0) then []
                else filter (fun k => k ∉ PyDict.keys d) (written_columns c)
            | None => []
            end.
Proof.
  intros Hv Hl Hd.
  destruct (update_shopify_categories_run s Hv)
    as (s' & Hrun & _ & _ & _ & Hupd & _ & Hmerged).
  specialize (Hmerged i l Hl). rewrite Hd in Hmerged. cbn [default] in Hmerged.
  unfold id in Hmerged.
  eexists s', (length (Script.store s) + i), _.
  split; [exact Hrun|]. split.
  { rewrite Hupd. apply lookup_seq. split; [done|]. by eapply lookup_lt_Some. }
  split; [exact Hmerged|].
  unfold merged_row.
  destruct (Script.content_map s !! PyDict.get_default Script.Handle [] d) as [c|];
    case_bool_decide; rewrite ?app_nil_r; try done.
  apply merge_content_keys.
Qed.

Lemma merger_keeps_columns_witness :
  exists s' copy d',
    Script.update_shopify_categories three_categories = (inr tt, s')
    /\ Script.updated_categories s' !! 1 = Some copy
    /\ Script.store s' !! copy = Some d'
    /\ PyDict.keys d'
       = [py "ID"; Script.Handle; Script.Title; Script.Body_HTML;
          Script.Metafield_subheading].
Proof.
  destruct (merger_keeps_columns three_categories 1 1 (tacori_row (py "2"))
              three_categories_allocated)
    as (s' & copy & d' & Hrun & Hcopy & Hd' & Hkeys).
  - reflexivity.
  - reflexivity.
  - exists s', copy, d'. split; [exact Hrun|]. split; [exact Hcopy|]. split; [exact Hd'|].
    rewrite Hkeys. reflexivity.
Defined.

(** ** Saving *)

Section Saving.

Import Script.

Lemma with_output_compose (f g : option (list (list str)) -> option (list (list str)))
    (s : state) :
  with_output g (with_output f s) = with_output (fun o => g (f o)) s.
Proof. by destruct s. Qed.

Lemma with_output_same (out : list (list str)) (s : state) :
  output s = Some out -> with_output (fun _ => Some out) s = s.
Proof. destruct s. cbn. by intros ->. Qed.

Lemma dict_to_list_fits (names : list str) (d : row) :
  Csv.dict_to_list names d
  = if fits names d then inr (written_record names d) else inl ValueError.
Proof. reflexivity. Qed.

Lemma save_loop_outcome (names : list str) (h : list row) (locs : list loc)
    (rows : list row) :
  Forall2 (fun l d => h !! l = Some d) locs rows ->
  forall (out : list (list str)) (s : state),
    store s = h ->
    output s = Some out ->
    foldM (fun _ category =>
             d <- deref category;;
             r <- lift (Csv.dict_to_list names d);;
             write_record r) tt locs s
    = match list_find (fun d => fits names d = false) rows with
      | None =>
          (inr tt, with_output (fun _ => Some (out ++ (written_record names <$> rows))) s)
      | Some (i, _) =>
          (inl ValueError,
           with_output (fun _ => Some (out ++ (written_record names <$> take i rows))) s)
      end.
Proof.
  induction 1 as [|l d locs rows Hd Hall IH]; intros out s Hst Hout.
  - cbn. unfold ret. rewrite app_nil_r. by rewrite with_output_same.
  - cbn [foldM list_find].
    unfold bind at 1. unfold bind at 1. unfold deref at 1, gets at 1.
    rewrite Hst, Hd. cbn [default]. unfold id.
    unfold bind at 1. unfold lift at 1. rewrite dict_to_list_fits.
    destruct (fits names d) eqn:Hfit.
    + rewrite decide_False by done.
      unfold write_record at 1, modify at 1.
      rewrite (IH (out ++ [written_record names d])).
      * destruct (list_find _ rows) as [[i x]|]; cbn [fmap option_fmap option_map prod_map fst snd].
        -- rewrite with_output_compose. cbn [take fmap list_fmap].
           by rewrite <- app_assoc.
        -- rewrite with_output_compose. cbn [fmap list_fmap].
           by rewrite <- app_assoc.
      * by destruct s.
      * destruct s. cbn in *. by rewrite Hout.
    + rewrite decide_True by done. cbn [take fmap list_fmap].
      rewrite app_nil_r. by rewrite with_output_same.
Qed.

(** [save_updated_categories] on a non-empty list of categories whose
    output file opens. *)
Lemma save_updated_categories_run (s : state) (first : loc) (others : list loc)
    (d0 : row) (ds : list row) :
  updated_categories s = first :: others ->
  Forall2 (fun l d => store s !! l = Some d) (first :: others) (d0 :: ds) ->
  save_updated_categories None s
  = match list_find (fun d => fits (PyDict.keys d0) d = false) (d0 :: ds) with
    | None =>
        (inr tt,
         with_output
           (fun _ => Some (PyDict.keys d0
                           :: (written_record (PyDict.keys d0) <$> d0 :: ds))) s)
    | Some (i, _) =>
        (inl ValueError,
         with_output
           (fun _ => Some (PyDict.keys d0
                           :: (written_record (PyDict.keys d0) <$> take i (d0 :: ds)))) s)
    end.
Proof.
  intros Hupd Hall.
  unfold save_updated_categories. rewrite try_except_reraise.
  unfold bind at 1. unfold gets at 1. rewrite Hupd.
  unfold bind at 1. unfold deref at 1, gets at 1.
  pose proof Hall as Hall'. apply Forall2_cons in Hall' as [Hd0 _].
  rewrite Hd0. cbn [default]. unfold id.
  unfold bind at 1. unfold modify at 1.
  unfold bind at 1. unfold write_record at 1, modify at 1.
  rewrite with_output_compose. cbn [default app].
  rewrite (save_loop_outcome (PyDict.keys d0) (store s) (first :: others) (d0 :: ds) Hall
             [PyDict.keys d0]); [|by destruct s|by destruct s].
  destruct (list_find _ (d0 :: ds)) as [[i x]|]; by rewrite with_output_compose.
Qed.

End Saving.

Lemma fits_keys (names : list str) (d : row) :
  fits names d = true <-> PyDict.keys d ⊆ names.
Proof.
  unfold fits. rewrite forallb_forall. split.
  - intros H k Hk. apply list_elem_of_In in Hk. apply H in Hk.
    by apply bool_decide_eq_true in Hk.
  - intros H k Hk. apply bool_decide_eq_true. apply H. by apply list_elem_of_In.
Qed.

(** When every category fits the header, all of them are written. *)
Lemma save_updated_categories_fitting (s : Script.state) (first : Script.loc)
    (others : list Script.loc) (d0 : row) (ds : list row) :
  Script.updated_categories s = first :: others ->
  Forall2 (fun l d => Script.store s !! l = Some d) (first :: others) (d0 :: ds) ->
  Forall (fun d => PyDict.keys d ⊆ PyDict.keys d0) ds ->
  exists s',
    Script.save_updated_categories None s = (inr tt, s')
    /\ Script.output s'
       = Some (PyDict.keys d0 :: (written_record (PyDict.keys d0) <$> d0 :: ds)).
Proof.
  intros Hupd Hall Hds.
  rewrite (save_updated_categories_run s first others d0 ds Hupd Hall).
  destruct (list_find _ (d0 :: ds)) as [[i x]|] eqn:Hfind.
  - exfalso. apply list_find_Some in Hfind as (Hi & Hx & _).
    apply list_elem_of_lookup_2 in Hi.
    assert (Hall' : Forall (fun d => PyDict.keys d ⊆ PyDict.keys d0) (d0 :: ds)).
    { constructor; [done|done]. }
    rewrite Forall_forall in Hall'. apply Hall', fits_keys in Hi. congruence.
  - by eexists.
Qed.

(** X10: with a category list that is not empty and an output file that
    opens, [save_updated_categories] writes the columns of the first
    category as the header and then one record per category, in order, each
    with the value of every header column (the empty string where the
    category lacks it), as long as every column of the category is a header
    column.  At the first category with a column that the first one does
    not have it raises [ValueError], leaving the header and the records
    before it in the file. *)
Theorem save_writes_until_unknown_column (s : Script.state) (first : Script.loc)
    (others : list Script.loc) (d0 : row) (ds : list row) :
  Script.updated_categories s = first :: others ->
  Forall2 (fun l d => Script.store s !! l = Some d) (first :: others) (d0 :: ds) ->
  let names := PyDict.keys d0 in
  (Forall (fun d => PyDict.keys d ⊆ names) ds ->
     exists s',
       Script.save_updated_categories None s = (inr tt, s')
       /\ Script.output s' = Some (names :: (written_record names <$> d0 :: ds)))
  /\ (forall before d after,
        ds = before ++ d :: after ->
        Forall (fun d => PyDict.keys d ⊆ names) before ->
        ~ PyDict.keys d ⊆ names ->
        exists s',
          Script.save_updated_categories None s = (inl ValueError, s')
          /\ Script.output s'
             = Some (names :: (written_record names <$> d0 :: before))).
Proof.
  intros Hupd Hall names.
  assert (Hfits : forall d, fits names d = true <-> PyDict.keys d ⊆ names).
  { intros d. apply fits_keys. }
  assert (Hfirst : fits names d0 = true) by (by apply Hfits).
  split.
  - intros Hds. by apply (save_updated_categories_fitting s first others).
  - rewrite (save_updated_categories_run s first others d0 ds Hupd Hall). fold names.
    intros before d after -> Hbefore Hd.
    assert (Hfind : list_find (fun d => fits names d = false) (d0 :: before ++ d :: after)
                    = Some (S (length before), d)).
    { apply list_find_Some. split; [|split].
      - cbn. by apply list_lookup_middle.
      - destruct (fits names d) eqn:Hf; [|done]. by apply Hfits in Hf.
      - intros j y Hj Hlt Hy.
        assert (Hin : y ∈ d0 :: before).
        { destruct j as [|j].
          - cbn in Hj. injection Hj as <-. by left.
          - right. change ((before ++ d :: after) !! j = Some y) in Hj.
            rewrite lookup_app_l in Hj by lia. by eapply list_elem_of_lookup_2. }
        assert (Hall' : Forall (fun d => PyDict.keys d ⊆ names) (d0 :: before)).
        { constructor; [by apply Hfits|done]. }
        rewrite Forall_forall in Hall'. apply Hall', Hfits in Hin. congruence. }
    rewrite Hfind. eexists. split; [done|]. cbn [Script.output Script.with_output].
    cbn [take]. by rewrite take_app_length.
Qed.

Lemma save_writes_until_unknown_column_witness :
  exists s',
    Script.save_updated_categories None uneven_categories = (inl ValueError, s')
    /\ Script.output s' = Some [[py "ID"]; [py "1"]].
Proof.
  destruct (save_writes_until_unknown_column uneven_categories 0 [1; 2]
              [(py "ID", py "1")]
              [[(py "ID", py "2"); (Script.Title, py "Tacori Rings")]; [(py "ID", py "3")]])
    as [_ Hbad].
  - reflexivity.
  - repeat constructor.
  - destruct (Hbad [] [(py "ID", py "2"); (Script.Title, py "Tacori Rings")]
                [[(py "ID", py "3")]]) as (s' & Hrun & Hout).
    + reflexivity.
    + constructor.
    + intros Hsub. specialize (Hsub Script.Title).
      assert (Hin : Script.Title ∈ PyDict.keys [(py "ID", py "2"); (Script.Title, py "Tacori Rings")]).
      { right. by left. }
      apply Hsub in Hin. apply list_elem_of_singleton in Hin. by vm_compute in Hin.
    + exists s'. split; [exact Hrun|exact Hout].
Defined.

(** ** The whole run *)

Section WholeRun.

Context {checks : UrlParse.UrlChecks}.

Import Script.

Lemma update_shopify_categories_closed (s : state) :
  categories_allocated s ->
  exists s',
    update_shopify_categories s = (inr tt, s')
    /\ stats s'
       = {| plp_entries_loaded := plp_entries_loaded (stats s);
            shopify_categories_loaded := shopify_categories_loaded (stats s);
            categories_updated :=
              length (filter (fun d => matched (content_map s) d = true)
                        (drop 1 (loaded_rows s)));
            no_match_found :=
              length (filter (fun d => matched (content_map s) d = false)
                        (drop 1 (loaded_rows s))) |}
    /\ plp_content s' = plp_content s
    /\ content_map s' = content_map s
    /\ output s' = output s
    /\ updated_categories s' = seq (length (store s)) (length (shopify_categories s))
    /\ Forall2 (fun l d => store s' !! l = Some d)
               (seq (length (store s)) (length (shopify_categories s)))
               (merged_rows (content_map s) (loaded_rows s)).
Proof.
  intros Hv.
  destruct (update_shopify_categories_run s Hv)
    as (s' & Hrun & _ & Hcm & Hout & Hupd & _ & Hmerged).
  destruct (update_shopify_categories_counts s Hv) as (s'' & Hrun' & Hstats & Hplp & _).
  rewrite Hrun in Hrun'. injection Hrun' as <-.
  exists s'. split; [done|]. split; [done|]. split; [done|]. split; [done|].
  split; [done|]. split; [done|].
  apply Forall2_same_length_lookup_2.
  { unfold merged_rows, loaded_rows. by rewrite length_seq, length_imap, length_fmap. }
  intros i l d Hl Hd. apply lookup_seq in Hl as [-> Hi].
  unfold merged_rows, loaded_rows in Hd.
  rewrite list_lookup_imap, list_lookup_fmap in Hd.
  destruct (shopify_categories s !! i) as [l|] eqn:Hli; [|done].
  cbn in Hd. injection Hd as <-. by apply Hmerged.
Qed.

Lemma content_map_of_empty (cleaned : list row) :
  Forall without_handle cleaned -> forall cm, content_map_of cleaned cm = cm.
Proof.
  unfold content_map_of. induction 1 as [|c cleaned Hc _ IH]; intros cm; [done|].
  cbn [fold_left]. rewrite IH. unfold add_content. unfold without_handle in Hc.
  by destruct (handle_of c) as [[|x h]|].
Qed.

Variables plp_file categories_file : Csv.source.
Variables P C : list row.
Hypothesis Hplp_records : Csv.records plp_file <> [].
Hypothesis Hplp_fault : Csv.fault plp_file = None.
Hypothesis Hplp_clean : cleaned_to (Csv.rows plp_file) P.
Hypothesis Hcat_records : Csv.records categories_file <> [].
Hypothesis Hcat_fault : Csv.fault categories_file = None.
Hypothesis Hcat_clean : cleaned_to (Csv.rows categories_file) C.

(** The object after both loads and the merge. *)
Lemma run_until_merge :
  exists s3,
    (load_plp_content plp_file;;
     load_shopify_categories categories_file;;
     update_shopify_categories) init = (inr tt, s3)
    /\ stats s3
       = {| plp_entries_loaded := length P;
            shopify_categories_loaded := length C;
            categories_updated :=
              length (filter (fun d => matched (content_map_of P ∅) d = true) (drop 1 C));
            no_match_found :=
              length (filter (fun d => matched (content_map_of P ∅) d = false) (drop 1 C)) |}
    /\ plp_content s3 = P
    /\ content_map s3 = content_map_of P ∅
    /\ output s3 = None
    /\ updated_categories s3 = seq (length C) (length C)
    /\ Forall2 (fun l d => store s3 !! l = Some d)
               (seq (length C) (length C)) (merged_rows (content_map_of P ∅) C).
Proof.
  unfold bind at 1.
  rewrite (load_plp_content_run plp_file P Hplp_records Hplp_fault Hplp_clean).
  unfold bind at 1.
  rewrite (load_shopify_categories_loaded categories_file C Hcat_records Hcat_fault Hcat_clean).
  match goal with |- context [update_shopify_categories ?s] => set (s2 := s) end.
  assert (Hstore2 : store s2 = C) by reflexivity.
  assert (Hcats2 : shopify_categories s2 = seq 0 (length C)) by reflexivity.
  assert (Hrows2 : loaded_rows s2 = C).
  { unfold loaded_rows. rewrite Hstore2, Hcats2. apply list_eq. intros i.
    rewrite list_lookup_fmap.
    destruct (decide (i < length C)) as [Hi|Hi].
    - rewrite lookup_seq_lt by done. cbn.
      by destruct (lookup_lt_is_Some_2 C i Hi) as [d ->].
    - rewrite lookup_seq_ge by lia. by rewrite (lookup_ge_None_2 C i) by lia. }
  assert (Halloc : categories_allocated s2).
  { unfold categories_allocated. rewrite Hstore2, Hcats2. apply Forall_forall.
    intros l Hl%elem_of_seq. lia. }
  destruct (update_shopify_categories_closed s2 Halloc)
    as (s3 & Hrun & Hstats & Hplp & Hcm & Hout & Hupd & Hall).
  rewrite Hrows2 in *. rewrite Hstore2, Hcats2, length_seq in *.
  exists s3. split; [exact Hrun|]. split; [exact Hstats|]. done.
Qed.

Lemma print_statistics_run (s : state) :
  print_statistics s
  = if (0 <? plp_entries_loaded (stats s)) && (size (content_map s) =? 0)
    then (inl ZeroDivisionError, s) else (inr tt, s).
Proof. unfold print_statistics, bind, gets. by destruct (_ && _). Qed.

Lemma run_zero_division (open_fault : option exn) :
  P <> [] -> Forall without_handle P ->
  exists s',
    run plp_file categories_file open_fault init = (inl ZeroDivisionError, s')
    /\ output s' = None
    /\ updated_categories s' = seq (length C) (length C).
Proof.
  intros Hne Hnone.
  destruct run_until_merge as (s3 & Hrun & Hstats & _ & Hcm & Hout & Hupd & _).
  rewrite content_map_of_empty in Hcm by done.
  exists s3. split; [|done].
  unfold run. rewrite try_except_reraise.
  unfold bind in *.
  destruct (load_plp_content plp_file init) as [[e|[]] s1]; [done|].
  destruct (load_shopify_categories categories_file s1) as [[e|[]] s2]; [done|].
  rewrite Hrun.
  rewrite print_statistics_run, Hstats, Hcm. cbn [plp_entries_loaded].
  destruct P; [done|]. reflexivity.
Qed.

Lemma merged_rows_head (cm : gmap str content) :
  head (merged_rows cm C) = head C.
Proof. by destruct C. Qed.

Lemma merged_rows_fit (cm : gmap str content) (names : list str) :
  Forall (fun d => PyDict.keys d ⊆ names) C ->
  Title ∈ names -> Body_HTML ∈ names -> Metafield_subheading ∈ names ->
  Forall (fun d => PyDict.keys d ⊆ names) (merged_rows cm C).
Proof.
  intros Hall H1 H2 H3. apply Forall_forall. intros d' Hd'.
  apply list_elem_of_lookup in Hd' as [i Hi].
  unfold merged_rows in Hi. rewrite list_lookup_imap in Hi.
  destruct (C !! i) as [d|] eqn:Hd; [|done]. injection Hi as <-.
  rewrite Forall_forall in Hall. assert (Hk : PyDict.keys d ⊆ names).
  { apply Hall. by eapply list_elem_of_lookup_2. }
  unfold merged_row. case_bool_decide; [done|].
  destruct (cm !! _) as [c|]; [|done].
  rewrite merge_content_keys. intros k [Hin|Hin]%elem_of_app; [by apply Hk|].
  apply list_elem_of_filter in Hin as [_ Hin]. unfold written_columns in Hin.
  destruct (truthy (title c)), (truthy (description c)), (truthy (subheading c));
    cbn [app] in Hin;
    repeat (apply elem_of_cons in Hin as [->|Hin]; [assumption|]);
    by apply elem_of_nil in Hin.
Qed.

Lemma run_writes (first : row) (others : list row) :
  C = first :: others ->
  P = [] \/ ~ Forall without_handle P ->
  Forall (fun d => PyDict.keys d ⊆ PyDict.keys first) (merged_rows (content_map_of P ∅) C) ->
  exists s',
    run plp_file categories_file None init = (inr tt, s')
    /\ output s'
       = Some (PyDict.keys first
               :: (written_record (PyDict.keys first)
                     <$> merged_rows (content_map_of P ∅) C))
    /\ plp_content s' = P
    /\ stats s'
       = {| plp_entries_loaded := length P;
            shopify_categories_loaded := length C;
            categories_updated :=
              length (filter (fun d => matched (content_map_of P ∅) d = true) others);
            no_match_found :=
              length (filter (fun d => matched (content_map_of P ∅) d = false) others) |}.
Proof.
  intros HC HP Hfit.
  destruct run_until_merge as (s3 & Hrun & Hstats & Hplp & Hcm & Hout & Hupd & Hall).
  set (cm := content_map_of P ∅) in *.
  assert (Hprint : print_statistics s3 = (inr tt, s3)).
  { rewrite print_statistics_run, Hstats, Hcm. cbn [plp_entries_loaded].
    destruct HP as [->|HP]; [done|].
    destruct (size cm =? 0) eqn:Hsz; [|by rewrite andb_false_r].
    exfalso. apply HP. apply Nat.eqb_eq, map_size_empty_iff in Hsz.
    apply Forall_forall. intros c Hc. unfold without_handle.
    destruct (handle_of c) as [[|x h]|] eqn:Hh; try done.
    assert (Hl : is_Some (cm !! (x :: h))).
    { unfold cm. rewrite content_map_of_lookup. cbn [truthy].
      unfold last_with_handle.
      destruct (last (filter _ P)) as [c'|] eqn:Hlast; [by eexists|].
      apply last_None in Hlast.
      assert (Hin : c ∈ filter (fun c => handle_of c = Some (x :: h)) P)
        by (by apply list_elem_of_filter).
      rewrite Hlast in Hin. by apply elem_of_nil in Hin. }
    rewrite Hsz, lookup_empty in Hl. by destruct Hl. }
  destruct (merged_rows cm C) as [|d0 ds] eqn:Hmerged.
  { subst C. discriminate. }
  assert (Hd0 : d0 = first).
  { pose proof (merged_rows_head cm) as Hh. rewrite Hmerged, HC in Hh. by injection Hh. }
  subst d0.
  assert (Hseq : seq (length C) (length C) = length C :: seq (S (length C)) (length others)).
  { rewrite HC. reflexivity. }
  rewrite Hseq in Hupd, Hall.
  destruct (save_updated_categories_fitting s3 _ _ first ds Hupd Hall)
    as (s4 & Hsave & Hout4).
  { by apply Forall_cons in Hfit as [_ ?]. }
  exists s4. split.
  { unfold run. rewrite try_except_reraise.
    unfold bind in *.
    destruct (load_plp_content plp_file init) as [[e|[]] s1]; [done|].
    destruct (load_shopify_categories categories_file s1) as [[e|[]] s2]; [done|].
    rewrite Hrun. rewrite Hprint. exact Hsave. }
  split; [exact Hout4|].
  assert (Hkeep : plp_content s4 = plp_content s3 /\ stats s4 = stats s3).
  { pose proof (save_updated_categories_run s3 _ _ first ds Hupd Hall) as Hr.
    rewrite Hsave in Hr. destruct (list_find _ _) as [[i x]|]; [done|].
    injection Hr as ->. by destruct s3. }
  destruct Hkeep as [-> ->]. split; [done|]. rewrite Hstats. by rewrite HC.
Qed.

Lemma run_without_categories (open_fault : option exn) :
  C = [] ->
  P = [] \/ ~ Forall without_handle P ->
  exists s',
    run plp_file categories_file open_fault init = (inr tt, s') /\ output s' = None.
Proof.
  intros HC HP.
  destruct run_until_merge as (s3 & Hrun & Hstats & Hplp & Hcm & Hout & Hupd & Hall).
  exists s3. split; [|done].
  unfold run. rewrite try_except_reraise.
  unfold bind in *.
  destruct (load_plp_content plp_file init) as [[e|[]] s1]; [done|].
  destruct (load_shopify_categories categories_file s1) as [[e|[]] s2]; [done|].
  rewrite Hrun. rewrite print_statistics_run, Hstats, Hcm. cbn [plp_entries_loaded].
  assert (Hb : (0 <? length P) && (size (content_map_of P ∅) =? 0) = false).
  { destruct HP as [->|HP]; [done|].
    destruct (size (content_map_of P ∅) =? 0) eqn:Hsz; [|by rewrite andb_false_r].
    exfalso. apply HP. apply Nat.eqb_eq, map_size_empty_iff in Hsz.
    apply Forall_forall. intros c Hc. unfold without_handle.
    destruct (handle_of c) as [[|x h]|] eqn:Hh; try done.
    assert (Hl : is_Some (content_map_of P ∅ !! (x :: h))).
    { rewrite content_map_of_lookup. cbn [truthy].
      unfold last_with_handle.
      destruct (last (filter _ P)) as [c'|] eqn:Hlast; [by eexists|].
      apply last_None in Hlast.
      assert (Hin : c ∈ filter (fun c => handle_of c = Some (x :: h)) P)
        by (by apply list_elem_of_filter).
      rewrite Hlast in Hin. by apply elem_of_nil in Hin. }
    rewrite Hsz, lookup_empty in Hl. by destruct Hl. }
  rewrite Hb. unfold save_updated_categories. rewrite try_except_reraise.
  unfold bind, gets. rewrite Hupd, HC. reflexivity.
Qed.

End WholeRun.

(** X11: when both files are read without an exception and the source file
    has rows, none of which gives a non-empty handle, [run] ends with
    [ZeroDivisionError] (the match rate of [print_statistics] divides by the
    size of the empty content map) after the merge and before the output
    file is opened: nothing is written, whether or not the file could be
    opened. *)
Theorem run_fails_without_handles {checks : UrlParse.UrlChecks}
    (plp_file categories_file : Csv.source) (P C : list row) (open_fault : option exn) :
  Csv.records plp_file <> [] -> Csv.fault plp_file = None ->
  cleaned_to (Csv.rows plp_file) P ->
  Csv.records categories_file <> [] -> Csv.fault categories_file = None ->
  cleaned_to (Csv.rows categories_file) C ->
  P <> [] -> Forall without_handle P ->
  exists s',
    Script.run plp_file categories_file open_fault Script.init = (inl ZeroDivisionError, s')
    /\ Script.output s' = None.
Proof.
  intros H1 H2 H3 H4 H5 H6 Hne Hnone.
  destruct (run_zero_division plp_file categories_file P C H1 H2 H3 H4 H5 H6
              open_fault Hne Hnone) as (s' & Hrun & Hout & _).
  by exists s'.
Qed.

Lemma export_with_columns_cleaning :
  cleaned_to (Csv.rows export_with_columns) export_with_columns_cleaned.
Proof. repeat constructor. Qed.

Lemma run_fails_without_handles_witness :
  exists s',
    @Script.run lenient_checks plp_without_handles export_with_columns None Script.init
    = (inl ZeroDivisionError, s')
    /\ Script.output s' = None.
Proof.
  apply (@run_fails_without_handles lenient_checks plp_without_handles export_with_columns
           [[(py "URL", py "https://x.com"); (py "Title", py "Home")]]
           export_with_columns_cleaned None).
  - discriminate.
  - reflexivity.
  - repeat constructor.
  - discriminate.
  - reflexivity.
  - exact export_with_columns_cleaning.
  - discriminate.
  - repeat constructor.
Defined.

(** X12: the whole migration.  When both files are read without an
    exception, the source file has no rows or some row with a non-empty
    handle, and every category has only columns of the first one, among
    them [Title], [Body HTML] and the sub-heading metafield, [run] returns
    and the output file holds the columns of the first category and then,
    in the order of the destination file, every category merged against
    the content map of the source file (the first one as it was loaded);
    [plp_content] holds the source rows and the four counters the numbers
    of source rows, of categories, of categories after the first with an
    entry in the content map, and of those without.  With no category at
    all [run] returns and writes nothing. *)
Theorem run_migrates {checks : UrlParse.UrlChecks}
    (plp_file categories_file : Csv.source) (P C : list row) :
  Csv.records plp_file <> [] -> Csv.fault plp_file = None ->
  cleaned_to (Csv.rows plp_file) P ->
  Csv.records categories_file <> [] -> Csv.fault categories_file = None ->
  cleaned_to (Csv.rows categories_file) C ->
  P = [] \/ (exists c x h, c ∈ P /\ handle_of c = Some (x :: h)) ->
  let cm := content_map_of P ∅ in
  (forall first others,
     C = first :: others ->
     Forall (fun d => PyDict.keys d ⊆ PyDict.keys first) others ->
     Script.Title ∈ PyDict.keys first ->
     Script.Body_HTML ∈ PyDict.keys first ->
     Script.Metafield_subheading ∈ PyDict.keys first ->
     exists s',
       Script.run plp_file categories_file None Script.init = (inr tt, s')
       /\ Script.output s'
          = Some (PyDict.keys first
                  :: (written_record (PyDict.keys first) <$> merged_rows cm C))
       /\ Script.plp_content s' = P
       /\ Script.stats s'
          = {| Script.plp_entries_loaded := length P;
               Script.shopify_categories_loaded := length C;
               Script.categories_updated :=
                 length (filter (fun d => matched cm d = true) others);
               Script.no_match_found :=
                 length (filter (fun d => matched cm d = false) others) |})
  /\ (C = [] ->
      forall open_fault, exists s',
        Script.run plp_file categories_file open_fault Script.init = (inr tt, s')
        /\ Script.output s' = None).
Proof.
  intros H1 H2 H3 H4 H5 H6 HP cm.
  assert (HP' : P = [] \/ ~ Forall without_handle P).
  { destruct HP as [->|(c & x & h & Hc & Hh)]; [by left|right].
    intros Hall. rewrite Forall_forall in Hall. specialize (Hall c Hc).
    unfold without_handle in Hall. by rewrite Hh in Hall. }
  split.
  - intros first others HC Hothers Ht Hb Hm.
    apply (run_writes plp_file categories_file P C H1 H2 H3 H4 H5 H6 first others HC HP').
    apply (merged_rows_fit C); [|done..].
    rewrite HC. by constructor.
  - intros HC open_fault.
    by apply (run_without_categories plp_file categories_file P C H1 H2 H3 H4 H5 H6).
Qed.

Lemma run_migrates_witness :
  exists s',
    @Script.run lenient_checks plp_small export_with_columns None Script.init = (inr tt, s')
    /\ Script.output s'
       = Some [[py "Handle"; py "Title"; py "Body HTML";
                py "Metafield: custom.collection_subheading [single_line_text_field]"];
               [py "gucci"; py "Gucci"; py ""; py ""];
               [py "tacori"; py "Tacori Rings"; py "<p>old</p>"; py ""]].
Proof.
  destruct (@run_migrates lenient_checks plp_small export_with_columns
              plp_small_cleaned export_with_columns_cleaned) as [Hrun _].
  - discriminate.
  - reflexivity.
  - exact plp_small_cleaning.
  - discriminate.
  - reflexivity.
  - exact export_with_columns_cleaning.
  - right. eexists _, _, _. split; [by left|]. reflexivity.
  - destruct (Hrun _ _ eq_refl) as (s' & Hs & Hout & _).
    + constructor; [by intros k Hk|constructor].
    + right. left.
    + right. right. left.
    + right. right. right. left.
    + exists s'. split; [exact Hs|]. rewrite Hout. reflexivity.
Defined.



(** ** The validation script as a whole *)

Section Stateless.

Context {S : Type}.

Lemma stateless_ret {A} (a : A) : stateless (@ret S A a).
Proof. by exists (inr a). Qed.

Lemma stateless_lift {A} (r : result A) : stateless (@lift S A r).
Proof. by exists r. Qed.

Lemma stateless_raise {A} (e : exn) : stateless (@raise S A e).
Proof. by exists (inl e). Qed.

Lemma stateless_bind {A B} (m : M S A) (k : A -> M S B) :
  stateless m -> (forall a, stateless (k a)) -> stateless (bind m k).
Proof.
  intros [[e|a] Hm] Hk.
  - exists (inl e). intros s. unfold bind. by rewrite Hm.
  - destruct (Hk a) as [r Hr]. exists r. intros s. unfold bind. by rewrite Hm.
Qed.

Lemma stateless_foldM {A B} (body : B -> A -> M S B) (l : list A) :
  (forall acc x, stateless (body acc x)) -> forall acc, stateless (foldM body acc l).
Proof.
  intros Hb. induction l as [|x l IH]; intros acc; [apply stateless_ret|].
  cbn [foldM]. apply stateless_bind; [apply Hb|]. intros acc'. apply IH.
Qed.

Lemma stateless_for_rows {B} (f : Csv.source) (body : B -> Csv.raw_row -> M S B) (acc : B) :
  (forall acc x, stateless (body acc x)) -> stateless (for_rows f body acc).
Proof.
  intros Hb. unfold for_rows. apply stateless_bind; [by apply stateless_foldM|].
  intros acc'. destruct (Csv.fault f); [apply stateless_raise|apply stateless_ret].
Qed.

Lemma stateless_try_except {A} (m : M S A) (h : exn -> M S A) :
  stateless m -> (forall e, stateless (h e)) -> stateless (try_except m h).
Proof.
  intros [[e|a] Hm] Hh.
  - destruct (Hh e) as [r Hr]. exists r. intros s. unfold try_except. by rewrite Hm.
  - exists (inr a). intros s. unfold try_except. by rewrite Hm.
Qed.

End Stateless.

Section ValidationRun.

Context {checks : UrlParse.UrlChecks}.

Import Validate.

(** [load_csv_file] always returns. *)
Lemma load_csv_file_returns (f : Csv.source) (is_plp : bool) (s : state) :
  exists data s', load_csv_file f is_plp s = (inr data, s').
Proof.
  unfold load_csv_file, try_except. destruct is_plp.
  - match goal with |- context [for_rows f ?b ?a s] =>
      destruct (for_rows f b a s) as [[e|d0] s0] end; unfold ret; by eauto.
  - match goal with |- context [for_rows f ?b ?a s] =>
      destruct (for_rows f b a s) as [[e|d0] s0] end; unfold ret; by eauto.
Qed.

(** Keyed by [ID] it does not touch the object. *)
Lemma load_csv_file_by_id_stateless (f : Csv.source) :
  exists data, PyDict.wf data /\ forall s, load_csv_file f false s = (inr data, s).
Proof.
  assert (Hs : stateless (load_csv_file f false)).
  { unfold load_csv_file. apply stateless_try_except; [|intros e; apply stateless_ret].
    apply stateless_for_rows. intros acc r.
    apply stateless_bind; [apply stateless_lift|]. intros c. apply stateless_ret. }
  destruct Hs as [r Hr].
  destruct (load_csv_file_returns f false ValidateRun.init) as (d & s' & Hd).
  pose proof Hd as Hd'. rewrite Hr in Hd'. injection Hd' as -> <-.
  exists d. split; [by eapply load_csv_file_wf|]. exact Hr.
Qed.

(** Keyed by [URL] it changes [content_map] only. *)
Lemma load_csv_file_frames {T} (proj : state -> T) (f : Csv.source) (is_plp : bool) :
  (forall g s, proj (with_content_map g s) = proj s) ->
  frames proj (load_csv_file f is_plp).
Proof.
  intros Hproj. unfold load_csv_file.
  apply frames_try_except; [|intros e; apply frames_ret].
  destruct is_plp.
  - apply frames_for_rows. intros acc r.
    apply frames_bind; [apply frames_lift|]. intros c. cbv zeta.
    destruct (truthy _); [|apply frames_ret].
    destruct (extract_handle_from_url _); [|apply frames_ret].
    apply frames_bind; [|intros; apply frames_ret].
    apply frames_when, frames_modify. intros s. apply Hproj.
  - apply frames_for_rows. intros acc r.
    apply frames_bind; [apply frames_lift|]. intros c. apply frames_ret.
Qed.

Lemma load_all_files_run (original_file updated_file plp_content_file : Csv.source)
    (s : state) :
  exists original updated plp s',
    ValidateRun.load_all_files original_file updated_file plp_content_file s = (inr tt, s')
    /\ (forall s0, load_csv_file original_file false s0 = (inr original, s0))
    /\ (forall s0, load_csv_file updated_file false s0 = (inr updated, s0))
    /\ PyDict.wf original /\ PyDict.wf updated
    /\ original_categories s' = original
    /\ updated_categories s' = updated
    /\ Validate.plp_content s' = plp
    /\ changes_list s' = changes_list s.
Proof.
  destruct (load_csv_file_by_id_stateless original_file) as (original & Hwf1 & H1).
  destruct (load_csv_file_by_id_stateless updated_file) as (updated & Hwf2 & H2).
  unfold ValidateRun.load_all_files.
  unfold bind at 1. rewrite H1.
  unfold bind at 1. unfold modify at 1.
  unfold bind at 1. rewrite H2.
  unfold bind at 1. unfold modify at 1.
  set (s2 := ValidateRun.with_updated_categories _ _).
  destruct (load_csv_file_returns plp_content_file true s2) as (plp & s3 & H3).
  pose proof (load_csv_file_frames original_categories plp_content_file true
                ltac:(by intros g []) s2) as F1.
  pose proof (load_csv_file_frames updated_categories plp_content_file true
                ltac:(by intros g []) s2) as F2.
  pose proof (load_csv_file_frames changes_list plp_content_file true
                ltac:(by intros g []) s2) as F3.
  rewrite H3 in F1, F2, F3. cbn [snd] in F1, F2, F3.
  unfold bind at 1. rewrite H3. unfold modify.
  eexists original, updated, plp, _. split; [reflexivity|].
  split; [exact H1|]. split; [exact H2|]. split; [exact Hwf1|]. split; [exact Hwf2|].
  cbn. rewrite F1, F2, F3. done.
Qed.

(** One step of the comparison yields no entry or one. *)
Lemma find_changes_step_shape (original : dict str row) (k : str) (u : row) :
  find_changes_step original [] (k, u) = []
  \/ exists e o,
       find_changes_step original [] (k, u) = [e]
       /\ category_id e = k
       /\ PyDict.get k original = Some o /\ o <> []
       /\ changes e <> [] /\ length (changes e) <= 3
       /\ handle e = PyDict.get_default Script.Handle [] u
       /\ html_preview e = html_preview_of (PyDict.get_default Script.Body_HTML [] u).
Proof.
  unfold find_changes_step.
  destruct (PyDict.get k original) as [o|]; [|by left].
  destruct o as [|kv o]; [by left|]. cbn [truthy negb].
  set (o' := kv :: o).
  destruct (bool_decide _ && truthy (PyDict.get_default Script.Title [] u));
  destruct (bool_decide _ && truthy (PyDict.get_default Script.Body_HTML [] u));
  destruct (bool_decide _ && truthy (PyDict.get_default Script.Metafield_subheading [] u));
    cbn [app truthy]; try (by left);
    right; eexists _, o'; (split; [reflexivity|]); cbn; repeat split; try done; lia.
Qed.

Lemma find_changes_step_same (d : dict str row) (k : str) (u : row) :
  PyDict.get k d = Some u -> find_changes_step d [] (k, u) = [].
Proof.
  intros Hk. unfold find_changes_step. rewrite Hk.
  destruct (truthy u); [|done]. cbn [negb].
  rewrite !bool_decide_eq_false_2 by (intros H; by apply H). done.
Qed.

Lemma find_changes_run (s : state) :
  find_changes s
  = (inr (length (flat_map (find_changes_step (original_categories s) [])
                    (updated_categories s))),
     with_changes (flat_map (find_changes_step (original_categories s) [])
                     (updated_categories s)) s).
Proof.
  unfold find_changes, bind, gets, modify, ret, PyDict.items.
  by rewrite find_changes_fold.
Qed.

Lemma flat_map_steps_sublist (original : dict str row) (items : list (str * row)) :
  sublist (category_id <$> flat_map (find_changes_step original []) items) (items.*1).
Proof.
  induction items as [|[k u] items IH]; [done|].
  cbn [flat_map fmap list_fmap]. rewrite fmap_app.
  destruct (find_changes_step_shape original k u) as [->|(e & o & -> & <- & _)].
  - cbn. by apply sublist_cons.
  - cbn. by apply sublist_skip.
Qed.

End ValidationRun.

(** X13: [find_changes] replaces [self.changes] and leaves the other
    attributes alone; it returns the number of entries; the category IDs of
    the entries follow the order of the updated snapshot, with at most one
    entry per row of it; and every entry belongs to a category whose record
    before is not empty, carries between one and three change lines, the
    handle of the updated record and the preview of its body HTML. *)
Theorem find_changes_shape (s : Validate.state) :
  exists s',
    Validate.find_changes s = (inr (length (Validate.changes_list s')), s')
    /\ Validate.original_categories s' = Validate.original_categories s
    /\ Validate.updated_categories s' = Validate.updated_categories s
    /\ Validate.plp_content s' = Validate.plp_content s
    /\ Validate.content_map s' = Validate.content_map s
    /\ sublist (Validate.category_id <$> Validate.changes_list s')
               (PyDict.keys (Validate.updated_categories s))
    /\ Forall (fun e =>
                 (exists o, PyDict.get (Validate.category_id e) (Validate.original_categories s)
                            = Some o /\ o <> [])
                 /\ 1 <= length (Validate.changes e) <= 3
                 /\ exists u, (Validate.category_id e, u) ∈ Validate.updated_categories s
                      /\ Validate.handle e = PyDict.get_default Script.Handle [] u
                      /\ Validate.html_preview e
                         = html_preview_of (PyDict.get_default Script.Body_HTML [] u))
              (Validate.changes_list s').
Proof.
  exists (Validate.with_changes
            (flat_map (Validate.find_changes_step (Validate.original_categories s) [])
               (Validate.updated_categories s)) s).
  split; [apply find_changes_run|]. cbn.
  split; [done|]. split; [done|]. split; [done|]. split; [done|].
  split; [apply flat_map_steps_sublist|].
  apply Forall_forall. intros e He.
  apply list_elem_of_In, in_flat_map in He as ([k u] & Hin & He).
  apply list_elem_of_In in Hin, He.
  destruct (find_changes_step_shape (Validate.original_categories s) k u)
    as [Hnil|(e' & o & Hstep & Hid & Ho & Hne & Hch & Hlen & Hh & Hp)].
  { rewrite Hnil in He. by apply elem_of_nil in He. }
  rewrite Hstep in He. apply list_elem_of_singleton in He as ->.
  split; [exists o; by rewrite Hid|].
  split.
  { split; [|done]. destruct (Validate.changes e'); [done|cbn; lia]. }
  exists u. by rewrite Hid.
Qed.

(** X14: loading the same file as the original and as the updated snapshot
    and comparing them finds no change, whatever the file holds, even one
    that cannot be read. *)
Theorem validation_against_itself {checks : UrlParse.UrlChecks}
    (f plp_content_file : Csv.source) (s : Validate.state) :
  exists s',
    (ValidateRun.load_all_files f f plp_content_file;; Validate.find_changes) s
    = (inr 0, s')
    /\ Validate.changes_list s' = [].
Proof.
  destruct (load_all_files_run f f plp_content_file s)
    as (original & updated & plp & s1 & Hload & H1 & H2 & Hwf & _ & Ho & Hu & _).
  assert (updated = original) as ->.
  { specialize (H1 s). rewrite H2 in H1. by injection H1. }
  assert (Hnone : flat_map (Validate.find_changes_step original []) original = []).
  { assert (Hall : forall items : list (str * row),
              items ⊆ original ->
              flat_map (Validate.find_changes_step original []) items = []).
    { induction items as [|[k u] items IH]; intros Hsub; [done|].
      cbn [flat_map]. rewrite find_changes_step_same.
      - apply IH. intros x Hx. apply Hsub. by right.
      - apply elem_of_get_Some; [done|]. apply Hsub. by left. }
    by apply Hall. }
  eexists. split.
  - unfold bind. rewrite Hload. rewrite find_changes_run, Ho, Hu, Hnone. reflexivity.
  - reflexivity.
Qed.

(** ** The validation report *)

Section Report.

Context {checks : UrlParse.UrlChecks}.

Import Validate ValidateRun.

Lemma bind_inr {S A B} (m : M S A) (k : A -> M S B) (s : S) (a : A) (s' : S) :
  m s = (inr a, s') -> bind m k s = k a s'.
Proof. intros H. unfold bind. by rewrite H. Qed.

Lemma on_obj_run {A} (m : M state A) (w : world) (r : result A) (o : state) :
  m (obj w) = (r, o) -> on_obj m w = (r, {| obj := o; report := report w |}).
Proof. intros H. unfold on_obj, zoom. by rewrite H. Qed.

Lemma report_row_record (change : change_info) :
  Csv.dict_to_list report_fieldnames (report_row change) = inr (report_record change).
Proof. reflexivity. Qed.

Lemma report_loop (cs : list change_info) : forall (out : list (list str)) (w : world),
  report w = Some out ->
  foldM (fun _ change =>
           r <- lift (Csv.dict_to_list report_fieldnames (report_row change));;
           write_report r) tt cs w
  = (inr tt, {| obj := obj w; report := Some (out ++ (report_record <$> cs)) |}).
Proof.
  induction cs as [|c cs IH]; intros out w Hout.
  - cbn. unfold ret. rewrite app_nil_r. destruct w. cbn in *. by rewrite Hout.
  - cbn [foldM]. unfold bind at 1. unfold bind at 1. unfold lift at 1.
    rewrite report_row_record. unfold write_report at 1, modify at 1.
    rewrite (IH (out ++ [report_record c])).
    + cbn. by rewrite <- app_assoc.
    + cbn. by rewrite Hout.
Qed.

Lemma save_changes_report_run (open_fault : option exn) (w : world) :
  save_changes_report open_fault w
  = (inr tt,
     match changes_list (obj w), open_fault with
     | _ :: _, None =>
         {| obj := obj w;
            report := Some (report_fieldnames :: (report_record <$> changes_list (obj w))) |}
     | _, _ => w
     end).
Proof.
  unfold save_changes_report. unfold bind at 1. unfold gets at 1.
  destruct (changes_list (obj w)) as [|c cs] eqn:Hcs; [done|]. cbn [truthy negb].
  unfold try_except. destruct open_fault as [e|].
  - unfold bind at 1. unfold raise at 1. reflexivity.
  - unfold bind at 1. unfold modify at 1.
    unfold bind at 1. unfold write_report at 1, modify at 1.
    rewrite (report_loop (c :: cs) [report_fieldnames]) by done.
    reflexivity.
Qed.

Lemma find_changes_empty_side (s : state) :
  original_categories s = [] \/ updated_categories s = [] ->
  find_changes s = (inr 0, with_changes [] s).
Proof.
  intros H. rewrite find_changes_run.
  assert (Hnil : flat_map (find_changes_step (original_categories s) [])
                   (updated_categories s) = []).
  { destruct H as [-> | ->]; [|done].
    induction (updated_categories s) as [|[k u] items IH]; [done|].
    cbn [flat_map]. by rewrite IH. }
  by rewrite Hnil.
Qed.

Lemma run_outcome (original_file updated_file plp_content_file : Csv.source)
    (print_fault open_fault : option exn) (w : world) :
  exists original updated s1 n s2,
    load_all_files original_file updated_file plp_content_file (obj w) = (inr tt, s1)
    /\ (forall s0, load_csv_file original_file false s0 = (inr original, s0))
    /\ (forall s0, load_csv_file updated_file false s0 = (inr updated, s0))
    /\ original_categories s1 = original
    /\ updated_categories s1 = updated
    /\ find_changes s1 = (inr n, s2)
    /\ run original_file updated_file plp_content_file print_fault open_fault w
       = match print_fault with
         | Some e => (inl e, {| obj := s2; report := report w |})
         | None =>
             (inr tt,
              match changes_list s2, open_fault with
              | _ :: _, None =>
                  {| obj := s2;
                     report := Some (report_fieldnames
                                     :: (report_record <$> changes_list s2)) |}
              | _, _ => {| obj := s2; report := report w |}
              end)
         end.
Proof.
  destruct (load_all_files_run original_file updated_file plp_content_file (obj w))
    as (original & updated & plp & s1 & Hload & H1 & H2 & _ & _ & Ho & Hu & _).
  pose proof (find_changes_run s1) as Hfind.
  eexists original, updated, s1, _, _.
  split; [exact Hload|]. split; [exact H1|]. split; [exact H2|].
  split; [exact Ho|]. split; [exact Hu|]. split; [exact Hfind|].
  unfold run. rewrite try_except_reraise.
  rewrite (bind_inr _ _ _ _ _ (on_obj_run _ _ _ _ Hload)).
  rewrite (bind_inr _ _ _ _ _
             (on_obj_run find_changes {| obj := s1; report := report w |} _ _ Hfind)).
  cbn [report].
  destruct print_fault as [e|].
  { unfold bind at 1. unfold on_obj, zoom, print_validation_report, raise. reflexivity. }
  match goal with |- bind _ _ ?w0 = _ =>
    rewrite (bind_inr _ _ w0 tt w0); [|by destruct w0] end.
  unfold bind at 1. unfold gets at 1. cbn [obj report].
  set (cs := flat_map _ _).
  change (changes_list (with_changes cs s1)) with cs.
  destruct cs as [|c cs'] eqn:Hcs; [done|]. cbn [truthy].
  rewrite save_changes_report_run. cbn [obj changes_list with_changes].
  by destruct open_fault.
Qed.

End Report.

(** X15: [run] of the validation script raises only what a call of
    [print] raises: it ends with the exception of the first call that
    fails in [print_validation_report], before the report file is opened,
    and returns when none fails.  A file that cannot be read is loaded as
    an empty dictionary and a report file that cannot be opened is only
    logged.  When the original or the updated snapshot cannot be read, no
    change is found and the report file is not touched. *)
Theorem validation_raises_only_from_print {checks : UrlParse.UrlChecks}
    (original_file updated_file plp_content_file : Csv.source)
    (print_fault open_fault : option exn) (w : ValidateRun.world) :
  exists w',
    ValidateRun.run original_file updated_file plp_content_file print_fault open_fault w
    = (match print_fault with Some e => inl e | None => inr tt end, w')
    /\ (Csv.fault original_file <> None \/ Csv.fault updated_file <> None ->
        Validate.changes_list (ValidateRun.obj w') = []
        /\ ValidateRun.report w' = ValidateRun.report w)
    /\ (open_fault <> None -> ValidateRun.report w' = ValidateRun.report w)
    /\ (print_fault <> None -> ValidateRun.report w' = ValidateRun.report w).
Proof.
  destruct (run_outcome original_file updated_file plp_content_file print_fault open_fault w)
    as (original & updated & s1 & n & s2 & Hload & H1 & H2 & Ho & Hu & Hfind & Hrun).
  assert (Hside : Csv.fault original_file <> None \/ Csv.fault updated_file <> None ->
                  Validate.changes_list s2 = []).
  { intros Hfault.
    assert (Hempty : original = [] \/ updated = []).
    { destruct Hfault as [Hf|Hf]; [left|right].
      - destruct (Csv.fault original_file) as [e|] eqn:He; [|done].
        destruct (load_csv_file_swallows original_file e He false ValidateRun.init)
          as [s' Hs']. rewrite H1 in Hs'. by injection Hs'.
      - destruct (Csv.fault updated_file) as [e|] eqn:He; [|done].
        destruct (load_csv_file_swallows updated_file e He false ValidateRun.init)
          as [s' Hs']. rewrite H2 in Hs'. by injection Hs'. }
    rewrite find_changes_empty_side in Hfind by (by rewrite Ho, Hu).
    by injection Hfind as _ <-. }
  destruct print_fault as [e|].
  - eexists. split; [exact Hrun|]. cbn [ValidateRun.obj ValidateRun.report].
    split; [|by split]. intros Hfault. split; [by apply Hside|done].
  - eexists. split; [exact Hrun|]. split; [|split; [|done]].
    + intros Hfault. pose proof (Hside Hfault) as Hnil.
      destruct (Validate.changes_list s2) eqn:Hcs; [|discriminate]. by split.
    + intros Hopen. destruct (Validate.changes_list s2); [done|].
      by destruct open_fault.
Qed.

(** X16: [save_changes_report] never raises.  Without changes, or when the
    report file cannot be opened, it writes nothing; otherwise the file
    holds the eight column names and one record per change, in the order of
    [self.changes]: category ID, handle, the two titles, Yes or No for the
    body HTML and for the sub-heading, the change lines joined by a
    semicolon and a space, and the preview. *)
Theorem save_changes_report_rows (open_fault : option exn) (w : ValidateRun.world) :
  exists w',
    ValidateRun.save_changes_report open_fault w = (inr tt, w')
    /\ ValidateRun.obj w' = ValidateRun.obj w
    /\ ValidateRun.report w'
       = match Validate.changes_list (ValidateRun.obj w), open_fault with
         | _ :: _, None =>
             Some (ValidateRun.report_fieldnames
                   :: (report_record <$> Validate.changes_list (ValidateRun.obj w)))
         | _, _ => ValidateRun.report w
         end.
Proof.
  eexists. split; [apply save_changes_report_run|].
  destruct (Validate.changes_list (ValidateRun.obj w)); [done|]. by destruct open_fault.
Qed.

(** ** The change reporter after the merger *)

Lemma find_changes_step_nonempty (original : dict str row) (k : str) (u : row) :
  Validate.find_changes_step original [] (k, u) <> []
  <-> exists o, PyDict.get k original = Some o /\ o <> []
        /\ (changed Script.Title o u \/ changed Script.Body_HTML o u
            \/ changed Script.Metafield_subheading o u).
Proof.
  unfold Validate.find_changes_step.
  destruct (PyDict.get k original) as [o|]; [|split; [done|by intros (? & ? & _)]].
  destruct o as [|kv o]; [split; [done|by intros (? & [= <-] & ? & _)]|].
  cbn [truthy negb]. set (o' := kv :: o).
  pose proof (changed_bool Script.Title o' u) as H1.
  pose proof (changed_bool Script.Body_HTML o' u) as H2.
  pose proof (changed_bool Script.Metafield_subheading o' u) as H3.
  destruct (bool_decide _ && truthy (PyDict.get_default Script.Title [] u));
  destruct (bool_decide _ && truthy (PyDict.get_default Script.Body_HTML [] u));
  destruct (bool_decide _ && truthy (PyDict.get_default Script.Metafield_subheading [] u));
    cbn [app truthy]; (split; [intros Hne|intros (o0 & [= <-] & _ & Hch)]);
    try done;
    try (exists o'; split; [done|]; split; [done|]; tauto).
  exfalso. destruct Hch as [Hch|[Hch|Hch]];
    [apply H1 in Hch|apply H2 in Hch|apply H3 in Hch]; done.
Qed.

Lemma find_updated_step_nonempty (base_url : str) (original : dict str row)
    (k : str) (u : row) :
  ShowUpdated.find_updated_step base_url original [] (k, u) <> []
  <-> exists o, PyDict.get k original = Some o /\ o <> []
        /\ (changed Script.Title o u \/ changed Script.Body_HTML o u
            \/ changed Script.Metafield_subheading o u).
Proof.
  unfold ShowUpdated.find_updated_step.
  destruct (PyDict.get k original) as [o|]; [|split; [done|by intros (? & ? & _)]].
  destruct o as [|kv o]; [split; [done|by intros (? & [= <-] & ? & _)]|].
  cbn [truthy negb]. set (o' := kv :: o).
  pose proof (changed_bool Script.Title o' u) as H1.
  pose proof (changed_bool Script.Body_HTML o' u) as H2.
  pose proof (changed_bool Script.Metafield_subheading o' u) as H3.
  destruct (bool_decide _ && truthy (PyDict.get_default Script.Title [] u));
  destruct (bool_decide _ && truthy (PyDict.get_default Script.Body_HTML [] u));
  destruct (bool_decide _ && truthy (PyDict.get_default Script.Metafield_subheading [] u));
    cbn [app truthy]; (split; [intros Hne|intros (o0 & [= <-] & _ & Hch)]);
    try done;
    try (exists o'; split; [done|]; split; [done|]; tauto).
  exfalso. destruct Hch as [Hch|[Hch|Hch]];
    [apply H1 in Hch|apply H2 in Hch|apply H3 in Hch]; done.
Qed.

Lemma create_html_content_nonempty (t s d c : str) : create_html_content t s d c <> [].
Proof.
  unfold create_html_content.
  destruct t, s, d, c; cbn [truthy]; rewrite ?concat_app; cbn [concat]; done.
Qed.

Lemma get_default_merge_content (c : Script.content) (d : row) :
  PyDict.get_default Script.Title [] (merge_content c d)
  = (if truthy (Script.title c) then Script.title c
     else PyDict.get_default Script.Title [] d)
  /\ PyDict.get_default Script.Body_HTML [] (merge_content c d)
     = (if truthy (Script.description c)
        then create_html_content (Script.title c) (Script.subheading c)
               (Script.description c) (Script.content_under_listing c)
        else PyDict.get_default Script.Body_HTML [] d)
  /\ PyDict.get_default Script.Metafield_subheading [] (merge_content c d)
     = (if truthy (Script.subheading c) then Script.subheading c
        else PyDict.get_default Script.Metafield_subheading [] d).
Proof.
  assert (H12 : Script.Title <> Script.Body_HTML) by (by vm_compute).
  assert (H13 : Script.Title <> Script.Metafield_subheading) by (by vm_compute).
  assert (H23 : Script.Body_HTML <> Script.Metafield_subheading) by (by vm_compute).
  unfold PyDict.get_default. rewrite !merge_content_get.
  rewrite (bool_decide_eq_false_2 (Script.Title = Script.Metafield_subheading)) by done.
  rewrite (bool_decide_eq_false_2 (Script.Title = Script.Body_HTML)) by done.
  rewrite (bool_decide_eq_false_2 (Script.Body_HTML = Script.Metafield_subheading)) by done.
  rewrite !bool_decide_eq_true_2 by done. rewrite !andb_false_r, !andb_true_r.
  by destruct (truthy (Script.title c)), (truthy (Script.description c)),
       (truthy (Script.subheading c)).
Qed.

Lemma merge_content_changed (c : Script.content) (d : row) :
  (changed Script.Title d (merge_content c d)
   \/ changed Script.Body_HTML d (merge_content c d)
   \/ changed Script.Metafield_subheading d (merge_content c d))
  <-> brings_change c d.
Proof.
  unfold changed, brings_change.
  destruct (get_default_merge_content c d) as (-> & -> & ->).
  pose proof (create_html_content_nonempty (Script.title c) (Script.subheading c)
                (Script.description c) (Script.content_under_listing c)) as Hhtml.
  destruct (Script.title c) as [|t1 t] eqn:Ht;
  destruct (Script.description c) as [|d1 de] eqn:Hd;
  destruct (Script.subheading c) as [|s1 su] eqn:Hs;
    cbn [truthy] in *; intuition congruence.
Qed.

Lemma merged_row_changed (cm : gmap str Script.content) (i : nat) (d : row) :
  (changed Script.Title d (merged_row cm i d)
   \/ changed Script.Body_HTML d (merged_row cm i d)
   \/ changed Script.Metafield_subheading d (merged_row cm i d))
  <-> 0 < i /\ exists c, cm !! PyDict.get_default Script.Handle [] d = Some c
                         /\ brings_change c d.
Proof.
  unfold merged_row. case_bool_decide as Hi.
  { subst i. unfold changed. split; [intuition congruence|]. intros [? _]. lia. }
  destruct (cm !! _) as [c|].
  - rewrite merge_content_changed. split.
    + intros H. split; [lia|]. by exists c.
    + by intros [_ (c' & [= <-] & H)].
  - unfold changed. split; [intuition congruence|]. by intros [_ (c' & ? & _)].
Qed.

(** X17: the change reporters after the merger.  For a loaded category with
    a record that is not empty, [find_changes] of the validation script and
    the comparison of the updated-collections report, given the loaded
    record as the one before and the merged copy as the one after, list the
    category exactly when it stands after the first position, its handle
    has an entry in the content map, and that entry brings a non-empty
    title, body or sub-heading that differs from what the record held. *)
Theorem reporters_list_what_the_merger_changed (s : Script.state) (i : nat)
    (l : Script.loc) (d : row) (k base_url : str) :
  categories_allocated s ->
  Script.shopify_categories s !! i = Some l ->
  Script.store s !! l = Some d ->
  d <> [] ->
  exists s' copy d',
    Script.update_shopify_categories s = (inr tt, s')
    /\ Script.updated_categories s' !! i = Some copy
    /\ Script.store s' !! copy = Some d'
    /\ (Validate.find_changes_step [(k, d)] [] (k, d') <> []
        <-> 0 < i /\ exists c, Script.content_map s !! PyDict.get_default Script.Handle [] d
                               = Some c /\ brings_change c d)
    /\ (ShowUpdated.find_updated_step base_url [(k, d)] [] (k, d') <> []
        <-> 0 < i /\ exists c, Script.content_map s !! PyDict.get_default Script.Handle [] d
                               = Some c /\ brings_change c d).
Proof.
  intros Hv Hl Hd Hne.
  destruct (update_shopify_categories_run s Hv)
    as (s' & Hrun & _ & _ & _ & Hupd & _ & Hmerged).
  specialize (Hmerged i l Hl). rewrite Hd in Hmerged. cbn [default] in Hmerged.
  unfold id in Hmerged.
  eexists s', (length (Script.store s) + i), _.
  split; [exact Hrun|]. split.
  { rewrite Hupd. apply lookup_seq. split; [done|]. by eapply lookup_lt_Some. }
  split; [exact Hmerged|].
  assert (Hget : PyDict.get k [(k, d)] = Some d) by (cbn; by rewrite decide_True).
  split.
  - rewrite find_changes_step_nonempty, <- merged_row_changed. split.
    + intros (o & Ho & _ & H). rewrite Hget in Ho. by injection Ho as <-.
    + intros H. by exists d.
  - rewrite find_updated_step_nonempty, <- merged_row_changed. split.
    + intros (o & Ho & _ & H). rewrite Hget in Ho. by injection Ho as <-.
    + intros H. by exists d.
Qed.

Lemma reporters_list_what_the_merger_changed_witness :
  exists s' copy d',
    Script.update_shopify_categories three_categories = (inr tt, s')
    /\ Script.updated_categories s' !! 1 = Some copy
    /\ Script.store s' !! copy = Some d'
    /\ Validate.find_changes_step [(py "2", tacori_row (py "2"))] [] (py "2", d') <> [].
Proof.
  destruct (reporters_list_what_the_merger_changed three_categories 1 1
              (tacori_row (py "2")) (py "2") [] three_categories_allocated)
    as (s' & copy & d' & Hrun & Hcopy & Hd' & Hv & _).
  - reflexivity.
  - reflexivity.
  - discriminate.
  - exists s', copy, d'. split; [exact Hrun|]. split; [exact Hcopy|]. split; [exact Hd'|].
    apply Hv. split; [lia|]. exists full_content. split; [reflexivity|].
    left. split; [discriminate|]. by vm_compute.
Defined.

(** ** A file without a header *)

(** X18: on a file that is read without an exception but holds no record
    at all, the loaders that clean [reader.fieldnames] first
    ([load_plp_content] and [load_shopify_categories] of the migration,
    [load_collections] of the URL list) raise [TypeError] and leave their
    object as it was, and [run] of the migration ends with [TypeError]
    before anything is written; the loaders that only iterate over the rows
    return normally with nothing loaded. *)
Theorem file_without_header {checks : UrlParse.UrlChecks} (f : Csv.source) :
  Csv.records f = [] -> Csv.fault f = None ->
  (forall s, Script.load_plp_content f s = (inl TypeError, s))
  /\ (forall s, Script.load_shopify_categories f s = (inl TypeError, s))
  /\ (forall other open_fault s, Script.run f other open_fault s = (inl TypeError, s))
  /\ (forall s, ShowCollections.load_collections f s = (inl TypeError, s))
  /\ (forall is_plp s, Validate.load_csv_file f is_plp s = (inr [], s))
  /\ (forall s, ShowUpdated.load_csv_data f s = (inr [], s))
  /\ (forall data_dict, Analyze.load_shopify_data f data_dict = (inr tt, data_dict))
  /\ (forall s, AnalyzeCoverage.load_plp_content f s = (inr tt, s))
  /\ QuickTest.load_updated_categories f tt = (inr [], tt).
Proof.
  intros Hrec Hfault.
  assert (Hrows : Csv.rows f = []) by (unfold Csv.rows; by rewrite Hrec).
  assert (Hnames : Csv.fieldnames f = inr None).
  { unfold Csv.fieldnames. by rewrite Hrec, Hfault. }
  assert (H1 : forall s, Script.load_plp_content f s = (inl TypeError, s)).
  { intros s. unfold Script.load_plp_content. rewrite try_except_reraise.
    unfold bind at 1. unfold Script.cleaned_fieldnames, bind, lift. by rewrite Hnames. }
  split; [exact H1|].
  split.
  { intros s. unfold Script.load_shopify_categories. rewrite try_except_reraise.
    unfold bind at 1. unfold Script.cleaned_fieldnames, bind, lift. by rewrite Hnames. }
  split.
  { intros other o s. unfold Script.run. rewrite try_except_reraise.
    unfold bind at 1. by rewrite H1. }
  split.
  { intros s. unfold ShowCollections.load_collections. rewrite try_except_reraise.
    unfold bind at 1. unfold cleaned_fieldnames_of, bind, lift. by rewrite Hnames. }
  split.
  { intros b s. unfold Validate.load_csv_file, try_except, for_rows, bind.
    rewrite Hrows, Hfault. by destruct b. }
  split.
  { intros s. unfold ShowUpdated.load_csv_data, try_except, for_rows, bind.
    by rewrite Hrows, Hfault. }
  split.
  { intros d. unfold Analyze.load_shopify_data, try_except, for_rows, bind.
    by rewrite Hrows, Hfault. }
  split.
  { intros s. unfold AnalyzeCoverage.load_plp_content, try_except, for_rows, bind.
    by rewrite Hrows, Hfault. }
  unfold QuickTest.load_updated_categories, try_except, for_rows, bind.
  by rewrite Hrows, Hfault.
Qed.

Lemma file_without_header_witness :
  (forall other open_fault s,
     @Script.run lenient_checks empty_file other open_fault s = (inl TypeError, s))
  /\ (forall is_plp s, @Validate.load_csv_file lenient_checks empty_file is_plp s = (inr [], s)).
Proof.
  destruct (@file_without_header lenient_checks empty_file eq_refl eq_refl)
    as (_ & _ & H3 & _ & H5 & _).
  split; [exact H3|exact H5].
Defined.

(** ** The coverage analyzer *)

Section Analyzer.

Import AnalyzeCoverage.

Lemma with_lists_compose (f1 f2 g1 g2 : list collection_info -> list collection_info)
    (s : state) :
  with_not_updated_collections g2 (with_updated_collections f2
    (with_not_updated_collections g1 (with_updated_collections f1 s)))
  = with_not_updated_collections (fun l => g2 (g1 l))
      (with_updated_collections (fun l => f2 (f1 l)) s).
Proof. by destruct s. Qed.

Lemma analyze_step_run (item : str * row) (s : state) :
  analyze_step item s
  = (inr tt,
     with_not_updated_collections
       (fun l => l ++ unchanged_of (base_url s) (plp_content_map s)
                        (original_shopify_data s) item)
       (with_updated_collections
          (fun l => l ++ (info_of (plp_content_map s)
                            <$> ShowUpdated.find_updated_step (base_url s)
                                  (original_shopify_data s) [] item))
          s)).
Proof.
  destruct item as [k u].
  assert (Hid : forall s, with_not_updated_collections (fun l => l ++ [])
                  (with_updated_collections (fun l => l ++ []) s) = s).
  { intros []. unfold with_not_updated_collections, with_updated_collections. cbn.
    by rewrite !app_nil_r. }
  unfold analyze_step, unchanged_of, record_before, ShowUpdated.find_updated_step.
  unfold bind at 1. unfold gets at 1. cbn [fst snd].
  destruct (PyDict.get k (original_shopify_data s)) as [o|]; [|by rewrite Hid].
  destruct o as [|kv o]; [by rewrite Hid|]. cbn [truthy negb].
  set (o' := kv :: o).
  unfold bind, gets, modify.
  destruct (bool_decide _ && truthy (PyDict.get_default Script.Title [] u));
  destruct (bool_decide _ && truthy (PyDict.get_default Script.Body_HTML [] u));
  destruct (bool_decide _ && truthy (PyDict.get_default Script.Metafield_subheading [] u));
    cbn [app truthy fmap list_fmap]; f_equal; destruct s;
    unfold with_not_updated_collections, with_updated_collections; cbn;
    by rewrite ?app_nil_r.
Qed.

Lemma analyze_loop (items : list (str * row)) : forall s : state,
  foldM (fun _ item => analyze_step item) tt items s
  = (inr tt,
     with_not_updated_collections
       (fun l => l ++ flat_map (unchanged_of (base_url s) (plp_content_map s)
                                  (original_shopify_data s)) items)
       (with_updated_collections
          (fun l => l ++ (info_of (plp_content_map s)
                            <$> flat_map (ShowUpdated.find_updated_step (base_url s)
                                            (original_shopify_data s) []) items))
          s)).
Proof.
  induction items as [|item items IH]; intros s.
  - cbn. unfold ret. f_equal. destruct s.
    unfold with_not_updated_collections, with_updated_collections. cbn.
    by rewrite !app_nil_r.
  - cbn [foldM flat_map]. unfold bind at 1. rewrite analyze_step_run. rewrite IH.
    cbn [base_url plp_content_map original_shopify_data
         with_not_updated_collections with_updated_collections].
    rewrite with_lists_compose. f_equal. destruct s.
    unfold with_not_updated_collections, with_updated_collections. cbn.
    by rewrite fmap_app, <- !app_assoc.
Qed.

Context {order : SetOrder}.

Lemma orphan_loop (plp : dict str plp_entry) (hs : list str) : forall s : state,
  Forall (fun h => h ∈ PyDict.keys plp) hs ->
  foldM (fun _ handle =>
           match PyDict.get handle plp with
           | Some content =>
               modify (with_missing_plp_content (fun l => l ++
                 [{| missing_handle := handle; missing_plp_content := content |}]))
           | None => raise TypeError
           end) tt hs s
  = (inr tt,
     with_missing_plp_content
       (fun l => l ++ omap (fun h => c ← PyDict.get h plp;
                                     Some {| missing_handle := h; missing_plp_content := c |})
                           hs) s).
Proof.
  induction hs as [|h hs IH]; intros s Hall.
  - cbn. unfold ret. f_equal. destruct s. unfold with_missing_plp_content. cbn.
    by rewrite app_nil_r.
  - apply Forall_cons in Hall as [Hh Hall].
    cbn [foldM omap]. unfold bind at 1.
    destruct (PyDict.get h plp) as [c|] eqn:Hc.
    + unfold modify at 1. rewrite IH by done. cbn [mbind option_bind].
      f_equal. destruct s. unfold with_missing_plp_content. cbn.
      rewrite Hc. cbn. by rewrite <- app_assoc.
    + exfalso. clear -Hh Hc. unfold PyDict.keys in Hh.
      induction plp as [|[k v] plp IHp]; [by apply elem_of_nil in Hh|].
      cbn in Hc, Hh. case_decide; [done|].
      apply elem_of_cons in Hh as [->|Hh]; [done|]. by apply IHp.
Qed.

Lemma analyze_updates_run (s : state) :
  analyze_updates s
  = (inr tt,
     with_missing_plp_content
       (fun l => l ++ omap (fun h => c ← PyDict.get h (plp_content_map s);
                                     Some {| missing_handle := h; missing_plp_content := c |})
                           (iter_set (list_to_set (PyDict.keys (plp_content_map s))
                                      ∖ list_to_set (PyDict.keys (original_shopify_data s)))))
       (with_not_updated_collections
          (fun l => l ++ flat_map (unchanged_of (base_url s) (plp_content_map s)
                                     (original_shopify_data s)) (updated_shopify_data s))
          (with_updated_collections
             (fun l => l ++ (info_of (plp_content_map s)
                               <$> ShowUpdated.compare_collections (base_url s)
                                     (original_shopify_data s) (updated_shopify_data s)))
             s))).
Proof.
  unfold analyze_updates.
  unfold bind at 1. unfold gets at 1.
  unfold bind at 1. unfold PyDict.items. rewrite analyze_loop.
  unfold bind at 1. unfold gets at 1.
  unfold bind at 1. unfold gets at 1.
  cbn [plp_content_map original_shopify_data with_not_updated_collections
       with_updated_collections].
  rewrite orphan_loop.
  - unfold ShowUpdated.compare_collections, PyDict.items.
    rewrite find_updated_fold. reflexivity.
  - apply Forall_forall. intros h Hh%iter_set_elem.
    apply elem_of_difference in Hh as [Hh _]. by apply elem_of_list_to_set in Hh.
Qed.

End Analyzer.

Section AnalyzerFacts.

Import AnalyzeCoverage.

Lemma find_updated_step_shape (base : str) (original : dict str row) (k : str) (u : row) :
  ShowUpdated.find_updated_step base original [] (k, u) = []
  \/ exists e, ShowUpdated.find_updated_step base original [] (k, u) = [e]
               /\ ShowUpdated.handle e = k.
Proof.
  unfold ShowUpdated.find_updated_step.
  destruct (PyDict.get k original) as [o|]; [|by left].
  destruct (negb (truthy o)); [by left|].
  destruct (truthy _); [|by left]. right. by eexists.
Qed.

Lemma as_collection_info_of (plp : dict str plp_entry) (l : list ShowUpdated.collection) :
  as_collection <$> (info_of plp <$> l) = l.
Proof.
  rewrite <- list_fmap_compose. rewrite <- (list_fmap_id l) at 2.
  apply list_fmap_ext. intros i [] _. reflexivity.
Qed.

(** The handles of the entries an item contributes: none or its key. *)
Lemma item_handles (base : str) (plp : dict str plp_entry) (original : dict str row)
    (k : str) (u : row) :
  let es := (info_of plp <$> ShowUpdated.find_updated_step base original [] (k, u))
            ++ unchanged_of base plp original (k, u) in
  handle <$> es = [] \/ handle <$> es = [k].
Proof.
  cbv zeta. unfold unchanged_of. cbn [fst].
  destruct (find_updated_step_shape base original k u) as [->|(e & -> & Hk)].
  - destruct (record_before original k); [by right|by left].
  - cbn. rewrite Hk. destruct (record_before original k); by right.
Qed.

Lemma flat_map_handles_sublist (base : str) (plp : dict str plp_entry)
    (original : dict str row) (items : list (str * row)) :
  sublist
    (handle <$> flat_map
       (fun item => (info_of plp <$> ShowUpdated.find_updated_step base original [] item)
                    ++ unchanged_of base plp original item) items)
    (items.*1).
Proof.
  induction items as [|[k u] items IH]; [done|].
  cbn [flat_map fmap list_fmap]. rewrite fmap_app.
  destruct (item_handles base plp original k u) as [-> | ->]; cbn.
  - by apply sublist_cons.
  - by apply sublist_skip.
Qed.

Lemma flat_map_app_perm {A B} (f g : A -> list B) (l : list A) :
  flat_map f l ++ flat_map g l ≡ₚ flat_map (fun x => f x ++ g x) l.
Proof.
  induction l as [|x l IH]; [done|]. cbn [flat_map].
  rewrite <- IH. rewrite <- !app_assoc. apply Permutation_app_head.
  rewrite !app_assoc. apply Permutation_app_tail. apply Permutation_app_comm.
Qed.

Lemma elem_of_flat_map_keyed {B} (f : str * row -> list B) (hd : B -> str)
    (updated : dict str row) (k : str) (u : row) :
  PyDict.wf updated ->
  PyDict.get k updated = Some u ->
  (forall item e, e ∈ f item -> hd e = item.1) ->
  k ∈ hd <$> flat_map f updated <-> f (k, u) <> [].
Proof.
  intros Hwf Hu Hhd. rewrite list_elem_of_fmap. split.
  - intros (e & -> & He). apply list_elem_of_In, in_flat_map in He as ([k' u'] & Hin & He).
    apply list_elem_of_In in Hin, He.
    pose proof (Hhd _ _ He) as Hk. cbn in Hk. subst k'.
    apply (elem_of_get_Some _ _ _ Hwf) in Hin.
    assert (u' = u) as -> by congruence.
    intros Hnil. rewrite Hnil in He. by apply elem_of_nil in He.
  - intros Hne. destruct (f (k, u)) as [|e es] eqn:Hf; [done|].
    exists e. split.
    + symmetry. apply (Hhd (k, u)). rewrite Hf. by left.
    + apply list_elem_of_In, in_flat_map. exists (k, u).
      split; apply list_elem_of_In; [by apply get_Some_elem_of|]. rewrite Hf. by left.
Qed.

Lemma record_before_Some (original : dict str row) (k : str) (o : row) :
  record_before original k = Some o <-> PyDict.get k original = Some o /\ o <> [].
Proof.
  unfold record_before. destruct (PyDict.get k original) as [[|kv o']|]; split;
    try done; try (by intros [[=] ?]); try (by intros [[= <-] ?]);
    try (by intros [= <-]); by intros [[= <-] _].
Qed.

End AnalyzerFacts.

(** X19: the entries that [analyze_updates] appends to [updated_collections]
    are, field by field, the list that the updated-collections report
    computes from the same two snapshots and the same base URL; each
    carries its change lines and, besides, whether the handle has source
    content and that content. *)
Theorem analyzer_agrees_with_report {order : AnalyzeCoverage.SetOrder}
    (s : AnalyzeCoverage.state) :
  exists s' U,
    AnalyzeCoverage.analyze_updates s = (inr tt, s')
    /\ AnalyzeCoverage.updated_collections s' = AnalyzeCoverage.updated_collections s ++ U
    /\ as_collection <$> U
       = ShowUpdated.compare_collections (AnalyzeCoverage.base_url s)
           (AnalyzeCoverage.original_shopify_data s) (AnalyzeCoverage.updated_shopify_data s)
    /\ Forall (fun e =>
                 AnalyzeCoverage.changes e <> None
                 /\ AnalyzeCoverage.has_plp_content e
                    = PyDict.contains (AnalyzeCoverage.handle e)
                        (AnalyzeCoverage.plp_content_map s)
                 /\ AnalyzeCoverage.plp_content e
                    = PyDict.get (AnalyzeCoverage.handle e)
                        (AnalyzeCoverage.plp_content_map s)) U
    /\ AnalyzeCoverage.base_url s' = AnalyzeCoverage.base_url s
    /\ AnalyzeCoverage.plp_content_map s' = AnalyzeCoverage.plp_content_map s
    /\ AnalyzeCoverage.original_shopify_data s' = AnalyzeCoverage.original_shopify_data s
    /\ AnalyzeCoverage.updated_shopify_data s' = AnalyzeCoverage.updated_shopify_data s.
Proof.
  eexists _, _. split; [apply analyze_updates_run|]. cbn.
  split; [reflexivity|]. split; [apply as_collection_info_of|].
  split; [|done]. apply Forall_fmap, Forall_forall. by intros e _.
Qed.

(** X20: [analyze_updates] sorts every category of the updated snapshot
    (with distinct keys) that has a non-empty record before into exactly one
    of its two lists: into [updated_collections] when the title, the body
    HTML or the sub-heading metafield counts as changed, into
    [not_updated_collections] otherwise; categories without a record before
    enter neither list, and no handle is entered twice. *)
Theorem analyzer_sorts_compared_categories {order : AnalyzeCoverage.SetOrder}
    (s : AnalyzeCoverage.state) :
  PyDict.wf (AnalyzeCoverage.updated_shopify_data s) ->
  exists s' U N,
    AnalyzeCoverage.analyze_updates s = (inr tt, s')
    /\ AnalyzeCoverage.updated_collections s' = AnalyzeCoverage.updated_collections s ++ U
    /\ AnalyzeCoverage.not_updated_collections s'
       = AnalyzeCoverage.not_updated_collections s ++ N
    /\ (forall k u o,
          PyDict.get k (AnalyzeCoverage.updated_shopify_data s) = Some u ->
          record_before (AnalyzeCoverage.original_shopify_data s) k = Some o ->
          (k ∈ AnalyzeCoverage.handle <$> U <-> some_change o u)
          /\ (k ∈ AnalyzeCoverage.handle <$> N <-> ~ some_change o u))
    /\ (forall k, k ∈ AnalyzeCoverage.handle <$> (U ++ N) ->
          is_Some (PyDict.get k (AnalyzeCoverage.updated_shopify_data s))
          /\ is_Some (record_before (AnalyzeCoverage.original_shopify_data s) k))
    /\ NoDup (AnalyzeCoverage.handle <$> (U ++ N))
    /\ Forall (fun e => AnalyzeCoverage.changes e = None) N.
Proof.
  intros Hwf.
  set (base := AnalyzeCoverage.base_url s).
  set (plp := AnalyzeCoverage.plp_content_map s).
  set (original := AnalyzeCoverage.original_shopify_data s).
  set (updated := AnalyzeCoverage.updated_shopify_data s) in *.
  exists (AnalyzeCoverage.analyze_updates s).2,
    (info_of plp <$> ShowUpdated.compare_collections base original updated),
    (flat_map (unchanged_of base plp original) updated).
  rewrite analyze_updates_run. cbn [snd].
  split; [reflexivity|]. split; [reflexivity|]. split; [reflexivity|].
  assert (HU : ShowUpdated.compare_collections base original updated
               = flat_map (ShowUpdated.find_updated_step base original []) updated).
  { unfold ShowUpdated.compare_collections, PyDict.items. by rewrite find_updated_fold. }
  assert (HhU : forall item e,
            e ∈ info_of plp <$> ShowUpdated.find_updated_step base original [] item ->
            AnalyzeCoverage.handle e = item.1).
  { intros [k u] e (c & -> & Hc)%list_elem_of_fmap. cbn.
    by eapply find_updated_step_id. }
  assert (HhN : forall item e,
            e ∈ unchanged_of base plp original item -> AnalyzeCoverage.handle e = item.1).
  { intros [k u] e. unfold unchanged_of. cbn [fst].
    destruct (record_before original k); [|by intros ?%elem_of_nil].
    destruct (ShowUpdated.find_updated_step _ _ _ _); [|by intros ?%elem_of_nil].
    by intros ->%list_elem_of_singleton. }
  assert (HUflat : info_of plp <$> ShowUpdated.compare_collections base original updated
                   = flat_map (fun item => info_of plp
                                 <$> ShowUpdated.find_updated_step base original [] item)
                       updated).
  { rewrite HU. clear. induction updated as [|item items IH]; [done|].
    cbn [flat_map]. by rewrite fmap_app, IH. }
  split.
  { intros k u o Hu Ho. apply record_before_Some in Ho as [Ho Hne].
    assert (Hstep : ShowUpdated.find_updated_step base original [] (k, u) <> []
                    <-> some_change o u).
    { rewrite find_updated_step_nonempty. unfold some_change. split.
      - intros (o' & Ho' & _ & H). by assert (o' = o) as -> by congruence.
      - intros H. by exists o. }
    split.
    - rewrite HUflat.
      rewrite (elem_of_flat_map_keyed _ AnalyzeCoverage.handle updated k u Hwf Hu HhU).
      rewrite <- Hstep. destruct (ShowUpdated.find_updated_step _ _ _ _); by cbn.
    - rewrite (elem_of_flat_map_keyed _ AnalyzeCoverage.handle updated k u Hwf Hu HhN).
      rewrite <- Hstep. unfold unchanged_of. cbn [fst].
      assert (Hrb : record_before original k = Some o) by (by apply record_before_Some).
      rewrite Hrb. destruct (ShowUpdated.find_updated_step _ _ _ _); split; intros H;
        try done; try (intros H'; by apply H'); exfalso; by apply H. }
  assert (Hperm : AnalyzeCoverage.handle
                    <$> ((info_of plp <$> ShowUpdated.compare_collections base original updated)
                         ++ flat_map (unchanged_of base plp original) updated)
                  ≡ₚ AnalyzeCoverage.handle
                    <$> flat_map
                          (fun item =>
                             (info_of plp
                                <$> ShowUpdated.find_updated_step base original [] item)
                             ++ unchanged_of base plp original item) updated).
  { rewrite HUflat. apply fmap_Permutation, flat_map_app_perm. }
  split.
  { intros k Hk. rewrite Hperm in Hk.
    apply list_elem_of_fmap in Hk as (e & -> & He).
    apply list_elem_of_In, in_flat_map in He as ([k' u'] & Hin & He).
    apply list_elem_of_In in Hin, He.
    assert (Hk : AnalyzeCoverage.handle e = k').
    { apply elem_of_app in He as [He|He]; [by apply (HhU (k', u'))|by apply (HhN (k', u'))]. }
    rewrite Hk. split.
    - exists u'. by apply elem_of_get_Some.
    - apply elem_of_app in He as [He|He].
      + apply list_elem_of_fmap in He as (c & _ & Hc).
        assert (Hne : ShowUpdated.find_updated_step base original [] (k', u') <> []).
        { intros Hn. rewrite Hn in Hc. by apply elem_of_nil in Hc. }
        apply find_updated_step_nonempty in Hne as (o & Ho & Hne & _).
        exists o. by apply record_before_Some.
      + unfold unchanged_of in He. cbn [fst] in He.
        destruct (record_before original k'); [by eexists|by apply elem_of_nil in He]. }
  split.
  { rewrite Hperm. eapply sublist_NoDup; [exact Hwf|apply flat_map_handles_sublist]. }
  apply Forall_forall. intros e He.
  apply list_elem_of_In, in_flat_map in He as ([k' u'] & _ & He).
  apply list_elem_of_In in He. unfold unchanged_of in He.
  destruct (record_before original _); [|by apply elem_of_nil in He].
  destruct (ShowUpdated.find_updated_step _ _ _ _); [|by apply elem_of_nil in He].
  by apply list_elem_of_singleton in He as ->.
Qed.

Lemma analyzer_sorts_compared_categories_witness :
  PyDict.wf (AnalyzeCoverage.updated_shopify_data analyzer_small)
  /\ exists s' U N,
       @AnalyzeCoverage.analyze_updates elements_order analyzer_small = (inr tt, s')
       /\ AnalyzeCoverage.updated_collections s'
          = AnalyzeCoverage.updated_collections analyzer_small ++ U
       /\ AnalyzeCoverage.not_updated_collections s'
          = AnalyzeCoverage.not_updated_collections analyzer_small ++ N
       /\ (forall k u o,
             PyDict.get k (AnalyzeCoverage.updated_shopify_data analyzer_small) = Some u ->
             record_before (AnalyzeCoverage.original_shopify_data analyzer_small) k = Some o ->
             (k ∈ AnalyzeCoverage.handle <$> U <-> some_change o u)
             /\ (k ∈ AnalyzeCoverage.handle <$> N <-> ~ some_change o u))
       /\ (forall k, k ∈ AnalyzeCoverage.handle <$> (U ++ N) ->
             is_Some (PyDict.get k (AnalyzeCoverage.updated_shopify_data analyzer_small))
             /\ is_Some (record_before
                           (AnalyzeCoverage.original_shopify_data analyzer_small) k))
       /\ NoDup (AnalyzeCoverage.handle <$> (U ++ N))
       /\ Forall (fun e => AnalyzeCoverage.changes e = None) N.
Proof.
  assert (Hwf : PyDict.wf (AnalyzeCoverage.updated_shopify_data analyzer_small)).
  { unfold PyDict.wf. apply (bool_decide_unpack _). vm_compute. exact I. }
  split; [exact Hwf|].
  exact (@analyzer_sorts_compared_categories elements_order analyzer_small Hwf).
Defined.

Lemma get_is_Some_keys {V} (k : str) (d : dict str V) :
  is_Some (PyDict.get k d) <-> k ∈ PyDict.keys d.
Proof.
  unfold PyDict.keys. induction d as [|[k' v] d IH]; cbn.
  - split; [by intros [? ?]|by intros ?%elem_of_nil].
  - case_decide as Hk.
    + subst. split; [intros _; by left|by eexists].
    + rewrite IH. split; [by right|]. by intros [->|?]%elem_of_cons.
Qed.

(** X21: after the comparison, [analyze_updates] appends to
    [missing_plp_content] one entry for every handle that is a key of
    [plp_content_map] and not a key of [original_shopify_data], and for no
    other handle: each such handle once, with the content stored for it,
    in whatever order Python iterates over the set of these handles. *)
Theorem analyzer_lists_orphaned_content {order : AnalyzeCoverage.SetOrder}
    (s : AnalyzeCoverage.state) :
  exists s' M,
    AnalyzeCoverage.analyze_updates s = (inr tt, s')
    /\ AnalyzeCoverage.missing_plp_content_list s'
       = AnalyzeCoverage.missing_plp_content_list s ++ M
    /\ NoDup (AnalyzeCoverage.missing_handle <$> M)
    /\ (forall h, h ∈ AnalyzeCoverage.missing_handle <$> M
                  <-> is_Some (PyDict.get h (AnalyzeCoverage.plp_content_map s))
                      /\ PyDict.get h (AnalyzeCoverage.original_shopify_data s) = None)
    /\ Forall (fun m => PyDict.get (AnalyzeCoverage.missing_handle m)
                          (AnalyzeCoverage.plp_content_map s)
                        = Some (AnalyzeCoverage.missing_plp_content m)) M.
Proof.
  set (plp := AnalyzeCoverage.plp_content_map s).
  set (original := AnalyzeCoverage.original_shopify_data s).
  set (X := (list_to_set (PyDict.keys plp) ∖ list_to_set (PyDict.keys original) : gset str)).
  set (mk := fun h => c ← PyDict.get h plp;
                      Some {| AnalyzeCoverage.missing_handle := h;
                              AnalyzeCoverage.missing_plp_content := c |}).
  exists (AnalyzeCoverage.analyze_updates s).2, (omap mk (AnalyzeCoverage.iter_set X)).
  rewrite analyze_updates_run. cbn [snd].
  split; [reflexivity|]. split; [reflexivity|].
  assert (HX : forall h, h ∈ X <-> is_Some (PyDict.get h plp) /\ PyDict.get h original = None).
  { intros h. unfold X. rewrite elem_of_difference, !elem_of_list_to_set.
    rewrite <- !get_is_Some_keys. by rewrite eq_None_not_Some. }
  assert (Hhd : forall l, Forall (fun h => h ∈ X) l ->
                  AnalyzeCoverage.missing_handle <$> omap mk l = l).
  { induction l as [|h l IH]; [done|]. intros [Hh Hl]%Forall_cons.
    apply HX in Hh as [[c Hc] _]. cbn. unfold mk at 1. rewrite Hc. cbn.
    f_equal. by apply IH. }
  assert (Hall : Forall (fun h => h ∈ X) (AnalyzeCoverage.iter_set X)).
  { apply Forall_forall. intros h. by rewrite AnalyzeCoverage.iter_set_elem. }
  rewrite (Hhd _ Hall).
  split; [apply AnalyzeCoverage.iter_set_NoDup|].
  split; [intros h; by rewrite AnalyzeCoverage.iter_set_elem|].
  apply Forall_forall. intros m (h & _ & Hm)%list_elem_of_omap.
  unfold mk in Hm. destruct (PyDict.get h plp) as [c|] eqn:Hc; [|done].
  cbn in Hm. injection Hm as <-. exact Hc.
Qed.

(** ** The coverage analyzer from its files *)

Section AnalyzerLoad.

Context {checks : UrlParse.UrlChecks}.

Import AnalyzeCoverage.

Lemma with_plp_content_map_compose (f g : dict str plp_entry -> dict str plp_entry)
    (s : state) :
  with_plp_content_map g (with_plp_content_map f s)
  = with_plp_content_map (fun d => g (f d)) s.
Proof. by destruct s. Qed.

Lemma analyzer_plp_loop (cleaned : list row) : forall s : state,
  foldM (fun (_ : unit) c =>
           let url := PyDict.get_default Script.URL [] c in
           match extract_handle_from_url url with
           | Some handle =>
               when (truthy handle)
                 (modify (with_plp_content_map
                    (PyDict.set handle
                       {| plp_url := url;
                          plp_title := PyDict.get_default Script.Title [] c;
                          plp_subheading := PyDict.get_default (py "Sub-heading") [] c;
                          plp_description := PyDict.get_default (py "Description") [] c;
                          plp_content_under_listing :=
                            PyDict.get_default (py "Content under product listing") [] c |})))
           | None => ret tt
           end) tt cleaned s
  = (inr tt, with_plp_content_map (fun d => fold_left add_entry cleaned d) s).
Proof.
  induction cleaned as [|c cleaned IH]; intros s.
  - cbn. unfold ret. by destruct s.
  - cbn [foldM fold_left]. unfold bind at 1.
    assert (Hstep : forall s0 : state,
              (let url := PyDict.get_default Script.URL [] c in
               match extract_handle_from_url url with
               | Some handle =>
                   when (truthy handle)
                     (modify (with_plp_content_map
                        (PyDict.set handle
                           {| plp_url := url;
                              plp_title := PyDict.get_default Script.Title [] c;
                              plp_subheading := PyDict.get_default (py "Sub-heading") [] c;
                              plp_description := PyDict.get_default (py "Description") [] c;
                              plp_content_under_listing :=
                                PyDict.get_default (py "Content under product listing") []
                                  c |})))
               | None => ret tt
               end) s0
              = (inr tt, with_plp_content_map (fun d => add_entry d c) s0)).
    { intros s0. cbv zeta. unfold add_entry, handle_of.
      destruct (extract_handle_from_url _) as [h|]; [|unfold ret; by destruct s0].
      destruct (truthy h); cbn; [reflexivity|unfold ret; by destruct s0]. }
    rewrite Hstep. rewrite IH. by rewrite with_plp_content_map_compose.
Qed.

Lemma analyzer_load_plp_content_run (f : Csv.source) (cleaned : list row) (s : state) :
  Csv.fault f = None ->
  cleaned_to (Csv.rows f) cleaned ->
  load_plp_content f s
  = (inr tt, with_plp_content_map (fun d => fold_left add_entry cleaned d) s).
Proof.
  intros Hfault Hclean. unfold load_plp_content. apply try_except_return.
  rewrite for_rows_no_fault by exact Hfault.
  etrans; [|apply analyzer_plp_loop].
  apply (foldM_cleaned _ _ _ Hclean).
Qed.

Lemma load_shopify_data_fold (f : Csv.source) (cleaned : list row) (d : dict str row) :
  Csv.fault f = None ->
  cleaned_to (Csv.rows f) cleaned ->
  Analyze.load_shopify_data f d = (inr tt, fold_left add_keyed cleaned d).
Proof.
  intros Hfault Hclean. unfold Analyze.load_shopify_data. apply try_except_return.
  rewrite for_rows_no_fault by exact Hfault.
  etrans.
  { apply (foldM_cleaned
             (fun (_ : unit) c =>
                when (truthy (PyDict.get_default Script.Handle [] c)
                      && bool_decide (PyDict.get_default Script.Handle [] c ≠ Script.Handle))
                  (modify (PyDict.set (PyDict.get_default Script.Handle [] c) c)))
             _ _ Hclean). }
  apply (foldM_state _ add_keyed).
  intros c d0. unfold add_keyed, keyed, nonempty_not_label. by destruct (_ && _).
Qed.

Lemma set_nonempty {V} (k : str) (v : V) (d : dict str V) : PyDict.set k v d <> [].
Proof. destruct d as [|[k' v'] d]; cbn; [done|]. by case_decide. Qed.

Lemma add_keyed_nonempty (cleaned : list row) : forall d : dict str row,
  d <> [] -> fold_left add_keyed cleaned d <> [].
Proof.
  induction cleaned as [|c cleaned IH]; intros d Hd; [done|].
  cbn [fold_left]. apply IH. unfold add_keyed. destruct (keyed c); [apply set_nonempty|done].
Qed.

Lemma add_keyed_empty (cleaned : list row) :
  fold_left add_keyed cleaned [] = [] <-> Forall (fun c => keyed c = false) cleaned.
Proof.
  induction cleaned as [|c cleaned IH]; [done|].
  cbn [fold_left]. rewrite Forall_cons. unfold add_keyed at 2.
  destruct (keyed c) eqn:Hk.
  - split; [|by intros [? _]]. intros H. exfalso.
    by eapply add_keyed_nonempty; [|exact H].
  - rewrite IH. by split; [|intros [_ ?]].
Qed.

(** The two maps of the source content go together. *)
Lemma entries_agree (cleaned : list row) :
  forall (d : dict str plp_entry) (cm : gmap str Script.content),
    (forall h, cm !! h = as_content <$> PyDict.get h d) ->
    forall h, content_map_of cleaned cm !! h
              = as_content <$> PyDict.get h (fold_left add_entry cleaned d).
Proof.
  unfold content_map_of.
  induction cleaned as [|c cleaned IH]; intros d cm Hagree; [done|].
  cbn [fold_left]. apply IH. intros h.
  unfold add_content, add_entry. destruct (handle_of c) as [hc|]; [|done].
  destruct (truthy hc); [|done].
  destruct (decide (hc = h)) as [->|Hne].
  - by rewrite lookup_insert_eq, get_set_eq.
  - rewrite lookup_insert_ne by done. rewrite get_set_ne by done. apply Hagree.
Qed.

End AnalyzerLoad.

(** X22: the analyzer and the migration read the source file alike.  For a
    file with a header that is read without an exception, both
    [load_plp_content] methods return, and if the analyzer's
    [plp_content_map] and the migration's [content_map] held the same
    handles with the same four texts before, they do so afterwards: a
    handle has content for the analyzer exactly when the merger finds
    content for it. *)
Theorem analyzer_reads_content_like_the_migration {checks : UrlParse.UrlChecks}
    (f : Csv.source) (cleaned : list row) (s : Script.state) (a : AnalyzeCoverage.state) :
  Csv.records f <> [] ->
  Csv.fault f = None ->
  cleaned_to (Csv.rows f) cleaned ->
  (forall h, Script.content_map s !! h
             = as_content <$> PyDict.get h (AnalyzeCoverage.plp_content_map a)) ->
  exists s' a',
    Script.load_plp_content f s = (inr tt, s')
    /\ AnalyzeCoverage.load_plp_content f a = (inr tt, a')
    /\ (forall h, Script.content_map s' !! h
                  = as_content <$> PyDict.get h (AnalyzeCoverage.plp_content_map a'))
    /\ (forall h, PyDict.contains h (AnalyzeCoverage.plp_content_map a') = true
                  <-> is_Some (Script.content_map s' !! h))
    /\ (forall h e, PyDict.get h (AnalyzeCoverage.plp_content_map a') = Some e ->
          PyDict.get h (AnalyzeCoverage.plp_content_map a) = Some e
          \/ (h <> [] /\ extract_handle_from_url (AnalyzeCoverage.plp_url e) = Some h)).
Proof.
  intros Hrec Hfault Hclean Hagree.
  eexists _, _.
  split; [by apply (load_plp_content_run f cleaned)|].
  split; [by apply analyzer_load_plp_content_run|].
  cbn.
  assert (Hafter := entries_agree cleaned _ _ Hagree).
  split; [exact Hafter|]. split.
  - intros h. unfold PyDict.contains. rewrite (Hafter h).
    destruct (PyDict.get h _); cbn; split; try done; try (by eexists); by intros [? ?].
  - generalize (AnalyzeCoverage.plp_content_map a). clear.
    induction cleaned as [|c cleaned IH]; intros d h e; [by left|].
    cbn [fold_left]. intros He. apply IH in He as [He|He]; [|by right].
    unfold add_entry in He. destruct (handle_of c) as [hc|] eqn:Hc; [|by left].
    destruct (truthy hc) eqn:Ht; [|by left].
    destruct (decide (hc = h)) as [->|Hne].
    + rewrite get_set_eq in He. injection He as <-. right.
      split; [by destruct h|]. exact Hc.
    + rewrite get_set_ne in He by done. by left.
Qed.

Lemma analyzer_reads_content_like_the_migration_witness :
  Csv.records plp_small <> []
  /\ Csv.fault plp_small = None
  /\ cleaned_to (Csv.rows plp_small) plp_small_cleaned
  /\ exists s' a',
       @Script.load_plp_content lenient_checks plp_small Script.init = (inr tt, s')
       /\ @AnalyzeCoverage.load_plp_content lenient_checks plp_small
            (AnalyzeCoverage.init (py "https://shop/")) = (inr tt, a')
       /\ (forall h, Script.content_map s' !! h
                     = as_content <$> PyDict.get h (AnalyzeCoverage.plp_content_map a'))
       /\ (forall h, PyDict.contains h (AnalyzeCoverage.plp_content_map a') = true
                     <-> is_Some (Script.content_map s' !! h))
       /\ (forall h e, PyDict.get h (AnalyzeCoverage.plp_content_map a') = Some e ->
             PyDict.get h (AnalyzeCoverage.plp_content_map
                             (AnalyzeCoverage.init (py "https://shop/"))) = Some e
             \/ (h <> [] /\ @extract_handle_from_url lenient_checks
                              (AnalyzeCoverage.plp_url e) = Some h)).
Proof.
  split; [discriminate|]. split; [reflexivity|]. split; [exact plp_small_cleaning|].
  apply (@analyzer_reads_content_like_the_migration lenient_checks
           plp_small plp_small_cleaned Script.init
           (AnalyzeCoverage.init (py "https://shop/")));
    [discriminate|reflexivity|exact plp_small_cleaning|].
  intros h. cbn. apply lookup_empty.
Defined.

Lemma zoom_run {S T A} (get : S -> T) (set : T -> S -> S) (m : M T A) (s : S)
    (r : result A) (t : T) :
  m (get s) = (r, t) -> zoom get set m s = (r, set t s).
Proof. intros H. unfold zoom. by rewrite H. Qed.

Lemma keyed_cases (co : list row) :
  Forall (fun c => keyed c = false) co \/ Exists (fun c => keyed c = true) co.
Proof.
  induction co as [|c co [IH|IH]]; [by left| |by right; right].
  destruct (keyed c) eqn:Hc; [right; by left|left; by constructor].
Qed.

Lemma keyed_exclusive (co : list row) :
  Forall (fun c => keyed c = false) co -> Exists (fun c => keyed c = true) co -> False.
Proof.
  intros Hall (c & Hin & Hc)%Exists_exists.
  rewrite Forall_forall in Hall. specialize (Hall c Hin). congruence.
Qed.

(** X23: when its three files are read without an exception, [run] of
    the analyzer (without the report file) ends with the exception of a
    call of [print] that fails before the update success rate is computed;
    when none of these fails it ends with [ZeroDivisionError], raised by
    [print_analysis] where the rate divides by the number of original
    categories, if no row of the original export has a handle that is
    neither empty nor the label [Handle]; and when there is such a row it
    ends with the exception of a later call of [print] that fails, and
    returns when none does. *)
Theorem analyzer_run_needs_an_original_category
    {checks : UrlParse.UrlChecks} {order : AnalyzeCoverage.SetOrder}
    (plp_file original_file updated_file : Csv.source) (cp co cu : list row) (base : str)
    (head_fault tail_fault : option exn) :
  Csv.fault plp_file = None -> cleaned_to (Csv.rows plp_file) cp ->
  Csv.fault original_file = None -> cleaned_to (Csv.rows original_file) co ->
  Csv.fault updated_file = None -> cleaned_to (Csv.rows updated_file) cu ->
  exists r s',
    AnalyzeCoverage.run plp_file original_file updated_file head_fault tail_fault
      (AnalyzeCoverage.init base)
    = (r, s')
    /\ (forall e, head_fault = Some e -> r = inl e)
    /\ (head_fault = None -> Forall (fun c => keyed c = false) co ->
        r = inl ZeroDivisionError)
    /\ (head_fault = None -> Exists (fun c => keyed c = true) co ->
        r = match tail_fault with Some e => inl e | None => inr tt end)
    /\ (Forall (fun c => keyed c = false) co \/ Exists (fun c => keyed c = true) co).
Proof.
  intros Hfp Hcp Hfo Hco Hfu Hcu.
  unfold AnalyzeCoverage.run.
  assert (Hrun : forall s0 : AnalyzeCoverage.state,
            AnalyzeCoverage.original_shopify_data s0 = [] ->
            exists s',
              (AnalyzeCoverage.load_plp_content plp_file;;
               zoom AnalyzeCoverage.original_shopify_data
                 AnalyzeCoverage.with_original_shopify_data
                 (Analyze.load_shopify_data original_file);;
               zoom AnalyzeCoverage.updated_shopify_data
                 AnalyzeCoverage.with_updated_shopify_data
                 (Analyze.load_shopify_data updated_file);;
               AnalyzeCoverage.analyze_updates;;
               AnalyzeCoverage.print_analysis head_fault tail_fault) s0
              = (match head_fault with
                 | Some e => inl e
                 | None =>
                     if length (fold_left add_keyed co []) =? 0
                     then inl ZeroDivisionError
                     else match tail_fault with Some e => inl e | None => inr tt end
                 end, s')).
  { intros s0 Hs0.
    rewrite (bind_inr _ _ _ _ _ (analyzer_load_plp_content_run _ _ _ Hfp Hcp)).
    rewrite (bind_inr _ _ _ tt _
               (zoom_run _ _ _ _ _ _ (load_shopify_data_fold _ _ _ Hfo Hco))).
    rewrite (bind_inr _ _ _ tt _
               (zoom_run _ _ _ _ _ _ (load_shopify_data_fold _ _ _ Hfu Hcu))).
    rewrite (bind_inr _ _ _ tt _ (analyze_updates_run _)).
    unfold AnalyzeCoverage.print_analysis.
    destruct head_fault as [e|]; [by eexists|].
    unfold bind, gets. cbn. rewrite Hs0.
    destruct (length _ =? 0); [by eexists|]. destruct tail_fault; by eexists. }
  destruct (Hrun (AnalyzeCoverage.init base) eq_refl) as [s' Hs'].
  rewrite try_except_reraise. rewrite Hs'. clear Hrun Hs'.
  eexists _, s'. split; [reflexivity|].
  split; [by intros e ->|].
  split; [|split; [|apply keyed_cases]].
  - intros -> Hall. by rewrite (proj2 (add_keyed_empty co) Hall).
  - intros -> Hex.
    assert (Hne : fold_left add_keyed co [] <> []).
    { intros H. apply add_keyed_empty in H. by eapply keyed_exclusive. }
    by destruct (fold_left add_keyed co []) as [|x d].
Qed.

Lemma analyzer_run_needs_an_original_category_witness :
  exists s',
    @AnalyzeCoverage.run lenient_checks elements_order plp_small empty_file
      export_with_columns None None (AnalyzeCoverage.init (py "https://shop/"))
    = (inl ZeroDivisionError, s').
Proof.
  destruct (@analyzer_run_needs_an_original_category lenient_checks elements_order
              plp_small empty_file export_with_columns
              plp_small_cleaned [] export_with_columns_cleaned (py "https://shop/")
              None None eq_refl plp_small_cleaning eq_refl
              ltac:(constructor) eq_refl export_with_columns_cleaning)
    as (r & s' & Hrun & _ & Hzero & _).
  exists s'. rewrite Hrun. f_equal. apply Hzero; [reflexivity|constructor].
Defined.

(** ** The list of collection URLs *)

Section UniqueCollections.

Import ShowCollections.

Lemma firsts_handles (es : list collection) : forall (seen : gset str) (h : str),
  h ∈ handle <$> firsts seen es <-> h ∈ handle <$> es /\ h ∉ seen.
Proof.
  induction es as [|e es IH]; intros seen h.
  - cbn. split; [by intros ?%elem_of_nil|by intros [?%elem_of_nil _]].
  - cbn [firsts]. case_bool_decide as He.
    + rewrite !fmap_cons, !elem_of_cons, IH. split.
      * intros [->|[Hin Hn]]; [by split; [left|]|]. split; [by right|].
        intros Hs. apply Hn. apply elem_of_union. by right.
      * intros [[->|Hin] Hn]; [by left|].
        destruct (decide (h = handle e)) as [->|Hne]; [by left|]. right. split; [done|].
        by intros [?%elem_of_singleton|?]%elem_of_union.
    + rewrite IH, fmap_cons, elem_of_cons. split.
      * intros [Hin Hn]. by split; [right|].
      * intros [[->|Hin] Hn]; [|done]. exfalso. by apply Hn.
Qed.

Lemma firsts_sublist (es : list collection) : forall seen : gset str,
  sublist (firsts seen es) es.
Proof.
  induction es as [|e es IH]; intros seen; [done|].
  cbn [firsts]. case_bool_decide; [by apply sublist_skip|by apply sublist_cons].
Qed.

Lemma firsts_NoDup (es : list collection) : forall seen : gset str,
  NoDup (handle <$> firsts seen es).
Proof.
  induction es as [|e es IH]; intros seen; [constructor|].
  cbn [firsts]. case_bool_decide; [|apply IH].
  rewrite fmap_cons. apply NoDup_cons. split; [|apply IH].
  rewrite firsts_handles. intros [_ Hn]. apply Hn.
  apply elem_of_union. left. by apply elem_of_singleton.
Qed.

(** An entry of [firsts] is the first entry of the list with its handle. *)
Lemma firsts_first (es : list collection) : forall (seen : gset str) (u : collection),
  u ∈ firsts seen es ->
  exists i, list_find (fun e => handle e = handle u) es = Some (i, u).
Proof.
  induction es as [|e es IH]; intros seen u; [by intros ?%elem_of_nil|].
  cbn [firsts]. case_bool_decide as He.
  - intros [->|Hin]%elem_of_cons.
    + exists 0. cbn. by rewrite decide_True.
    + assert (Hne : handle e <> handle u).
      { intros Heq. assert (Hh : handle u ∈ handle <$> firsts ({[handle e]} ∪ seen) es).
        { apply list_elem_of_fmap. by exists u. }
        apply firsts_handles in Hh as [_ Hn]. apply Hn.
        apply elem_of_union. left. by apply elem_of_singleton. }
      destruct (IH _ _ Hin) as [i Hi]. exists (S i).
      cbn. rewrite decide_False by done. by rewrite Hi.
  - intros Hin.
    assert (Hne : handle e <> handle u).
    { intros Heq. assert (Hh : handle u ∈ handle <$> firsts seen es).
      { apply list_elem_of_fmap. by exists u. }
      apply firsts_handles in Hh as [_ Hn]. apply Hn. by rewrite <- Heq. }
    destruct (IH _ _ Hin) as [i Hi]. exists (S i).
    cbn. rewrite decide_False by done. by rewrite Hi.
Qed.

Lemma with_unique_collections_compose (f g : list collection -> list collection) (s : state) :
  with_unique_collections g (with_unique_collections f s)
  = with_unique_collections (fun l => g (f l)) s.
Proof. by destruct s. Qed.

Lemma collections_loop (base : str) (cleaned : list row) :
  forall (cols : list collection) (seen : gset str) (s : state),
  exists seen',
    foldM (fun (acc : list collection * gset str) c =>
             let '(collections, seen_handles) := acc in
             let handle := PyDict.get_default Script.Handle [] c in
             let title := PyDict.get_default Script.Title [] c in
             if truthy handle && bool_decide (handle ≠ Script.Handle) then
               let entry := {| handle := handle; title := title;
                               url := base ++ py "/collections/" ++ handle |} in
               let collections := collections ++ [entry] in
               if bool_decide (handle ∉ seen_handles) then
                 modify (with_unique_collections (fun l => l ++ [entry]));;
                 ret (collections, {[ handle ]} ∪ seen_handles)
               else ret (collections, seen_handles)
             else ret (collections, seen_handles))
          (cols, seen) cleaned s
    = (inr (cols ++ (collection_of base <$> filter (fun c => keyed c = true) cleaned), seen'),
       with_unique_collections
         (fun l => l ++ firsts seen (collection_of base
                                       <$> filter (fun c => keyed c = true) cleaned)) s).
Proof.
  induction cleaned as [|c cleaned IH]; intros cols seen s.
  - exists seen. cbn. unfold ret. rewrite app_nil_r. f_equal. destruct s.
    unfold with_unique_collections. cbn. by rewrite app_nil_r.
  - cbn [foldM]. unfold bind at 1. rewrite filter_cons. cbv zeta.
    destruct (keyed c) eqn:Hk; pose proof Hk as Hk'; unfold keyed, nonempty_not_label in Hk';
      rewrite Hk'.
    + rewrite decide_True by done. cbn [fmap list_fmap firsts].
      change (ShowCollections.handle (collection_of base c))
        with (PyDict.get_default Script.Handle [] c).
      destruct (decide (PyDict.get_default Script.Handle [] c ∈ seen)) as [Hseen|Hseen];
        [rewrite !(bool_decide_eq_false_2 (_ ∉ seen)) by (intros H; by apply H)
        |rewrite !(bool_decide_eq_true_2 (_ ∉ seen)) by done]; swap 1 2.
      * unfold bind at 1. unfold modify at 1. unfold ret at 1.
        destruct (IH (cols ++ [collection_of base c])
                    ({[PyDict.get_default Script.Handle [] c]} ∪ seen)
                    (with_unique_collections (fun l => l ++ [collection_of base c]) s))
          as [seen' Hrun].
        exists seen'. etrans; [exact Hrun|].
        rewrite with_unique_collections_compose. rewrite <- app_assoc. f_equal.
        destruct s. unfold with_unique_collections. cbn. by rewrite <- app_assoc.
      * unfold ret at 1.
        destruct (IH (cols ++ [collection_of base c]) seen s) as [seen' Hrun].
        exists seen'. etrans; [exact Hrun|].
        by rewrite <- app_assoc.
    + rewrite decide_False by done. unfold ret at 1. apply IH.
Qed.

End UniqueCollections.

(** X24: when the export has a header and is read without an exception,
    [load_collections] sets [collections] to one entry per row whose handle
    is neither empty nor the label [Handle], in file order, each with the
    URL [base_url/collections/handle]; to [unique_collections] it appends,
    in the same order, the first of these entries for every handle: no
    handle twice, every handle of [collections] once, and the title is
    that of the first row with the handle. *)
Theorem load_collections_keeps_first_of_each_handle
    (f : Csv.source) (cleaned : list row) (s : ShowCollections.state) :
  Csv.records f <> [] ->
  Csv.fault f = None ->
  cleaned_to (Csv.rows f) cleaned ->
  exists s' U,
    ShowCollections.load_collections f s = (inr tt, s')
    /\ ShowCollections.base_url s' = ShowCollections.base_url s
    /\ ShowCollections.collections s'
       = collection_of (ShowCollections.base_url s) <$> filter (fun c => keyed c = true) cleaned
    /\ ShowCollections.unique_collections s' = ShowCollections.unique_collections s ++ U
    /\ sublist U (ShowCollections.collections s')
    /\ NoDup (ShowCollections.handle <$> U)
    /\ (forall h, h ∈ ShowCollections.handle <$> U
                  <-> h ∈ ShowCollections.handle <$> ShowCollections.collections s')
    /\ (forall u, u ∈ U ->
          exists i, list_find (fun e => ShowCollections.handle e = ShowCollections.handle u)
                      (ShowCollections.collections s') = Some (i, u)).
Proof.
  intros Hrec Hfault Hclean.
  set (base := ShowCollections.base_url s).
  set (es := collection_of base <$> filter (fun c => keyed c = true) cleaned).
  destruct (collections_loop base cleaned [] ∅ s) as [seen' Hloop].
  exists (ShowCollections.with_collections es
            (ShowCollections.with_unique_collections (fun l => l ++ firsts ∅ es) s)),
    (firsts ∅ es).
  split.
  { unfold ShowCollections.load_collections. apply try_except_return.
    assert (Hnames : exists ns, @cleaned_fieldnames_of ShowCollections.state f s = (inr ns, s)).
    { unfold cleaned_fieldnames_of, bind, lift, Csv.fieldnames.
      destruct (Csv.records f) as [|names rs]; [done|]. unfold ret. by eauto. }
    destruct Hnames as [ns Hnames].
    rewrite (bind_inr _ _ _ _ _ Hnames).
    unfold bind at 1. unfold gets at 1. fold base.
    assert (Hrows : for_rows f
              (fun (acc : list ShowCollections.collection * gset str) r =>
                 cleaned <- lift (cleaned_row r) ;;
                 let '(collections, seen_handles) := acc in
                 let handle := PyDict.get_default Script.Handle [] cleaned in
                 let title := PyDict.get_default Script.Title [] cleaned in
                 if truthy handle && bool_decide (handle ≠ Script.Handle) then
                   let entry := {| ShowCollections.handle := handle;
                                   ShowCollections.title := title;
                                   ShowCollections.url := base ++ py "/collections/" ++ handle |} in
                   let collections := collections ++ [entry] in
                   if bool_decide (handle ∉ seen_handles) then
                     modify (ShowCollections.with_unique_collections (fun l => l ++ [entry]));;
                     ret (collections, {[ handle ]} ∪ seen_handles)
                   else ret (collections, seen_handles)
                 else ret (collections, seen_handles))
              ([], ∅) s
            = (inr (es, seen'),
               ShowCollections.with_unique_collections (fun l => l ++ firsts ∅ es) s)).
    { rewrite for_rows_no_fault by exact Hfault.
      etrans; [|exact Hloop].
      apply (foldM_cleaned _ _ _ Hclean). }
    rewrite (bind_inr _ _ _ _ _ Hrows). reflexivity. }
  cbn. split; [reflexivity|]. split; [reflexivity|]. split; [reflexivity|].
  split; [apply firsts_sublist|]. split; [apply firsts_NoDup|]. split.
  - intros h. rewrite firsts_handles. split; [by intros [? _]|].
    intros Hh. split; [done|]. apply not_elem_of_empty.
  - intros u. apply firsts_first.
Qed.

Lemma export_with_repeated_handle_cleaning :
  cleaned_to (Csv.rows export_with_repeated_handle) export_with_repeated_handle_cleaned.
Proof. repeat constructor. Qed.

Lemma load_collections_keeps_first_of_each_handle_witness :
  exists s' U,
    ShowCollections.load_collections export_with_repeated_handle
      (ShowCollections.init (py "https://shop/")) = (inr tt, s')
    /\ ShowCollections.base_url s' = py "https://shop"
    /\ ShowCollections.collections s'
       = collection_of (py "https://shop")
           <$> filter (fun c => keyed c = true) export_with_repeated_handle_cleaned
    /\ ShowCollections.unique_collections s' = [] ++ U
    /\ sublist U (ShowCollections.collections s')
    /\ NoDup (ShowCollections.handle <$> U)
    /\ (forall h, h ∈ ShowCollections.handle <$> U
                  <-> h ∈ ShowCollections.handle <$> ShowCollections.collections s')
    /\ (forall u, u ∈ U ->
          exists i, list_find (fun e => ShowCollections.handle e = ShowCollections.handle u)
                      (ShowCollections.collections s') = Some (i, u)).
Proof.
  apply (load_collections_keeps_first_of_each_handle export_with_repeated_handle
           export_with_repeated_handle_cleaned (ShowCollections.init (py "https://shop/"))).
  - discriminate.
  - reflexivity.
  - exact export_with_repeated_handle_cleaning.
Defined.

(** ** The loader of the quick test *)

Section QuickLoader.

Lemma quick_clean_key_Some (k : str) :
  QuickTest.clean_key (Some k) = inr (clean_field_name (Some k)).
Proof. unfold QuickTest.clean_key, clean_field_name. by destruct k. Qed.

Lemma quick_clean_key_error (k : option str) (e : exn) :
  QuickTest.clean_key k = inl e -> e = AttributeError.
Proof. destruct k; cbn; congruence. Qed.

(** On items with string keys the inlined cleaning is that of
    [clean_field_name]. *)
Lemma quick_loop_keys (items : list (option str * Csv.value)) :
  Forall (fun kv => is_Some kv.1) items ->
  forall acc : row,
    rfold (fun cleaned kv =>
             rbind (QuickTest.clean_key kv.1)
                   (fun clean_key =>
                      rbind (clean_value kv.2)
                            (fun v => inr (PyDict.set clean_key v cleaned))))
          acc items
    = rfold (fun cleaned kv =>
               rbind (clean_value kv.2)
                     (fun v => inr (PyDict.set (clean_field_name kv.1) v cleaned)))
            acc items.
Proof.
  induction 1 as [|[k v] items [k' Hk] _ IH]; intros acc; [reflexivity|].
  cbn in Hk. subst k. cbn [rfold fst snd]. rewrite quick_clean_key_Some. cbn [rbind].
  destruct (clean_value v) as [e|v']; [reflexivity|]. cbn [rbind]. apply IH.
Qed.

(** A list of surplus cells ends the inlined loop as well, at its key or
    at its value. *)
Lemma quick_loop_surplus (items : list (option str * Csv.value)) :
  Exists (fun kv => surplus kv.2) items ->
  forall acc : row,
    rfold (fun cleaned kv =>
             rbind (QuickTest.clean_key kv.1)
                   (fun clean_key =>
                      rbind (clean_value kv.2)
                            (fun v => inr (PyDict.set clean_key v cleaned))))
          acc items
    = inl AttributeError.
Proof.
  induction items as [|[k v] items IH]; intros Hex acc; [by apply Exists_nil in Hex|].
  cbn [rfold fst snd].
  destruct (QuickTest.clean_key k) as [e|k'] eqn:Hk.
  { by apply quick_clean_key_error in Hk as ->. }
  cbn [rbind].
  destruct (clean_value_surplus v) as [[_ ->]|[Hv (s & -> & _)]]; cbn [rbind]; [done|].
  apply IH. apply Exists_cons in Hex as [Hex|Hex]; [done|exact Hex].
Qed.

Lemma quick_cleaned_row_of_record (names r : list str) :
  QuickTest.cleaned_row (Csv.dict_of_record names r)
  = cleaned_row (Csv.dict_of_record names r).
Proof.
  destruct (dict_of_record_items names r) as [Hshort Hlong].
  destruct (decide (length r <= length names)) as [Hle|Hgt].
  - destruct (Hshort Hle) as [_ Hkeys].
    apply quick_loop_keys. apply Forall_forall. intros [k v] Hin. cbn.
    assert (Hk : k ∈ PyDict.keys (Csv.dict_of_record names r)).
    { apply list_elem_of_fmap. by exists (k, v). }
    apply Hkeys in Hk. apply list_elem_of_fmap in Hk as (n & -> & _). by eexists.
  - assert (Hex := Hlong ltac:(lia)).
    rewrite (cleaned_row_surplus _ Hex). by apply quick_loop_surplus.
Qed.

Lemma quick_cleaned_row_rows (f : Csv.source) :
  Forall (fun r => QuickTest.cleaned_row r = cleaned_row r) (Csv.rows f).
Proof.
  unfold Csv.rows. destruct (Csv.records f) as [|names rs]; [constructor|].
  apply Forall_fmap, Forall_forall. intros r _. apply quick_cleaned_row_of_record.
Qed.

Lemma keyed_loop_pure {S} (cr : Csv.raw_row -> result row)
    (step : dict str row -> row -> dict str row) (l : list Csv.raw_row) :
  forall (acc : dict str row) (s : S),
    foldM (fun data r => c <- lift (cr r) ;; ret (step data c)) acc l s
    = (rfold (fun data r => rbind (cr r) (fun c => inr (step data c))) acc l, s).
Proof.
  induction l as [|r l IH]; intros acc s; [reflexivity|].
  cbn [foldM rfold]. unfold bind at 1. unfold bind at 1. unfold lift at 1.
  destruct (cr r) as [e|c]; [reflexivity|]. cbn [rbind]. unfold ret at 1. apply IH.
Qed.

Lemma keyed_loop_ext (cr1 cr2 : Csv.raw_row -> result row)
    (step : dict str row -> row -> dict str row) (l : list Csv.raw_row) :
  Forall (fun r => cr1 r = cr2 r) l ->
  forall acc : dict str row,
    rfold (fun data r => rbind (cr1 r) (fun c => inr (step data c))) acc l
    = rfold (fun data r => rbind (cr2 r) (fun c => inr (step data c))) acc l.
Proof.
  induction 1 as [|r l Hr _ IH]; intros acc; [reflexivity|].
  cbn [rfold]. rewrite Hr. destruct (cr2 r) as [e|c]; [reflexivity|]. cbn [rbind]. apply IH.
Qed.

End QuickLoader.

(** X25: [load_updated_categories] of the quick test, which cleans the
    column names in its loop instead of calling [clean_field_name], returns
    for every file exactly the dictionary that [load_csv_file] of the
    validation script returns for it as a category file; neither raises,
    and the validation object is left as it was. *)
Theorem quick_test_loads_like_the_validation {checks : UrlParse.UrlChecks}
    (f : Csv.source) (s : Validate.state) :
  exists data,
    QuickTest.load_updated_categories f tt = (inr data, tt)
    /\ Validate.load_csv_file f false s = (inr data, s).
Proof.
  set (step := fun (data : dict str row) (c : row) =>
                 if truthy (PyDict.get_default Validate.ID [] c)
                 then PyDict.set (PyDict.get_default Validate.ID [] c) c data else data).
  assert (HQ : forall u : unit,
            for_rows f (fun data r => c <- lift (QuickTest.cleaned_row r) ;; ret (step data c))
              [] u
            = (rbind (rfold (fun data r => rbind (cleaned_row r) (fun c => inr (step data c)))
                        [] (Csv.rows f))
                     (fun data => match Csv.fault f with
                                  | Some e => inl e | None => inr data end), u)).
  { intros u. unfold for_rows. unfold bind at 1. rewrite keyed_loop_pure.
    rewrite (keyed_loop_ext _ _ _ _ (quick_cleaned_row_rows f)).
    destruct (rfold _ _ _) as [e|d]; [reflexivity|]. cbn [rbind].
    by destruct (Csv.fault f). }
  assert (HV : forall s0 : Validate.state,
            for_rows f (fun data r => c <- lift (cleaned_row r) ;; ret (step data c)) [] s0
            = (rbind (rfold (fun data r => rbind (cleaned_row r) (fun c => inr (step data c)))
                        [] (Csv.rows f))
                     (fun data => match Csv.fault f with
                                  | Some e => inl e | None => inr data end), s0)).
  { intros s0. unfold for_rows. unfold bind at 1. rewrite keyed_loop_pure.
    destruct (rfold _ _ _) as [e|d]; [reflexivity|]. cbn [rbind].
    by destruct (Csv.fault f). }
  unfold QuickTest.load_updated_categories, Validate.load_csv_file, try_except.
  fold step. rewrite HQ, HV.
  destruct (rbind _ _) as [e|d]; by eexists.
Qed.

(** ** The limit of the printed list *)

(** X26: [print_collections_urls] lists every entry when the limit is
    [None] or 0 and the first [limit] entries when the limit is positive,
    and in both cases it never prints the closing line that tells how many
    more there are, however many entries the limit cuts off.  With a
    negative limit it leaves out the last [-limit] entries and always
    prints that line, with a number larger than the number of all
    entries. *)
Theorem limit_note_only_for_negative_limit
    (limit : option Z) (unique_only : bool) (s : ShowCollections.state) :
  exists shown note,
    ShowCollections.print_collections_urls limit unique_only s = (shown, note)
    /\ match limit with
       | None => shown = chosen_collections unique_only s /\ note = None
       | Some n =>
           ((n = 0)%Z -> shown = chosen_collections unique_only s /\ note = None)
           /\ ((0 < n)%Z ->
                 shown = take (Z.to_nat n) (chosen_collections unique_only s)
                 /\ note = None)
           /\ ((n < 0)%Z ->
                 shown = take (length (chosen_collections unique_only s) - Z.to_nat (- n))
                           (chosen_collections unique_only s)
                 /\ note = Some (Z.of_nat (length (chosen_collections unique_only s)) - n)%Z
                 /\ (Z.of_nat (length (chosen_collections unique_only s))
                     < Z.of_nat (length (chosen_collections unique_only s)) - n)%Z)
       end.
Proof.
  eexists _, _. split; [reflexivity|].
  unfold chosen_collections.
  set (chosen := if unique_only then ShowCollections.unique_collections s
                 else ShowCollections.collections s).
  destruct limit as [n|]; [|done].
  split; [|split].
  - intros ->. by cbn.
  - intros Hn. assert (Hz : (n =? 0)%Z = false) by (apply Z.eqb_neq; lia).
    rewrite Hz. cbn [negb andb]. unfold ShowCollections.slice_to.
    assert (Hp : (0 <=? n)%Z = true) by (apply Z.leb_le; lia). rewrite Hp.
    split; [done|].
    assert (Hlt : (n <? Z.of_nat (length (take (Z.to_nat n) chosen)))%Z = false).
    { apply Z.ltb_ge. rewrite length_take. lia. }
    by rewrite Hlt.
  - intros Hn. assert (Hz : (n =? 0)%Z = false) by (apply Z.eqb_neq; lia).
    rewrite Hz. cbn [negb andb]. unfold ShowCollections.slice_to.
    assert (Hp : (0 <=? n)%Z = false) by (apply Z.leb_gt; lia). rewrite Hp.
    split; [done|].
    assert (Hlt : (n <? Z.of_nat (length (take (length chosen - Z.to_nat (- n)) chosen)))%Z
                  = true) by (apply Z.ltb_lt; lia).
    rewrite Hlt. split; [|lia]. unfold chosen. by destruct unique_only.
Qed.
